(** * MixLab: background BPM analysis of the file browser

    A shallow embedding of [DjApp/file_management.py]: the worker
    [BPMAnalyzerThread] that analyses a queue of audio files, and the state of
    [FileBrowserDialog] that owns the worker, the track list and the in-memory
    BPM cache.

    - Python dictionaries are finite maps ([gmap]), lists are lists.
    - A BPM is a Python [float]; the program only compares it with [0],
      truncates it with [int] and stores it, so it is modelled by a rational.
    - Raising code returns an [outcome]; a [try]/[except] is a [match] on it.
    - The worker thread and the control thread interleave at the granularity
      of one loop iteration of [run]; signals from the worker are queued to
      the control thread (they cross threads) and delivered later. *)

From Stdlib Require Import ZArith QArith Ascii String List Lia DecimalString.
From stdpp Require Import base option list gmap strings fin_maps.

Local Open Scope nat_scope.

(** ** Python prelude *)

(** Exceptions, all instances of Python's [Exception]; the payload is the
    message. *)
Inductive exn :=
| OSError (msg : string)
| TypeError (msg : string)
| ValueError (msg : string)
| RuntimeError (msg : string).

Inductive outcome (A : Type) :=
| Ok (a : A)
| Raise (e : exn).
Arguments Ok {A} a.
Arguments Raise {A} e.

#[global] Instance outcome_ret : MRet outcome := fun A a => Ok a.
#[global] Instance outcome_bind : MBind outcome := fun A B k m =>
  match m with
  | Ok a => k a
  | Raise e => Raise e
  end.

(** [bpm > 0], [bpm == 0] and [int(bpm)] on floats. *)
Definition bpm_gt0 (bpm : Q) : bool := (0 <? Qnum bpm)%Z.
Definition bpm_eq0 (bpm : Q) : bool := (Qnum bpm =? 0)%Z.
Definition int_of_bpm (bpm : Q) : Z := Z.quot (Qnum bpm) (Zpos (Qden bpm)).
Definition str_of_int (z : Z) : string := NilZero.string_of_int (Z.to_int z).

(** *** Strings and [os.path] (POSIX flavour) *)

Definition slash : ascii := "/"%char.
Definition dot : ascii := "."%char.

Definition truthy (s : string) : bool :=
  match s with EmptyString => false | String _ _ => true end.

Fixpoint last_char (s : string) : option ascii :=
  match s with
  | EmptyString => None
  | String c EmptyString => Some c
  | String _ s' => last_char s'
  end.

Definition starts_with_slash (s : string) : bool :=
  match s with
  | String c _ => Ascii.eqb c slash
  | EmptyString => false
  end.

(** [os.path.join(a, b)] for two components. *)
Definition path_join (a b : string) : string :=
  if starts_with_slash b then b
  else match last_char a with
       | None => b
       | Some c => if Ascii.eqb c slash then a +:+ b else a +:+ "/" +:+ b
       end.

(** [s.rfind(c)]: the index of the last occurrence, if there is one. *)
Fixpoint rfind (c : ascii) (s : string) : option nat :=
  match s with
  | EmptyString => None
  | String c' s' =>
      match rfind c s' with
      | Some i => Some (S i)
      | None => if Ascii.eqb c' c then Some 0 else None
      end
  end.

Definition skipn_string (n : nat) (s : string) : string :=
  substring n (String.length s - n) s.

(** [os.path.basename(p)]. *)
Definition basename (p : string) : string :=
  match rfind slash p with
  | Some i => skipn_string (S i) p
  | None => p
  end.

Fixpoint all_dots (s : string) : bool :=
  match s with
  | EmptyString => true
  | String c s' => Ascii.eqb c dot && all_dots s'
  end.

(** [os.path.splitext(p)[0]]: the split is at the last dot, unless that dot
    is not after the last separator or only dots precede it in the file
    name. *)
Definition splitext_root (p : string) : string :=
  let first := match rfind slash p with Some i => S i | None => 0 end in
  match rfind dot p with
  | Some d =>
      if (first <=? d) && negb (all_dots (substring first (d - first) p))
      then substring 0 d p
      else p
  | None => p
  end.

(** [needle in hay]. *)
Fixpoint contains (needle hay : string) : bool :=
  String.prefix needle hay ||
  match hay with
  | EmptyString => false
  | String _ hay' => contains needle hay'
  end.

Definition lower_char (c : ascii) : ascii :=
  let n := nat_of_ascii c in
  if (65 <=? n) && (n <=? 90) then ascii_of_nat (n + 32) else c.

Fixpoint lower (s : string) : string :=
  match s with
  | EmptyString => EmptyString
  | String c s' => String (lower_char c) (lower s')
  end.

Definition endswith (s suffix : string) : bool :=
  let n := String.length s in
  let k := String.length suffix in
  (k <=? n) && String.eqb (substring (n - k) k s) suffix.

(** ** External collaborators *)

(** The tempo-detection analyzer: both calls may raise. *)
Record Analyzer := {
  analyze_file : string -> outcome (Q * list Z);
  get_full_track_beat_positions_ms : string -> outcome (list Z);
}.

(** The persistent store: [get_bpm_data(path)] may raise; what it returns
    is falsy ([None]), or a tuple whose first component is [None] or a
    BPM. *)
Record CacheManager := {
  get_bpm_data : string -> outcome (option (option Q * list Z));
}.

(** The file system, as seen at one call. *)
Record FileSystem := {
  isdir : string -> bool;
  listdir : string -> outcome (list string);
}.

(** ** The background worker, [BPMAnalyzerThread] *)

(** The two signals of the worker. *)
Inductive signal :=
| BpmAnalyzed (file : string) (bpm : Q)
| AnalysisCompleted.

(** The lines the worker prints. *)
Inductive log_line :=
| PreCached (file : string) (beats : nat)
| BeatsFailed (file : string) (e : exn)
| AnalysisError (file : string) (e : exn).

(** What one step of the worker does to the outside, in order. *)
Inductive effect :=
| Emit (s : signal)
| Print (l : log_line).

Definition signals (effs : list effect) : list signal :=
  omap (fun e => match e with Emit s => Some s | Print _ => None end) effs.

(** How many times [analysis_completed] occurs among signals. *)
Definition completions (sigs : list signal) : nat :=
  length
    (List.filter
       (fun s => match s with AnalysisCompleted => true | _ => false end) sigs).

Module BPMAnalyzerThread.

(** Where the thread is in [run]: inside the [for] loop; past the loop
    (the completion signal is out, [run] has not returned yet and
    [isRunning()] still holds); finished. *)
Inductive phase := Looping | Returning | Finished.

#[global] Instance phase_eq_dec : EqDecision phase.
Proof. solve_decision. Defined.

(** The attributes set by [__init__], the index held by the list iterator
    of the [for] loop, and the phase. *)
Record t := mk {
  audio_analyzer : option Analyzer;
  directory : string;
  file_list : list string;
  running : bool;
  cursor : nat;
  at_phase : phase;
}.

Definition init (audio_analyzer : option Analyzer) (directory : string)
    (file_list : list string) : t :=
  mk audio_analyzer directory file_list true 0 Looping.

Definition isRunning (th : t) : bool :=
  bool_decide (at_phase th <> Finished).

Definition stop (th : t) : t :=
  mk (audio_analyzer th) (directory th) (file_list th) false
     (cursor th) (at_phase th).

Definition add_files (th : t) (new_files : list string) : t :=
  mk (audio_analyzer th) (directory th) (file_list th ++ new_files)
     (running th) (cursor th) (at_phase th).

Definition advance (th : t) : t :=
  mk (audio_analyzer th) (directory th) (file_list th) (running th)
     (S (cursor th)) (at_phase th).

Definition set_phase (p : phase) (th : t) : t :=
  mk (audio_analyzer th) (directory th) (file_list th) (running th)
     (cursor th) p.

(** The beat pre-warm of lines 50-55, with its own handler. *)
Definition prewarm (a : Analyzer) (file file_path : string) : list effect :=
  match get_full_track_beat_positions_ms a file_path with
  | Ok full_track_beats => [Print (PreCached file (length full_track_beats))]
  | Raise beat_error => [Print (BeatsFailed file beat_error)]
  end.

(** The body of the outer [try] (lines 43-58). *)
Definition analyze (th : t) (file : string) : outcome (list effect) :=
  match audio_analyzer th with
  | None => Ok []
  | Some a =>
      let file_path := path_join (directory th) file in
      '(bpm, _) ← analyze_file a file_path;
      if bpm_gt0 bpm
      then Ok (prewarm a file file_path ++ [Emit (BpmAnalyzed file bpm)])
      else Ok []
  end.

(** The outer [try]/[except Exception] (lines 42-61). *)
Definition process (th : t) (file : string) : list effect :=
  match analyze th file with
  | Ok effs => effs
  | Raise e => [Print (AnalysisError file e)]
  end.

(** One step of [run]: the iterator yields the next file or ends the
    loop, the flag is tested, the file is processed. Leaving the loop,
    by exhaustion or by [break], falls through to line 64. *)
Definition run_step (th : t) : t * list effect :=
  match at_phase th with
  | Looping =>
      match file_list th !! cursor th with
      | None => (set_phase Returning th, [Emit AnalysisCompleted])
      | Some file =>
          if negb (running th)
          then (set_phase Returning (advance th), [Emit AnalysisCompleted])
          else (advance th, process th file)
      end
  | Returning => (set_phase Finished th, [])
  | Finished => (th, [])
  end.

(** What the scheduler and the control thread can do to a worker: let it
    take a step, call [stop()], call [add_files(new_files)]. The worker
    reads the flag and its list between two files only, so a call made
    while a file is being processed is one placed after the step of that
    file. *)
Inductive action :=
| Tick
| Stop
| AddFiles (new_files : list string).

Definition act (a : action) (th : t) : t * list effect :=
  match a with
  | Tick => run_step th
  | Stop => (stop th, [])
  | AddFiles new_files => (add_files th new_files, [])
  end.

(** The files an action appends to the queue. *)
Definition appended (a : action) : list string :=
  match a with
  | AddFiles new_files => new_files
  | _ => []
  end.

(** A schedule, with the effects of the worker in order. *)
Fixpoint exec (acts : list action) (th : t) : t * list effect :=
  match acts with
  | [] => (th, [])
  | a :: acts' =>
      let '(th1, effs1) := act a th in
      let '(th2, effs2) := exec acts' th1 in
      (th2, effs1 ++ effs2)
  end.

(** [QThread.wait()]: the caller blocks until [run] has returned. *)
Fixpoint join (fuel : nat) (th : t) : t * list effect :=
  match fuel with
  | 0 => (th, [])
  | S fuel' =>
      if isRunning th
      then let '(th1, effs1) := run_step th in
           let '(th2, effs2) := join fuel' th1 in
           (th2, effs1 ++ effs2)
      else (th, [])
  end.

Definition wait (th : t) : t * list effect :=
  join (2 + (length (file_list th) - cursor th)) th.

(** [stop()] followed by [wait()], called from the control thread (lines
    183-184) while the worker goes on in its own: the worker begins [n]
    more iterations before it next reads the flag -- a file in progress
    when [stop()] is called is one of them, the test of line 39 being
    behind it; none if the call falls between two iterations --, then it
    runs on, the flag cleared, until [run] has returned. *)
Definition stop_and_wait (n : nat) (th : t) : t * list effect :=
  let '(th1, effs1) := exec (repeat Tick n) th in
  let '(th2, effs2) := wait (stop th1) in
  (th2, effs1 ++ effs2).

(** Two states of a worker on the same analyzer and directory. *)
Definition same_job (th th' : t) : Prop :=
  audio_analyzer th' = audio_analyzer th /\ directory th' = directory th.

(** [run] (lines 33-64) without interference: the steps of the worker
    left alone until it has left its loop. *)
Definition run (th : t) : t * list effect :=
  exec (repeat Tick (S (length (file_list th) - cursor th))) th.

(** The notification, if any, that processing [file] gives. *)
Definition notification (th : t) (file : string) : list signal :=
  signals (process th file).

(** The notification a file is due, in the words of the specification:
    one [bpm_analyzed(file, bpm)] when there is an analyzer and the
    analysis of the file under the directory succeeds with a BPM greater
    than 0, none otherwise. Written from the claim, not from [process],
    with which it is compared. *)
Definition notified (a : option Analyzer) (dir file : string) : list signal :=
  match a with
  | Some a =>
      match analyze_file a (path_join dir file) with
      | Ok (bpm, _) => if bpm_gt0 bpm then [BpmAnalyzed file bpm] else []
      | Raise _ => []
      end
  | None => []
  end.

(** The queue as it stands when the loop is left, or at the end of the
    schedule if it is not: what has been submitted in time. *)
Fixpoint submitted (acts : list action) (th : t) : list string :=
  match acts with
  | [] => file_list th
  | a :: acts' =>
      match at_phase th with
      | Looping => submitted acts' (fst (act a th))
      | _ => file_list th
      end
  end.

End BPMAnalyzerThread.

(** ** The dialog, [FileBrowserDialog] *)

(** The texts of the status label, one constructor per message. *)
Inductive status :=
| SelectDirectoryFirst
| InvalidDirectory
| NoValidDirectory
| ErrorAccessing (e : exn)
| NoCompatibleTracks
| TracksReadyAnalyzing (cached_count to_analyze : nat)
| AllTracksReady (cached_count : nat)
| AnalyzingTracks (to_analyze : nat)
| AnalyzingProgress (analyzed_count remaining : nat)
| AllTracksAnalyzed (total_count : nat)
| AnalysisComplete.

Module FileBrowserDialog.

(** The attributes of the dialog. [track_items] maps a file name to the
    text of its label; [list_widget] holds, for each row, the path its
    load buttons are wired to; [analyzer_thread] refers to a worker of
    the system by its index; [bpm_analyzed] and [message_boxes] record
    what the dialog has emitted and shown. *)
Record t := mk {
  directory : option string;
  audio_analyzer : option Analyzer;
  cache_manager : option CacheManager;
  track_items : gmap string string;
  bpm_cache : gmap string Q;
  status_label : status;
  analyzer_thread : option nat;
  list_widget : list string;
  window_title : string;
  bpm_analyzed : list (string * Q);
  message_boxes : list string;
}.

Definition with_directory (v : option string) (d : t) : t :=
  mk v (audio_analyzer d) (cache_manager d) (track_items d) (bpm_cache d)
     (status_label d) (analyzer_thread d) (list_widget d) (window_title d)
     (bpm_analyzed d) (message_boxes d).
Definition with_track_items (v : gmap string string) (d : t) : t :=
  mk (directory d) (audio_analyzer d) (cache_manager d) v (bpm_cache d)
     (status_label d) (analyzer_thread d) (list_widget d) (window_title d)
     (bpm_analyzed d) (message_boxes d).
Definition with_bpm_cache (v : gmap string Q) (d : t) : t :=
  mk (directory d) (audio_analyzer d) (cache_manager d) (track_items d) v
     (status_label d) (analyzer_thread d) (list_widget d) (window_title d)
     (bpm_analyzed d) (message_boxes d).
Definition setText (v : status) (d : t) : t :=
  mk (directory d) (audio_analyzer d) (cache_manager d) (track_items d)
     (bpm_cache d) v (analyzer_thread d) (list_widget d) (window_title d)
     (bpm_analyzed d) (message_boxes d).
Definition with_analyzer_thread (v : option nat) (d : t) : t :=
  mk (directory d) (audio_analyzer d) (cache_manager d) (track_items d)
     (bpm_cache d) (status_label d) v (list_widget d) (window_title d)
     (bpm_analyzed d) (message_boxes d).
Definition with_list_widget (v : list string) (d : t) : t :=
  mk (directory d) (audio_analyzer d) (cache_manager d) (track_items d)
     (bpm_cache d) (status_label d) (analyzer_thread d) v (window_title d)
     (bpm_analyzed d) (message_boxes d).
Definition setWindowTitle (v : string) (d : t) : t :=
  mk (directory d) (audio_analyzer d) (cache_manager d) (track_items d)
     (bpm_cache d) (status_label d) (analyzer_thread d) (list_widget d) v
     (bpm_analyzed d) (message_boxes d).
Definition emit_bpm_analyzed (file_path : string) (bpm : Q) (d : t) : t :=
  mk (directory d) (audio_analyzer d) (cache_manager d) (track_items d)
     (bpm_cache d) (status_label d) (analyzer_thread d) (list_widget d)
     (window_title d) (bpm_analyzed d ++ [(file_path, bpm)])
     (message_boxes d).
Definition information (title : string) (d : t) : t :=
  mk (directory d) (audio_analyzer d) (cache_manager d) (track_items d)
     (bpm_cache d) (status_label d) (analyzer_thread d) (list_widget d)
     (window_title d) (bpm_analyzed d) (message_boxes d ++ [title]).

(** Two states of the dialog with the same directory, collaborators and
    worker. *)
Definition same_wiring (d d' : t) : Prop :=
  directory d' = directory d /\ audio_analyzer d' = audio_analyzer d /\
  cache_manager d' = cache_manager d /\
  analyzer_thread d' = analyzer_thread d.

(** Every BPM held by the in-memory cache is positive. *)
Definition cache_positive (d : t) : Prop :=
  forall path bpm, bpm_cache d !! path = Some bpm -> (0 < bpm)%Q.

(** Every BPM the persistent store answers is positive. *)
Definition store_positive (d : t) : Prop :=
  forall cm path bpm beats,
    cache_manager d = Some cm ->
    get_bpm_data cm path = Ok (Some (Some bpm, beats)) -> (0 < bpm)%Q.

Definition bpm_suffix (bpm : Q) : string :=
  " (" +:+ str_of_int (int_of_bpm bpm) +:+ " BPM)".

(** [add_track_to_list] (lines 270-343): a new row and its label. *)
Definition add_track_to_list (d : t) (file : string) (bpm : Q) : outcome t :=
  let base_name := splitext_root (basename file) in
  let display_name :=
    if bpm_gt0 bpm then base_name +:+ bpm_suffix bpm else base_name in
  match directory d with
  | None => Raise (TypeError "expected str, bytes or os.PathLike object")
  | Some dir =>
      let full_path := path_join dir file in
      Ok (with_track_items (<[file := display_name]> (track_items d))
            (with_list_widget (list_widget d ++ [full_path]) d))
  end.

(** [update_track_bpm] (lines 345-377). *)
Definition update_track_bpm (d : t) (file : string) (bpm : Q) : outcome t :=
  if bool_decide (is_Some (track_items d !! file)) && bpm_gt0 bpm then
    match directory d with
    | None => Raise (TypeError "expected str, bytes or os.PathLike object")
    | Some dir =>
        let full_path := path_join dir file in
        let d := with_bpm_cache (<[full_path := bpm]> (bpm_cache d)) d in
        let display_name := splitext_root file +:+ bpm_suffix bpm in
        let d :=
          with_track_items (<[file := display_name]> (track_items d)) d in
        let analyzed_count :=
          size (filter (fun kv => contains "BPM" (snd kv) = true)
                       (track_items d)) in
        let total_count := size (track_items d) in
        let remaining := total_count - analyzed_count in
        let d :=
          if 0 <? remaining
          then setText (AnalyzingProgress analyzed_count remaining) d
          else setText (AllTracksAnalyzed total_count) d in
        Ok (emit_bpm_analyzed full_path bpm d)
    end
  else Ok d.

(** [analysis_completed] (lines 379-384). *)
Definition analysis_completed (d : t) : t := setText AnalysisComplete d.

(** [get_cached_bpm] (lines 386-395). *)
Definition get_cached_bpm (d : t) (file_path : string) : Q :=
  default 0%Q (bpm_cache d !! file_path).

(** The locals of the scan loop of [populate_file_list]. *)
Record scan := mk_scan {
  files_to_analyze : list string;
  cached_from_persistent : nat;
  cached_from_memory : nat;
}.

(** The persistent check of lines 223-229: the BPM found, if any. The
    call of the store is not in a [try]: what it raises goes up. *)
Definition check_persistent (d : t) (full_path : string) : outcome (option Q) :=
  match cache_manager d with
  | None => Ok None
  | Some cm =>
      cached_data ← get_bpm_data cm full_path;
      match cached_data with
      | Some (Some cached_bpm, _) => Ok (Some cached_bpm)
      | _ => Ok None
      end
  end.

(** One iteration of the scan loop (lines 218-242). *)
Definition scan_file (dir : string) (st : t * scan) (file : string)
    : outcome (t * scan) :=
  let '(d, loc) := st in
  let full_path := path_join dir file in
  hit ← check_persistent d full_path;
  let '(d, cached_bpm, loc) :=
    match hit with
    | Some cached_bpm =>
        (with_bpm_cache (<[full_path := cached_bpm]> (bpm_cache d)) d,
         cached_bpm,
         mk_scan (files_to_analyze loc) (S (cached_from_persistent loc))
                 (cached_from_memory loc))
    | None => (d, 0%Q, loc)
    end in
  let '(cached_bpm, loc) :=
    if bpm_eq0 cached_bpm then
      let cached_bpm := default 0%Q (bpm_cache d !! full_path) in
      (cached_bpm,
       if bpm_gt0 cached_bpm
       then mk_scan (files_to_analyze loc) (cached_from_persistent loc)
                    (S (cached_from_memory loc))
       else loc)
    else (cached_bpm, loc) in
  if bpm_gt0 cached_bpm then
    d ← add_track_to_list d file cached_bpm; Ok (d, loc)
  else
    let loc := mk_scan (files_to_analyze loc ++ [file])
                       (cached_from_persistent loc)
                       (cached_from_memory loc) in
    d ← add_track_to_list d file 0%Q; Ok (d, loc).

(** The store answers, without raising, for each of these files. *)
Definition store_answers (d : t) (dir : string) (files : list string) : Prop :=
  forall file, In file files ->
    exists hit, check_persistent d (path_join dir file) = Ok hit.

(** Whether the scan finds no BPM greater than 0 for a file: none from
    the persistent store or, when the store has none, from the in-memory
    cache. *)
Definition needs_analysis (d : t) (dir : string) (file : string) : bool :=
  match check_persistent d (path_join dir file) with
  | Ok (Some bpm) => negb (bpm_gt0 bpm)
  | Ok None => negb (bpm_gt0 (default 0%Q (bpm_cache d !! path_join dir file)))
  | Raise _ => false
  end.

Fixpoint scan_files (dir : string) (st : t * scan) (audio_files : list string)
    : outcome (t * scan) :=
  match audio_files with
  | [] => Ok st
  | file :: rest => st ← scan_file dir st file; scan_files dir st rest
  end.

Definition is_audio (file : string) : bool :=
  let name := lower file in
  endswith name ".mp3" || endswith name ".wav" || endswith name ".flac".

(** The status of lines 244-253. *)
Definition scan_status (loc : scan) : status :=
  let cached_count := cached_from_persistent loc + cached_from_memory loc in
  if 0 <? cached_count then
    match files_to_analyze loc with
    | _ :: _ => TracksReadyAnalyzing cached_count (length (files_to_analyze loc))
    | [] => AllTracksReady cached_count
    end
  else AnalyzingTracks (length (files_to_analyze loc)).

End FileBrowserDialog.
(** ** The system: the dialog, its workers and the control thread's queue *)

(** [threads] holds every worker ever started, [event_queue] the signals
    emitted by workers and not yet delivered to the dialog's slots, in
    order; [stdout] what the workers printed. *)
Record system := mk_system {
  dialog : FileBrowserDialog.t;
  threads : list BPMAnalyzerThread.t;
  event_queue : list signal;
  stdout : list log_line;
}.

Definition prints (effs : list effect) : list log_line :=
  omap (fun e => match e with Print l => Some l | Emit _ => None end) effs.

Definition with_dialog (d : FileBrowserDialog.t) (s : system) : system :=
  mk_system d (threads s) (event_queue s) (stdout s).

(** The effects of worker [i] reach the queue and the console. *)
Definition commit (i : nat) (r : BPMAnalyzerThread.t * list effect)
    (s : system) : system :=
  mk_system (dialog s) (<[i := fst r]> (threads s))
            (event_queue s ++ signals (snd r)) (stdout s ++ prints (snd r)).

Definition dir_ok (fs : FileSystem) (directory : option string) : bool :=
  match directory with
  | Some dir => truthy dir && isdir fs dir
  | None => false
  end.

(** [self.analyzer_thread and self.analyzer_thread.isRunning()]. *)
Definition running_thread (s : system) : option (nat * BPMAnalyzerThread.t) :=
  match FileBrowserDialog.analyzer_thread (dialog s) with
  | Some i =>
      match threads s !! i with
      | Some th => if BPMAnalyzerThread.isRunning th then Some (i, th) else None
      | None => None
      end
  | None => None
  end.

(** Lines 255-268: start a worker, extend the running one, or finish. *)
Definition dispatch (s : system) (dir : string) (files_to_analyze : list string)
    : system :=
  let d := dialog s in
  match files_to_analyze, FileBrowserDialog.audio_analyzer d with
  | _ :: _, Some a =>
      match running_thread s with
      | None =>
          let th := BPMAnalyzerThread.init (Some a) dir files_to_analyze in
          mk_system
            (FileBrowserDialog.with_analyzer_thread (Some (length (threads s))) d)
            (threads s ++ [th]) (event_queue s) (stdout s)
      | Some (i, th) =>
          mk_system d
            (<[i := BPMAnalyzerThread.add_files th files_to_analyze]> (threads s))
            (event_queue s) (stdout s)
      end
  | _, _ => with_dialog (FileBrowserDialog.analysis_completed d) s
  end.

(** [populate_file_list] (lines 187-268). *)
Definition populate_file_list (fs : FileSystem) (s : system) : outcome system :=
  let d :=
    FileBrowserDialog.with_track_items ∅
      (FileBrowserDialog.with_list_widget [] (dialog s)) in
  match FileBrowserDialog.directory d with
  | Some dir =>
      if truthy dir && isdir fs dir then
        match listdir fs dir with
        | Raise (OSError msg) =>
            Ok (with_dialog
                  (FileBrowserDialog.setText (ErrorAccessing (OSError msg)) d) s)
        | Raise e => Raise e
        | Ok names =>
            match List.filter FileBrowserDialog.is_audio names with
            | [] =>
                Ok (with_dialog
                      (FileBrowserDialog.information "No Audio Files"
                         (FileBrowserDialog.setText NoCompatibleTracks d)) s)
            | audio_files =>
                '(d, loc) ← FileBrowserDialog.scan_files dir
                              (d, FileBrowserDialog.mk_scan [] 0 0) audio_files;
                let d :=
                  FileBrowserDialog.setText
                    (FileBrowserDialog.scan_status loc) d in
                Ok (dispatch (with_dialog d s) dir
                      (FileBrowserDialog.files_to_analyze loc))
            end
        end
      else Ok (with_dialog (FileBrowserDialog.setText NoValidDirectory d) s)
  | None => Ok (with_dialog (FileBrowserDialog.setText NoValidDirectory d) s)
  end.

Definition title_of (directory : option string) : string :=
  "Track List - " +:+ basename (default "" directory).

(** [__init__] (lines 90-117). *)
Definition init (fs : FileSystem) (directory : option string)
    (audio_analyzer : option Analyzer) (cache_manager : option CacheManager)
    : outcome system :=
  let d :=
    FileBrowserDialog.mk directory audio_analyzer cache_manager ∅ ∅
      SelectDirectoryFirst None [] "" [] [] in
  let s := mk_system d [] [] [] in
  if dir_ok fs directory
  then populate_file_list fs
         (with_dialog (FileBrowserDialog.setWindowTitle (title_of directory) d) s)
  else Ok (with_dialog (FileBrowserDialog.setWindowTitle "Track List" d) s).

(** [set_directory] (lines 158-173). *)
Definition set_directory (fs : FileSystem) (directory : option string)
    (s : system) : outcome system :=
  let d := FileBrowserDialog.with_directory directory (dialog s) in
  if dir_ok fs directory
  then populate_file_list fs
         (with_dialog (FileBrowserDialog.setWindowTitle (title_of directory) d) s)
  else
    Ok (with_dialog
          (FileBrowserDialog.with_directory None
             (FileBrowserDialog.setText InvalidDirectory
                (FileBrowserDialog.with_list_widget []
                   (FileBrowserDialog.setWindowTitle "Track List" d)))) s).

(** [closeEvent] (lines 175-185): [stop()], then [wait()], the worker
    having begun [n] iterations that the call does not cancel. *)
Definition closeEvent (n : nat) (s : system) : system :=
  match running_thread s with
  | Some (i, th) => commit i (BPMAnalyzerThread.stop_and_wait n th) s
  | None => s
  end.

(** A queued signal reaches the slot it is connected to (lines 260-261). *)
Definition deliver (s : system) : outcome system :=
  match event_queue s with
  | [] => Ok s
  | BpmAnalyzed file bpm :: rest =>
      d ← FileBrowserDialog.update_track_bpm (dialog s) file bpm;
      Ok (mk_system d (threads s) rest (stdout s))
  | AnalysisCompleted :: rest =>
      Ok (mk_system (FileBrowserDialog.analysis_completed (dialog s))
            (threads s) rest (stdout s))
  end.

(** What can happen to the system: calls made on the control thread, the
    delivery of a queued signal, and a step of worker [i]. *)
Inductive event :=
| SetDirectory (fs : FileSystem) (directory : option string)
| PopulateFileList (fs : FileSystem)
| CloseEvent (n : nat)
| UpdateTrackBpm (file : string) (bpm : Q)
| Deliver
| WorkerStep (i : nat).

Definition step (ev : event) (s : system) : outcome system :=
  match ev with
  | SetDirectory fs directory => set_directory fs directory s
  | PopulateFileList fs => populate_file_list fs s
  | CloseEvent n => Ok (closeEvent n s)
  | UpdateTrackBpm file bpm =>
      d ← FileBrowserDialog.update_track_bpm (dialog s) file bpm;
      Ok (with_dialog d s)
  | Deliver => deliver s
  | WorkerStep i =>
      match threads s !! i with
      | Some th => Ok (commit i (BPMAnalyzerThread.run_step th) s)
      | None => Ok s
      end
  end.

Fixpoint run_events (evs : list event) (s : system) : outcome system :=
  match evs with
  | [] => Ok s
  | ev :: evs' => s ← step ev s; run_events evs' s
  end.

(** Workers that have not finished. *)
Definition active (s : system) : list nat :=
  List.filter
    (fun i => match threads s !! i with
              | Some th => BPMAnalyzerThread.isRunning th
              | None => false
              end)
    (seq 0 (length (threads s))).

(** Every worker that has not finished is the one the dialog refers to. *)
Definition owned (s : system) : Prop :=
  forall i th,
    threads s !! i = Some th -> BPMAnalyzerThread.isRunning th = true ->
    FileBrowserDialog.analyzer_thread (dialog s) = Some i.

(** What a call on the control thread may do to the workers: nothing; or
    extend the queue of the running one; or, when none is running, start
    one and refer to it. *)
Definition workers_kept (s s' : system) : Prop :=
  (threads s' = threads s /\
   FileBrowserDialog.analyzer_thread (dialog s')
   = FileBrowserDialog.analyzer_thread (dialog s)) \/
  (exists i th new_files,
     running_thread s = Some (i, th) /\
     threads s' = <[i := BPMAnalyzerThread.add_files th new_files]> (threads s) /\
     FileBrowserDialog.analyzer_thread (dialog s')
     = FileBrowserDialog.analyzer_thread (dialog s)) \/
  (exists th,
     running_thread s = None /\
     BPMAnalyzerThread.at_phase th = BPMAnalyzerThread.Looping /\
     threads s' = threads s ++ [th] /\
     FileBrowserDialog.analyzer_thread (dialog s') = Some (length (threads s))).

(** The claim that a change of directory tears the running worker down:
    every worker running before is stopped and finished after. *)
Definition torn_down (s s' : system) : bool :=
  forallb
    (fun i =>
       match threads s !! i, threads s' !! i with
       | Some th, Some th' =>
           negb (BPMAnalyzerThread.isRunning th) ||
           (negb (BPMAnalyzerThread.running th') &&
            negb (BPMAnalyzerThread.isRunning th'))
       | Some th, None => negb (BPMAnalyzerThread.isRunning th)
       | None, _ => true
       end)
    (seq 0 (length (threads s))).

(** ** Concrete collaborators, used to run the definitions *)

Module Demo.

(** [a.mp3] and [c.wav] analyse to 120 and 95.3, [broken.mp3] to the
    sentinel, [x.mp3] makes the analyzer raise; the beat positions of
    [c.wav] cannot be computed. *)
Definition analyzer : Analyzer := {|
  analyze_file p :=
    if String.eqb p "/m/broken.mp3" then Ok (0%Q, [])
    else if String.eqb p "/m/x.mp3" then Raise (ValueError "decode")
    else if String.eqb p "/m/c.wav" then Ok ((953 # 10)%Q, [])
    else Ok (120%Q, [0%Z; 500%Z]);
  get_full_track_beat_positions_ms p :=
    if String.eqb p "/m/c.wav" then Raise (RuntimeError "beats")
    else Ok [0%Z; 500%Z; 1000%Z];
|}.

Definition worker : BPMAnalyzerThread.t :=
  BPMAnalyzerThread.init (Some analyzer) "/m"
    ["a.mp3"; "broken.mp3"; "x.mp3"; "c.wav"].

(** The same worker after [n] steps. *)
Definition worker_after (n : nat) : BPMAnalyzerThread.t :=
  fst (BPMAnalyzerThread.exec (repeat BPMAnalyzerThread.Tick n) worker).

(** [/m] holds three tracks and a text file, [/n] one track, [/locked]
    cannot be listed. *)
Definition fs : FileSystem := {|
  isdir p := String.eqb p "/m" || String.eqb p "/n" || String.eqb p "/locked";
  listdir p :=
    if String.eqb p "/m" then Ok ["a.mp3"; "notes.txt"; "broken.mp3"; "C.WAV"]
    else if String.eqb p "/n" then Ok ["x.mp3"]
    else if String.eqb p "/locked" then Raise (OSError "Permission denied")
    else Raise (OSError "No such file or directory");
|}.

(** A store that knows [a.mp3] at 128. *)
Definition store : CacheManager := {|
  get_bpm_data p :=
    if String.eqb p "/m/a.mp3" then Ok (Some (Some 128%Q, [0%Z]))
    else Ok None;
|}.

(** A store that holds a BPM of 0 for [a.mp3]. *)
Definition zero_store : CacheManager := {|
  get_bpm_data p :=
    if String.eqb p "/m/a.mp3" then Ok (Some (Some 0%Q, [])) else Ok None;
|}.

(** A dialog on [/m] with no track listed. *)
Definition empty_dialog : FileBrowserDialog.t :=
  FileBrowserDialog.mk (Some "/m") (Some analyzer) None ∅ ∅
    SelectDirectoryFirst None [] "Track List - m" [] [].

(** A dialog on [/m] listing [a.mp3], not analysed yet. *)
Definition listing_dialog : FileBrowserDialog.t :=
  FileBrowserDialog.mk (Some "/m") (Some analyzer) None
    {["a.mp3" := "a"]} ∅ (AnalyzingTracks 1) (Some 0) ["/m/a.mp3"]
    "Track List - m" [] [].

(** The dialog opened on [/m] without a store: its three tracks are
    queued on a worker, which is running. *)
Definition started : system :=
  match init fs (Some "/m") (Some analyzer) None with
  | Ok s => s
  | Raise _ => mk_system empty_dialog [] [] []
  end.

(** The same, once the dialog's directory is [/locked]. *)
Definition locked : system :=
  with_dialog
    (FileBrowserDialog.with_directory (Some "/locked") (dialog started))
    started.

(** A dialog on [/m] that has the store and has not listed anything
    yet, and the system it is alone in. *)
Definition store_dialog : FileBrowserDialog.t :=
  FileBrowserDialog.mk (Some "/m") (Some analyzer) (Some store) ∅ ∅
    SelectDirectoryFirst None [] "Track List - m" [] [].

Definition store_system : system := mk_system store_dialog [] [] [].

(** The dialog opened on [/m] with the store, and the state reached when
    the worker has analysed its two files and the results are delivered. *)
Definition opened : system :=
  match init fs (Some "/m") (Some analyzer) (Some store) with
  | Ok s => s
  | Raise _ => store_system
  end.

Definition analysed : system :=
  match run_events
          [WorkerStep 0; WorkerStep 0; Deliver; WorkerStep 0; Deliver] opened
  with
  | Ok s => s
  | Raise _ => store_system
  end.



(** A file system whose listing of [/odd] fails with something else than
    [OSError]. *)
Definition odd_fs : FileSystem := {|
  isdir p := String.eqb p "/odd";
  listdir p := Raise (ValueError "listing");
|}.

End Demo.

(** * Properties *)

Example path_join_ex : path_join "/music" "a.mp3" = "/music/a.mp3".
Proof. reflexivity. Qed.
Example splitext_ex : splitext_root "my.song.mp3" = "my.song".
Proof. reflexivity. Qed.
Example splitext_hidden : splitext_root ".bashrc" = ".bashrc".
Proof. reflexivity. Qed.
Example basename_ex : basename "/music/sets" = "sets".
Proof. reflexivity. Qed.
Example int_ex : str_of_int (int_of_bpm (1279 # 10)) = "127".
Proof. reflexivity. Qed.
Example int_neg_ex : str_of_int (int_of_bpm (- 5 # 10)) = "0".
Proof. reflexivity. Qed.
Example endswith_ex : endswith (lower "Song.MP3") ".mp3" = true.
Proof. reflexivity. Qed.
Example contains_ex : contains "BPM" "a (120 BPM)" = true.
Proof. reflexivity. Qed.

(** ** Basic facts *)

Lemma bpm_gt0_spec (bpm : Q) : bpm_gt0 bpm = true <-> (0 < bpm)%Q.
Proof.
  unfold bpm_gt0, Qlt. simpl. rewrite Z.ltb_lt. lia.
Qed.

Lemma bpm_gt0_false (bpm : Q) : bpm_gt0 bpm = false <-> (bpm <= 0)%Q.
Proof.
  unfold bpm_gt0, Qle. simpl. rewrite Z.ltb_ge. lia.
Qed.

Lemma signals_app (xs ys : list effect) :
  signals (xs ++ ys) = signals xs ++ signals ys.
Proof. unfold signals. apply omap_app. Qed.

Lemma prints_app (xs ys : list effect) :
  prints (xs ++ ys) = prints xs ++ prints ys.
Proof. unfold prints. apply omap_app. Qed.

(** ** The worker *)

Section Worker.
Import BPMAnalyzerThread.

Implicit Types (th : t) (acts : list action) (file : string).

(** No action changes the analyzer or the directory of a worker. *)
Lemma act_same_job a th : same_job th (fst (act a th)).
Proof.
  destruct a; simpl; try (split; reflexivity).
  unfold run_step.
  destruct (at_phase th); try (split; reflexivity).
  destruct (file_list th !! cursor th); try (split; reflexivity).
  destruct (negb (running th)); split; reflexivity.
Qed.

Lemma process_same_job th th' file :
  same_job th th' -> process th' file = process th file.
Proof.
  intros [Ha Hd]. unfold process, analyze. rewrite Ha, Hd. reflexivity.
Qed.

Lemma notification_same_job th th' :
  same_job th th' -> forall files,
  flat_map (notification th') files = flat_map (notification th) files.
Proof.
  intros Hj files. induction files as [|f files IH]; simpl; [reflexivity|].
  unfold notification at 1 3. rewrite (process_same_job _ _ _ Hj).
  rewrite IH. reflexivity.
Qed.

(** Once the loop is left nothing more is emitted or printed. *)
Lemma exec_after_loop acts : forall th,
  at_phase th <> Looping ->
  snd (exec acts th) = [] /\ at_phase (fst (exec acts th)) <> Looping.
Proof.
  induction acts as [|a acts IH]; intros th Hph; simpl; [auto|].
  assert (Hact : snd (act a th) = [] /\ at_phase (fst (act a th)) <> Looping).
  { destruct a; simpl; auto.
    unfold run_step. destruct (at_phase th) eqn:E; simpl; split; congruence. }
  destruct (act a th) as [th1 effs1]. simpl in Hact. destruct Hact as [-> Hph1].
  specialize (IH th1 Hph1).
  destruct (exec acts th1) as [th2 effs2]. simpl in *.
  destruct IH as [-> ?]. auto.
Qed.

(** The queue only grows, at its tail. *)
Lemma act_file_list a th :
  exists more, file_list (fst (act a th)) = file_list th ++ more.
Proof.
  destruct a; simpl.
  - exists []. rewrite app_nil_r. unfold run_step.
    destruct (at_phase th); try reflexivity.
    destruct (file_list th !! cursor th); try reflexivity.
    destruct (negb (running th)); reflexivity.
  - exists []. rewrite app_nil_r. reflexivity.
  - exists new_files. reflexivity.
Qed.

Lemma submitted_extends acts : forall th,
  exists more, submitted acts th = file_list th ++ more.
Proof.
  induction acts as [|a acts IH]; intros th; simpl.
  - exists []. rewrite app_nil_r. reflexivity.
  - destruct (at_phase th).
    + destruct (IH (fst (act a th))) as [m1 ->].
      destruct (act_file_list a th) as [m0 ->].
      exists (m0 ++ m1). rewrite app_assoc. reflexivity.
    + exists []. rewrite app_nil_r. reflexivity.
    + exists []. rewrite app_nil_r. reflexivity.
Qed.

Lemma exec_file_list acts : forall th,
  exists more, file_list (fst (exec acts th)) = file_list th ++ more.
Proof.
  induction acts as [|a acts IH]; intros th; cbn [exec].
  - exists []. rewrite app_nil_r. reflexivity.
  - destruct (act_file_list a th) as [m0 H0].
    destruct (act a th) as [th1 effs1]. cbn [fst] in H0.
    destruct (IH th1) as [m1 H1].
    destruct (exec acts th1) as [th2 effs2]. cbn [fst] in *.
    exists (m0 ++ m1). rewrite H1, H0, app_assoc. reflexivity.
Qed.

Lemma submitted_after_loop acts th :
  at_phase th <> Looping -> submitted acts th = file_list th.
Proof.
  intros Hph. destruct acts; simpl; [reflexivity|].
  destruct (at_phase th); congruence.
Qed.

(** A step inside the loop, on a worker that was not asked to stop. *)
Lemma run_step_file th file :
  at_phase th = Looping -> running th = true ->
  file_list th !! cursor th = Some file ->
  run_step th = (advance th, process th file).
Proof.
  intros Hph Hrun Hfile. unfold run_step. rewrite Hph, Hfile, Hrun.
  reflexivity.
Qed.

Lemma run_step_exhausted th :
  at_phase th = Looping -> file_list th !! cursor th = None ->
  run_step th = (set_phase Returning th, [Emit AnalysisCompleted]).
Proof.
  intros Hph Hnone. unfold run_step. rewrite Hph, Hnone. reflexivity.
Qed.

(** The trace of any schedule without [Stop] that leaves the loop. *)
Lemma exec_uncancelled acts : forall th,
  at_phase th = Looping -> running th = true ->
  Forall (fun a => a <> Stop) acts ->
  at_phase (fst (exec acts th)) <> Looping ->
  signals (snd (exec acts th)) =
    flat_map (notification th) (drop (cursor th) (submitted acts th))
    ++ [AnalysisCompleted].
Proof.
  induction acts as [|a acts IH]; intros th Hph Hrun Hns Hend.
  - simpl in Hend. congruence.
  - inversion Hns as [|? ? Ha Hns']; subst.
    cbn [exec submitted]. rewrite Hph.
    cbn [exec] in Hend.
    destruct a as [| |new_files]; [| congruence |].
    + (* Tick *)
      cbn [act] in *.
      destruct (file_list th !! cursor th) as [file|] eqn:Hfile.
      * rewrite (run_step_file th file Hph Hrun Hfile) in *.
        cbn [fst].
        assert (Hj : same_job th (advance th)) by (split; reflexivity).
        specialize (IH (advance th) Hph Hrun Hns').
        destruct (exec acts (advance th)) as [th2 effs2] eqn:He.
        cbn [fst snd] in *. specialize (IH Hend).
        rewrite signals_app, IH.
        rewrite (notification_same_job _ _ Hj).
        destruct (submitted_extends acts (advance th)) as [more Hsub].
        rewrite Hsub. cbn [advance file_list cursor].
        assert (Hl : (file_list th ++ more) !! cursor th = Some file).
        { apply lookup_app_l_Some. exact Hfile. }
        rewrite (drop_S _ _ _ Hl). cbn [flat_map].
        rewrite <- app_assoc. reflexivity.
      * rewrite (run_step_exhausted th Hph Hfile) in *.
        cbn [fst].
        assert (Hph1 : at_phase (set_phase Returning th) <> Looping)
          by (simpl; congruence).
        destruct (exec_after_loop acts _ Hph1) as [Hnil _].
        destruct (exec acts (set_phase Returning th)) as [th2 effs2].
        cbn [fst snd] in *. subst effs2.
        rewrite (submitted_after_loop _ _ Hph1). cbn [set_phase file_list].
        rewrite drop_ge by (apply lookup_ge_None; exact Hfile).
        reflexivity.
    + (* AddFiles *)
      cbn [act fst] in *.
      assert (Hj : same_job th (add_files th new_files)) by (split; reflexivity).
      specialize (IH (add_files th new_files) Hph Hrun Hns').
      destruct (exec acts (add_files th new_files)) as [th2 effs2].
      cbn [fst snd] in *. specialize (IH Hend).
      cbn [app]. rewrite IH, (notification_same_job _ _ Hj). reflexivity.
Qed.

(** A notification is never the completion signal, and there is at most
    one per file, carrying a positive BPM. *)
Lemma notification_shape th file :
  notification th file = [] \/
  exists bpm, (0 < bpm)%Q /\ notification th file = [BpmAnalyzed file bpm].
Proof.
  unfold notification, process, analyze.
  destruct (audio_analyzer th) as [a|]; [|left; reflexivity].
  destruct (analyze_file a _) as [[bpm aux]|e]; [|left; reflexivity].
  simpl. destruct (bpm_gt0 bpm) eqn:Hpos; [|left; reflexivity].
  right. exists bpm. split; [apply bpm_gt0_spec; exact Hpos|].
  rewrite signals_app. unfold prewarm.
  destruct (get_full_track_beat_positions_ms a _); reflexivity.
Qed.

(** What [process] emits for a file is the notification the file is
    due: neither the pre-warm of the beats nor its failure changes it. *)
Lemma notification_notified th file :
  notification th file = notified (audio_analyzer th) (directory th) file.
Proof.
  unfold notification, notified, process, analyze.
  destruct (audio_analyzer th) as [a|]; [|reflexivity].
  destruct (analyze_file a _) as [[bpm aux]|e]; [|reflexivity].
  cbn [mbind outcome_bind]. destruct (bpm_gt0 bpm); [|reflexivity].
  rewrite signals_app. unfold prewarm.
  destruct (get_full_track_beat_positions_ms a _); reflexivity.
Qed.

Lemma completed_not_notified th files :
  ~ In AnalysisCompleted (flat_map (notification th) files).
Proof.
  rewrite in_flat_map. intros [file [_ Hin]].
  destruct (notification_shape th file) as [Hn | [bpm [_ Hn]]];
    rewrite Hn in Hin; simpl in Hin; [tauto|].
  destruct Hin as [Hin|[]]. discriminate.
Qed.

Lemma submitted_app pre : forall rest th,
  at_phase (fst (exec pre th)) = Looping ->
  submitted (pre ++ rest) th = submitted rest (fst (exec pre th)).
Proof.
  induction pre as [|a pre IH]; intros rest th Hph; [reflexivity|].
  destruct (decide (at_phase th = Looping)) as [Hth|Hth].
  - cbn [app submitted]. rewrite Hth. cbn [exec] in *.
    destruct (act a th) as [th1 effs1]. cbn [fst].
    destruct (exec pre th1) as [th2 effs2] eqn:He. cbn [fst] in Hph.
    rewrite IH; rewrite He; [reflexivity | exact Hph].
  - destruct (exec_after_loop (a :: pre) th Hth) as [_ Hend]. congruence.
Qed.

Lemma submitted_ticks n : forall th,
  submitted (repeat Tick n) th = file_list th.
Proof.
  induction n as [|n IH]; intros th; [reflexivity|].
  cbn [repeat submitted]. destruct (at_phase th); try reflexivity.
  rewrite IH. cbn [act]. unfold run_step.
  destruct (at_phase th); try reflexivity.
  destruct (file_list th !! cursor th); try reflexivity.
  destruct (negb (running th)); reflexivity.
Qed.

Lemma exec_app pre : forall rest th,
  exec (pre ++ rest) th
  = (fst (exec rest (fst (exec pre th))),
     snd (exec pre th) ++ snd (exec rest (fst (exec pre th)))).
Proof.
  induction pre as [|a pre IH]; intros rest th; cbn [app exec fst snd].
  - destruct (exec rest th). reflexivity.
  - destruct (act a th) as [th1 effs1]. rewrite IH.
    destruct (exec pre th1) as [th2 effs2]. cbn [fst snd].
    rewrite app_assoc. reflexivity.
Qed.

(** A schedule without [Stop] that takes a worker out of its loop splits
    at the step that leaves the loop: the queue then is the one at the
    start followed by what was appended before that step, in order. *)
Lemma submitted_split acts : forall th,
  at_phase th = Looping ->
  Forall (fun a => a <> Stop) acts ->
  at_phase (fst (exec acts th)) <> Looping ->
  exists pre post,
    acts = pre ++ Tick :: post /\
    at_phase (fst (exec pre th)) = Looping /\
    at_phase (fst (run_step (fst (exec pre th)))) <> Looping /\
    submitted acts th = file_list th ++ flat_map appended pre.
Proof.
  induction acts as [|a acts IH]; intros th Hph Hns Hend;
    [cbn in Hend; congruence|].
  inversion Hns as [|? ? Ha Hns']; subst.
  cbn [submitted]. rewrite Hph. cbn [exec] in Hend.
  destruct a as [| |new_files]; [| congruence |].
  - cbn [act] in *.
    assert (Hfl : file_list (fst (run_step th)) = file_list th).
    { unfold run_step. rewrite Hph.
      destruct (file_list th !! cursor th); [|reflexivity].
      destruct (negb (running th)); reflexivity. }
    destruct (decide (at_phase (fst (run_step th)) = Looping)) as [Hl|Hl].
    + destruct (run_step th) as [th1 effs1] eqn:Hstep. cbn [fst] in *.
      destruct (exec acts th1) as [th2 effs2] eqn:He. cbn [fst] in Hend.
      destruct (IH th1 Hl Hns') as (pre & post & -> & Hpre & Hleave & Hsub);
        [rewrite He; exact Hend|].
      exists (Tick :: pre), post. cbn [app exec act flat_map appended].
      rewrite Hstep. destruct (exec pre th1) as [th3 effs3]. cbn [fst] in *.
      rewrite Hsub, Hfl. auto.
    + exists [], acts. cbn [app exec fst flat_map].
      rewrite (submitted_after_loop _ _ Hl), Hfl, app_nil_r. auto.
  - cbn [act fst] in *.
    assert (Hl : at_phase (add_files th new_files) = Looping) by exact Hph.
    destruct (exec acts (add_files th new_files)) as [th2 effs2] eqn:He.
    cbn [fst] in Hend.
    destruct (IH (add_files th new_files) Hl Hns')
      as (pre & post & -> & Hpre & Hleave & Hsub); [rewrite He; exact Hend|].
    exists (AddFiles new_files :: pre), post.
    cbn [app exec act flat_map appended].
    destruct (exec pre (add_files th new_files)) as [th3 effs3].
    cbn [fst] in *. rewrite Hsub. cbn [add_files file_list].
    rewrite <- app_assoc. auto.
Qed.

(** Left alone, a worker leaves its loop: the loop terminates. *)
Lemma ticks_leave_loop n : forall th,
  length (file_list th) - cursor th < n ->
  at_phase (fst (exec (repeat Tick n) th)) <> Looping.
Proof.
  induction n as [|n IH]; intros th Hn; [lia|].
  destruct (decide (at_phase th = Looping)) as [Hth|Hth];
    [|apply exec_after_loop; exact Hth].
  cbn [repeat exec act]. unfold run_step. rewrite Hth.
  destruct (file_list th !! cursor th) as [file|] eqn:Hfile.
  - apply lookup_lt_Some in Hfile.
    destruct (negb (running th)).
    + destruct (exec_after_loop (repeat Tick n)
                  (set_phase Returning (advance th))) as [_ H];
        [simpl; congruence|].
      destruct (exec (repeat Tick n) _). exact H.
    + specialize (IH (advance th)).
      destruct (exec (repeat Tick n) (advance th)). apply IH.
      simpl. lia.
  - destruct (exec_after_loop (repeat Tick n) (set_phase Returning th))
      as [_ H]; [simpl; congruence|].
    destruct (exec (repeat Tick n) _). exact H.
Qed.

Lemma run_leaves_loop th : at_phase (fst (run th)) <> Looping.
Proof. apply ticks_leave_loop. lia. Qed.

Lemma repeat_tick_no_stop n : Forall (fun a => a <> Stop) (repeat Tick n).
Proof. induction n; simpl; constructor; [discriminate | assumption]. Qed.

(** The trace of a worker left alone. *)
Lemma run_signals th :
  at_phase th = Looping -> running th = true ->
  signals (snd (run th)) =
    flat_map (notification th) (drop (cursor th) (file_list th))
    ++ [AnalysisCompleted].
Proof.
  intros Hph Hrun. unfold run.
  rewrite (exec_uncancelled _ th Hph Hrun (repeat_tick_no_stop _)
             (run_leaves_loop th)).
  rewrite submitted_ticks. reflexivity.
Qed.

Lemma run_signals_from th file :
  at_phase th = Looping -> running th = true ->
  file_list th !! cursor th = Some file ->
  signals (snd (run th)) =
    notification th file
    ++ flat_map (notification th) (drop (S (cursor th)) (file_list th))
    ++ [AnalysisCompleted].
Proof.
  intros Hph Hrun Hfile. rewrite (run_signals th Hph Hrun).
  rewrite (drop_S _ _ _ Hfile). cbn [flat_map].
  rewrite <- app_assoc. reflexivity.
Qed.

(** After [stop()], the first step leaves the loop and emits the
    completion signal, and nothing else is ever emitted. *)
Lemma exec_stopped acts : forall th,
  at_phase th = Looping -> running th = false -> In Tick acts ->
  snd (exec acts th) = [Emit AnalysisCompleted] /\
  at_phase (fst (exec acts th)) <> Looping.
Proof.
  induction acts as [|a acts IH]; intros th Hph Hrun Hin; [destruct Hin|].
  cbn [exec]. destruct a as [| |new_files].
  - cbn [act]. unfold run_step. rewrite Hph, Hrun. cbn [negb].
    destruct (file_list th !! cursor th).
    + destruct (exec_after_loop acts (set_phase Returning (advance th)))
        as [Hnil Hend]; [simpl; congruence|].
      destruct (exec acts _). simpl in *. subst. auto.
    + destruct (exec_after_loop acts (set_phase Returning th))
        as [Hnil Hend]; [simpl; congruence|].
      destruct (exec acts _). simpl in *. subst. auto.
  - cbn [act]. destruct Hin as [Hin|Hin]; [discriminate|].
    specialize (IH (stop th) Hph eq_refl Hin).
    destruct (exec acts (stop th)). exact IH.
  - cbn [act]. destruct Hin as [Hin|Hin]; [discriminate|].
    specialize (IH (add_files th new_files) Hph Hrun Hin).
    destruct (exec acts (add_files th new_files)). exact IH.
Qed.

Lemma add_no_files th : add_files th [] = th.
Proof.
  destruct th. unfold add_files. cbn. rewrite app_nil_r. reflexivity.
Qed.

(** Steps never set the flag again, and never restart a finished worker. *)
Lemma run_step_running th : running (fst (run_step th)) = running th.
Proof.
  unfold run_step. destruct (at_phase th); try reflexivity.
  destruct (file_list th !! cursor th); try reflexivity.
  destruct (negb (running th)); reflexivity.
Qed.

Lemma run_step_finished th :
  at_phase th = Finished -> at_phase (fst (run_step th)) = Finished.
Proof. intros Hph. unfold run_step. rewrite Hph. exact Hph. Qed.

Lemma join_running fuel : forall th, running (fst (join fuel th)) = running th.
Proof.
  induction fuel as [|fuel IH]; intros th; cbn [join]; [reflexivity|].
  destruct (isRunning th); [|reflexivity].
  pose proof (run_step_running th) as Hr. specialize (IH (fst (run_step th))).
  destruct (run_step th) as [th1 effs1]. cbn [fst] in *.
  destruct (join fuel th1). cbn [fst] in *. congruence.
Qed.

(** The steps a worker left alone still needs before it has finished. *)
Lemma join_finished fuel : forall th,
  match at_phase th with
  | Looping => 2 + (length (file_list th) - cursor th)
  | Returning => 1
  | Finished => 0
  end <= fuel ->
  at_phase (fst (join fuel th)) = Finished.
Proof.
  induction fuel as [|fuel IH]; intros th Hfuel; cbn [join].
  - destruct (at_phase th) eqn:Hph; solve [lia | exact Hph].
  - unfold isRunning. destruct (at_phase th) eqn:Hph.
    + rewrite bool_decide_eq_true_2 by congruence.
      specialize (IH (fst (run_step th))). revert IH.
      unfold run_step. rewrite Hph.
      destruct (file_list th !! cursor th) as [file|] eqn:Hfile.
      * apply lookup_lt_Some in Hfile.
        destruct (negb (running th)); cbn [fst]; intros IH;
          (match goal with
           | |- context [join fuel ?x] => destruct (join fuel x)
           end; apply IH; simpl; try rewrite Hph; lia).
      * cbn [fst]. intros IH. destruct (join fuel _). apply IH. simpl. lia.
    + rewrite bool_decide_eq_true_2 by congruence.
      specialize (IH (fst (run_step th))). revert IH.
      unfold run_step. rewrite Hph. cbn [fst]. intros IH.
      destruct (join fuel _). apply IH. simpl. lia.
    + rewrite bool_decide_eq_false_2 by (intros H; apply H; reflexivity).
      exact Hph.
Qed.

(** [wait()] returns, and the worker has finished then. *)
Lemma wait_finished th : at_phase (fst (wait th)) = Finished.
Proof.
  unfold wait. apply join_finished. destruct (at_phase th); lia.
Qed.

(** [stop()] then [wait()] returns with the worker finished and its flag
    cleared, whatever the worker had begun. *)
Lemma stop_and_wait_finished n th :
  at_phase (fst (stop_and_wait n th)) = Finished /\
  running (fst (stop_and_wait n th)) = false.
Proof.
  unfold stop_and_wait. destruct (exec (repeat Tick n) th) as [th1 effs1].
  pose proof (wait_finished (stop th1)) as Hf.
  pose proof (join_running
                (2 + (length (file_list (stop th1)) - cursor (stop th1)))
                (stop th1)) as Hr.
  fold (wait (stop th1)) in Hr.
  destruct (wait (stop th1)) as [th2 effs2]. cbn [fst] in *. auto.
Qed.

End Worker.

(** ** The dialog *)

Section Dialog.
Import FileBrowserDialog.

Implicit Types (d : t) (file : string) (bpm : Q).

Lemma same_wiring_refl d : same_wiring d d.
Proof. repeat split. Qed.

Lemma same_wiring_trans d1 d2 d3 :
  same_wiring d1 d2 -> same_wiring d2 d3 -> same_wiring d1 d3.
Proof.
  unfold same_wiring. intros (?&?&?&?) (?&?&?&?).
  repeat split; congruence.
Qed.

(** A result for a file that is not listed, or a BPM that is not
    positive, leaves the dialog as it is. *)
Lemma update_track_bpm_dropped d file bpm :
  track_items d !! file = None \/ (bpm <= 0)%Q ->
  update_track_bpm d file bpm = Ok d.
Proof.
  intros [Hnone|Hle]; unfold update_track_bpm.
  - rewrite bool_decide_eq_false_2; [reflexivity|].
    rewrite Hnone. intros [x Hx]. discriminate.
  - apply bpm_gt0_false in Hle. rewrite Hle, andb_false_r. reflexivity.
Qed.

(** A positive result for a listed file is written to the cache. *)
Lemma update_track_bpm_stored d file bpm dir :
  is_Some (track_items d !! file) -> (0 < bpm)%Q ->
  directory d = Some dir ->
  exists d',
    update_track_bpm d file bpm = Ok d' /\
    bpm_cache d' = <[path_join dir file := bpm]> (bpm_cache d) /\
    bpm_analyzed d' = bpm_analyzed d ++ [(path_join dir file, bpm)] /\
    same_wiring d d'.
Proof.
  intros Hin Hpos Hdir. unfold update_track_bpm.
  rewrite bool_decide_eq_true_2 by exact Hin.
  apply bpm_gt0_spec in Hpos. rewrite Hpos, Hdir. cbn [andb].
  eexists. split; [reflexivity|].
  destruct (0 <? _); repeat split.
Qed.

Lemma update_track_bpm_wiring d file bpm d' :
  update_track_bpm d file bpm = Ok d' -> same_wiring d d'.
Proof.
  unfold update_track_bpm.
  destruct (bool_decide _ && bpm_gt0 bpm);
    [|intros [= <-]; apply same_wiring_refl].
  destruct (directory d); [|discriminate].
  intros [= <-]. destruct (0 <? _); repeat split.
Qed.

Lemma update_track_bpm_positive d file bpm d' :
  update_track_bpm d file bpm = Ok d' ->
  cache_positive d -> cache_positive d'.
Proof.
  unfold update_track_bpm.
  destruct (bool_decide _ && bpm_gt0 bpm) eqn:Hg; [|intros [= <-]; auto].
  apply andb_true_iff in Hg as [_ Hpos]. apply bpm_gt0_spec in Hpos.
  destruct (directory d) as [dir|]; [|discriminate].
  intros [= <-] Hc path q.
  assert (Hcache : forall st x,
    bpm_cache (emit_bpm_analyzed (path_join dir file) bpm (setText st x))
    = bpm_cache x) by reflexivity.
  destruct (0 <? _); rewrite Hcache; cbn [with_track_items with_bpm_cache bpm_cache];
    (destruct (decide (path_join dir file = path)) as [->|Hne];
     [rewrite lookup_insert_eq; intros [= <-]; exact Hpos
     |rewrite lookup_insert_ne by exact Hne; apply Hc]).
Qed.

Lemma add_track_to_list_ok d file bpm dir :
  directory d = Some dir ->
  exists d',
    add_track_to_list d file bpm = Ok d' /\
    bpm_cache d' = bpm_cache d /\ same_wiring d d'.
Proof.
  intros Hdir. unfold add_track_to_list. rewrite Hdir.
  eexists. split; [reflexivity|]. repeat split.
Qed.

Lemma add_track_to_list_inv d file bpm d' :
  add_track_to_list d file bpm = Ok d' ->
  bpm_cache d' = bpm_cache d /\ same_wiring d d'.
Proof.
  unfold add_track_to_list. destruct (directory d); [|discriminate].
  intros [= <-]. repeat split.
Qed.

(** One iteration of the scan writes the cache only by promoting what
    the persistent store answered. *)
Lemma scan_file_inv dir d loc file d' loc' :
  scan_file dir (d, loc) file = Ok (d', loc') ->
  same_wiring d d' /\
  (bpm_cache d' = bpm_cache d \/
   exists bpm, check_persistent d (path_join dir file) = Ok (Some bpm) /\
               bpm_cache d' = <[path_join dir file := bpm]> (bpm_cache d)).
Proof.
  unfold scan_file.
  destruct (check_persistent d (path_join dir file)) as [[q|]|e] eqn:Hp;
    cbn [mbind outcome_bind]; [| |discriminate].
  - set (d1 := with_bpm_cache _ d).
    assert (Hw : same_wiring d d1) by (repeat split).
    destruct (bpm_eq0 q); cbn zeta.
    + destruct (bpm_gt0 (default 0%Q (bpm_cache d1 !! path_join dir file))).
      * destruct (add_track_to_list d1 file _) as [d2|] eqn:Ha; [|discriminate].
        cbn. intros [= <- <-]. apply add_track_to_list_inv in Ha as [Hc Hw2].
        split; [exact (same_wiring_trans _ _ _ Hw Hw2)|].
        right. exists q. split; [reflexivity|]. rewrite Hc. reflexivity.
      * destruct (add_track_to_list d1 file _) as [d2|] eqn:Ha; [|discriminate].
        cbn. intros [= <- <-]. apply add_track_to_list_inv in Ha as [Hc Hw2].
        split; [exact (same_wiring_trans _ _ _ Hw Hw2)|].
        right. exists q. split; [reflexivity|]. rewrite Hc. reflexivity.
    + destruct (bpm_gt0 q);
        (destruct (add_track_to_list d1 file _) as [d2|] eqn:Ha; [|discriminate];
         cbn; intros [= <- <-]; apply add_track_to_list_inv in Ha as [Hc Hw2];
         split; [exact (same_wiring_trans _ _ _ Hw Hw2)|];
         right; exists q; split; [reflexivity|]; rewrite Hc; reflexivity).
  - cbn zeta. change (bpm_eq0 0%Q) with true. cbn iota.
    destruct (bpm_gt0 (default 0%Q (bpm_cache d !! path_join dir file)));
      (destruct (add_track_to_list d file _) as [d2|] eqn:Ha; [|discriminate];
       cbn; intros [= <- <-]; apply add_track_to_list_inv in Ha as [Hc Hw2];
       split; [exact Hw2 | left; exact Hc]).
Qed.

Lemma scan_files_inv dir files : forall d loc d' loc',
  scan_files dir (d, loc) files = Ok (d', loc') ->
  same_wiring d d' /\
  (store_positive d -> cache_positive d -> cache_positive d').
Proof.
  induction files as [|file files IH]; intros d loc d' loc'; cbn [scan_files].
  - intros [= <- <-]. split; [apply same_wiring_refl | auto].
  - destruct (scan_file dir (d, loc) file) as [[d1 loc1]|] eqn:Hs;
      [|discriminate].
    cbn. intros Hrest. apply IH in Hrest as [Hw2 Hpos2].
    apply scan_file_inv in Hs as [Hw1 Hcache].
    split; [exact (same_wiring_trans _ _ _ Hw1 Hw2)|].
    intros Hstore Hc. apply Hpos2.
    + intros cm path bpm beats Hcm. apply Hstore.
      destruct Hw1 as (_&_&Hcm1&_). congruence.
    + destruct Hcache as [Heq | [q [Hq Heq]]]; intros path bpm; rewrite Heq.
      * apply Hc.
      * destruct (decide (path_join dir file = path)) as [<-|Hne].
        -- rewrite lookup_insert_eq. intros [= <-].
           revert Hq. unfold check_persistent.
           destruct (cache_manager d) as [cm|] eqn:Hcm; [|discriminate].
           destruct (get_bpm_data cm (path_join dir file))
             as [[[[q'|] beats]|]|e] eqn:Hg; try discriminate.
           cbn. intros [= ->]. exact (Hstore cm _ q beats Hcm Hg).
        -- rewrite lookup_insert_ne by exact Hne. apply Hc.
Qed.

(** Which file one iteration of the scan queues for analysis. *)
Lemma scan_file_queue dir d loc file d' loc' :
  scan_file dir (d, loc) file = Ok (d', loc') ->
  files_to_analyze loc'
  = files_to_analyze loc ++ (if needs_analysis d dir file then [file] else []).
Proof.
  unfold scan_file, needs_analysis.
  destruct (check_persistent d (path_join dir file)) as [[q|]|e] eqn:Hp;
    cbn [mbind outcome_bind]; [| |discriminate].
  - set (d1 := with_bpm_cache _ d).
    assert (Hq : default 0%Q (bpm_cache d1 !! path_join dir file) = q)
      by (subst d1; cbn [bpm_cache with_bpm_cache];
          rewrite lookup_insert_eq; reflexivity).
    destruct (bpm_eq0 q); cbn zeta; rewrite ?Hq;
      destruct (bpm_gt0 q);
      (destruct (add_track_to_list d1 file _) as [d2|]; [|discriminate]);
      cbn; intros [= <- <-]; cbn [files_to_analyze negb];
      rewrite ?app_nil_r; reflexivity.
  - cbn zeta. change (bpm_eq0 0%Q) with true. cbn iota.
    destruct (bpm_gt0 (default 0%Q (bpm_cache d !! path_join dir file)));
      (destruct (add_track_to_list d file _) as [d2|]; [|discriminate]);
      cbn; intros [= <- <-]; cbn [files_to_analyze negb];
      rewrite ?app_nil_r; reflexivity.
Qed.

(** The files the scan queues are those for which the dialog, as it is
    when the scan begins, knows no BPM greater than 0: what the scan
    promotes on its way does not change the answer for a later file. *)
Lemma scan_files_queue dir d0 files : forall d loc d' loc',
  cache_manager d = cache_manager d0 ->
  (forall p, check_persistent d0 p = Ok None ->
             bpm_cache d !! p = bpm_cache d0 !! p) ->
  scan_files dir (d, loc) files = Ok (d', loc') ->
  files_to_analyze loc'
  = files_to_analyze loc ++ List.filter (needs_analysis d0 dir) files.
Proof.
  induction files as [|file files IH]; intros d loc d' loc' Hcm Hc;
    cbn [scan_files List.filter].
  - intros [= <- <-]. rewrite app_nil_r. reflexivity.
  - destruct (scan_file dir (d, loc) file) as [[d1 loc1]|] eqn:Hs;
      [|discriminate].
    cbn [mbind outcome_bind]. intros Hrest.
    assert (Hcp : forall p, check_persistent d p = check_persistent d0 p)
      by (intros p; unfold check_persistent; rewrite Hcm; reflexivity).
    assert (Hn : needs_analysis d dir file = needs_analysis d0 dir file).
    { unfold needs_analysis. rewrite Hcp.
      destruct (check_persistent d0 (path_join dir file)) as [[q|]|e] eqn:Hp;
        [reflexivity | rewrite (Hc _ Hp); reflexivity | reflexivity]. }
    pose proof (scan_file_queue _ _ _ _ _ _ Hs) as Hq. rewrite Hn in Hq.
    apply scan_file_inv in Hs as [(_ & _ & Hcm1 & _) Hcache].
    rewrite (IH d1 loc1 d' loc'); [| congruence | | exact Hrest].
    + rewrite Hq, <- app_assoc.
      destruct (needs_analysis d0 dir file); reflexivity.
    + intros p Hp. destruct Hcache as [-> | (q & Hhit & ->)]; [exact (Hc p Hp)|].
      rewrite Hcp in Hhit.
      destruct (decide (path_join dir file = p)) as [<-|Hne]; [congruence|].
      rewrite lookup_insert_ne by exact Hne. exact (Hc p Hp).
Qed.

(** The scan does not raise when the store answers for its files. *)
Lemma scan_files_ok dir files : forall d loc dir',
  directory d = Some dir' -> store_answers d dir files ->
  exists r, scan_files dir (d, loc) files = Ok r.
Proof.
  induction files as [|file files IH]; intros d loc dir' Hdir Hans;
    cbn [scan_files]; [eexists; reflexivity|].
  assert (Hs : exists d1 loc1,
    scan_file dir (d, loc) file = Ok (d1, loc1) /\ directory d1 = Some dir').
  { unfold scan_file.
    destruct (Hans file (or_introl eq_refl)) as [hit ->].
    cbn [mbind outcome_bind]. destruct hit as [q|]; cbn zeta.
    - set (d1 := with_bpm_cache _ d).
      assert (Hd1 : directory d1 = Some dir') by exact Hdir.
      destruct (bpm_eq0 q);
        [destruct (bpm_gt0 (default 0%Q (bpm_cache d1 !! path_join dir file)))
        |destruct (bpm_gt0 q)];
        (match goal with
         | |- context [add_track_to_list d1 file ?b] =>
             destruct (add_track_to_list_ok d1 file b dir' Hd1)
               as (d2 & -> & _ & (Hd2 & _))
         end; cbn; eexists _, _; split; [reflexivity | congruence]).
    - change (bpm_eq0 0%Q) with true. cbn iota.
      destruct (bpm_gt0 (default 0%Q (bpm_cache d !! path_join dir file)));
        (match goal with
         | |- context [add_track_to_list d file ?b] =>
             destruct (add_track_to_list_ok d file b dir' Hdir)
               as (d2 & -> & _ & (Hd2 & _))
         end; cbn; eexists _, _; split; [reflexivity | congruence]). }
  destruct Hs as (d1 & loc1 & Hs & Hd1). rewrite Hs. cbn.
  apply (IH d1 loc1 dir' Hd1).
  apply scan_file_inv in Hs as [(_ & _ & Hcm & _) _].
  intros f Hf. destruct (Hans f (or_intror Hf)) as [hit Hhit].
  exists hit. rewrite <- Hhit. unfold check_persistent. rewrite Hcm.
  reflexivity.
Qed.

End Dialog.

(** ** The system *)

Section System.
Import FileBrowserDialog.

Implicit Types (s : system) (fs : FileSystem).

Local Abbreviation isRunning := BPMAnalyzerThread.isRunning.
Local Abbreviation Finished := BPMAnalyzerThread.Finished.
Local Abbreviation Looping := BPMAnalyzerThread.Looping.
Local Abbreviation Returning := BPMAnalyzerThread.Returning.

Lemma isRunning_spec th :
  isRunning th = true <-> BPMAnalyzerThread.at_phase th <> Finished.
Proof. unfold isRunning. apply bool_decide_eq_true. Qed.

Lemma running_thread_ext s s' :
  threads s' = threads s ->
  analyzer_thread (dialog s') = analyzer_thread (dialog s) ->
  running_thread s' = running_thread s.
Proof. intros Ht Ha. unfold running_thread. rewrite Ht, Ha. reflexivity. Qed.

Lemma running_thread_Some s i th :
  running_thread s = Some (i, th) ->
  analyzer_thread (dialog s) = Some i /\ threads s !! i = Some th /\
  isRunning th = true.
Proof.
  unfold running_thread.
  destruct (analyzer_thread (dialog s)) as [j|]; [|discriminate].
  destruct (threads s !! j) as [th'|] eqn:Hth; [|discriminate].
  destruct (isRunning th') eqn:Hr; [|discriminate].
  intros [= <- <-]. auto.
Qed.

(** Without a running worker of the dialog there is no running worker
    at all, in a state where each one is owned. *)
Lemma owned_none_running s i th :
  owned s -> running_thread s = None ->
  threads s !! i = Some th -> isRunning th = false.
Proof.
  intros Ho Hnone Hth. destruct (isRunning th) eqn:Hr; [|reflexivity].
  pose proof (Ho i th Hth Hr) as Ha.
  unfold running_thread in Hnone. rewrite Ha, Hth, Hr in Hnone.
  discriminate.
Qed.

Lemma workers_kept_owned s s' : owned s -> workers_kept s s' -> owned s'.
Proof.
  intros Ho [[Ht Ha] | [(i & th & nf & Hr & Ht & Ha) | (th & Hr & Hph & Ht & Ha)]]
    j th' Hj Hrun.
  - rewrite Ha. rewrite Ht in Hj. exact (Ho j th' Hj Hrun).
  - rewrite Ha. apply running_thread_Some in Hr as (Hi & Hth & Hri).
    rewrite Ht in Hj. destruct (decide (i = j)) as [->|Hne]; [exact Hi|].
    rewrite list_lookup_insert_ne in Hj by exact Hne.
    exact (Ho j th' Hj Hrun).
  - rewrite Ha, Ht in *. destruct (decide (j < length (threads s))) as [Hlt|Hge].
    + rewrite lookup_app_l in Hj by exact Hlt.
      rewrite (owned_none_running s j th' Ho Hr Hj) in Hrun. discriminate.
    + apply lookup_lt_Some in Hj. rewrite length_app in Hj. simpl in Hj.
      f_equal. lia.
Qed.

Lemma dispatch_kept s0 s dir files :
  threads s = threads s0 ->
  analyzer_thread (dialog s) = analyzer_thread (dialog s0) ->
  workers_kept s0 (dispatch s dir files) /\
  bpm_cache (dialog (dispatch s dir files)) = bpm_cache (dialog s) /\
  cache_manager (dialog (dispatch s dir files)) = cache_manager (dialog s) /\
  event_queue (dispatch s dir files) = event_queue s.
Proof.
  intros Ht Ha. pose proof (running_thread_ext s0 s Ht Ha) as Hr.
  unfold dispatch.
  destruct files as [|file files];
    [repeat split; left; simpl; auto|].
  destruct (audio_analyzer (dialog s)) as [a|];
    [|repeat split; left; simpl; auto].
  destruct (running_thread s) as [[i th]|] eqn:Hrs; repeat split.
  - right. left. exists i, th, (file :: files). simpl.
    rewrite <- Hr, Ht, Ha. auto.
  - right. right. eexists. simpl. rewrite <- Hr, Ht. repeat split; reflexivity.
Qed.

(** What [populate_file_list] does to the workers, the cache and the
    queue, when it returns. *)
Lemma populate_kept fs s s' :
  populate_file_list fs s = Ok s' ->
  workers_kept s s' /\
  cache_manager (dialog s') = cache_manager (dialog s) /\
  (store_positive (dialog s) -> cache_positive (dialog s) ->
   cache_positive (dialog s')) /\
  event_queue s' = event_queue s.
Proof.
  unfold populate_file_list.
  set (d0 := with_track_items ∅ (with_list_widget [] (dialog s))).
  assert (Hquiet : forall st,
    Ok (with_dialog (setText st d0) s) = Ok s' ->
    workers_kept s s' /\
    cache_manager (dialog s') = cache_manager (dialog s) /\
    (store_positive (dialog s) -> cache_positive (dialog s) ->
     cache_positive (dialog s')) /\
    event_queue s' = event_queue s).
  { intros st [= <-]. repeat split; [left; split; reflexivity | auto]. }
  destruct (directory d0) as [dir|] eqn:Hdir; [|apply Hquiet].
  destruct (truthy dir && isdir fs dir); [|apply Hquiet].
  destruct (listdir fs dir) as [names|e].
  - destruct (List.filter is_audio names) as [|file files] eqn:Hfiles.
    + intros [= <-]. repeat split; [left; split; reflexivity | auto].
    + destruct (scan_files dir (d0, mk_scan [] 0 0) (file :: files))
        as [[d1 loc1]|] eqn:Hscan; [|discriminate].
      cbn. intros [= <-].
      apply scan_files_inv in Hscan as [(Hd & Haa & Hcm & Hat) Hpos].
      edestruct (dispatch_kept s (with_dialog (setText (scan_status loc1) d1) s)
                   dir (files_to_analyze loc1)) as (Hk & Hc & Hm & Hq);
        [reflexivity | exact Hat |].
      split; [exact Hk|]. split; [rewrite Hm; exact Hcm|].
      split; [|exact Hq].
      intros Hs Hp path bpm. rewrite Hc. apply Hpos; assumption.
  - destruct e; try discriminate. apply Hquiet.
Qed.

(** Past the checks of its directory, [populate_file_list] returns
    whenever the listing does and the store answers for the audio files. *)
Lemma populate_total fs s dir names :
  directory (dialog s) = Some dir -> listdir fs dir = Ok names ->
  store_answers (dialog s) dir (List.filter is_audio names) ->
  exists s', populate_file_list fs s = Ok s'.
Proof.
  intros Hdir Hls Hans. unfold populate_file_list.
  cbn [directory with_track_items with_list_widget]. rewrite Hdir.
  destruct (truthy dir && isdir fs dir); [|eexists; reflexivity].
  rewrite Hls.
  destruct (List.filter is_audio names) as [|file files];
    [eexists; reflexivity|].
  edestruct (scan_files_ok dir (file :: files)) as [[d1 loc1] ->];
    [| |cbn; eexists; reflexivity].
  - exact Hdir.
  - exact Hans.
Qed.

(** [populate_file_list] on a directory that can be listed and holds
    audio files: the scan loop, then the status, then the dispatch. What
    the scan loop raises, a failure of the store, goes up. *)
Lemma populate_unfold fs s dir names :
  directory (dialog s) = Some dir ->
  truthy dir = true -> isdir fs dir = true ->
  listdir fs dir = Ok names ->
  List.filter is_audio names <> [] ->
  populate_file_list fs s
  = ('(d1, loc1) ← scan_files dir
       (with_track_items ∅ (with_list_widget [] (dialog s)), mk_scan [] 0 0)
       (List.filter is_audio names);
     Ok (dispatch (with_dialog (setText (scan_status loc1) d1) s) dir
           (files_to_analyze loc1))).
Proof.
  intros Hdir Ht Hd Hls Hne. unfold populate_file_list.
  cbn [directory with_track_items with_list_widget].
  rewrite Hdir, Ht, Hd, Hls. cbn [andb].
  destruct (List.filter is_audio names) as [|file files] eqn:Hf;
    [congruence|]. reflexivity.
Qed.

Lemma populate_scanned fs s s' dir names :
  directory (dialog s) = Some dir ->
  truthy dir = true -> isdir fs dir = true ->
  listdir fs dir = Ok names ->
  List.filter is_audio names <> [] ->
  populate_file_list fs s = Ok s' ->
  exists d1 loc1,
    scan_files dir
      (with_track_items ∅ (with_list_widget [] (dialog s)), mk_scan [] 0 0)
      (List.filter is_audio names) = Ok (d1, loc1) /\
    s' = dispatch (with_dialog (setText (scan_status loc1) d1) s) dir
           (files_to_analyze loc1).
Proof.
  intros Hdir Ht Hd Hls Hne.
  rewrite (populate_unfold fs s dir names Hdir Ht Hd Hls Hne).
  destruct (scan_files _ _ _) as [[d1 loc1]|e]; [|discriminate].
  cbn. intros [= <-]. eauto.
Qed.

Lemma commit_owned s i th r :
  owned s -> threads s !! i = Some th ->
  (isRunning (fst r) = true -> isRunning th = true) ->
  owned (commit i r s).
Proof.
  intros Ho Hth Hrev j th' Hj Hrun. cbn [commit dialog threads] in *.
  destruct (decide (i = j)) as [<-|Hne].
  - rewrite list_lookup_insert_eq in Hj by (eapply lookup_lt_Some; exact Hth).
    injection Hj as <-. exact (Ho i th Hth (Hrev Hrun)).
  - rewrite list_lookup_insert_ne in Hj by exact Hne. exact (Ho j th' Hj Hrun).
Qed.

Lemma closeEvent_owned n s : owned s -> owned (closeEvent n s).
Proof.
  intros Ho. unfold closeEvent.
  destruct (running_thread s) as [[i th]|] eqn:Hr; [|exact Ho].
  apply running_thread_Some in Hr as (_ & Hth & Hrun).
  apply (commit_owned s i th); [exact Ho | exact Hth | auto].
Qed.

(** After [closeEvent] no worker is running. *)
Lemma closeEvent_quiet n s i th :
  owned s -> threads (closeEvent n s) !! i = Some th -> isRunning th = false.
Proof.
  intros Ho. unfold closeEvent.
  destruct (running_thread s) as [[j th0]|] eqn:Hr.
  - pose proof Hr as Hr'.
    apply running_thread_Some in Hr' as (Ha & Hth & Hrun).
    cbn [commit threads]. destruct (decide (j = i)) as [->|Hne].
    + rewrite list_lookup_insert_eq by (eapply lookup_lt_Some; exact Hth).
      intros [= <-]. apply bool_decide_eq_false_2.
      rewrite (proj1 (stop_and_wait_finished n th0)). auto.
    + rewrite list_lookup_insert_ne by exact Hne. intros Hi.
      destruct (isRunning th) eqn:Hrun'; [|reflexivity].
      pose proof (Ho i th Hi Hrun'). congruence.
  - intros Hi. exact (owned_none_running s i th Ho Hr Hi).
Qed.

Lemma set_directory_kept fs directory s s' :
  set_directory fs directory s = Ok s' ->
  workers_kept s s' /\
  cache_manager (dialog s') = cache_manager (dialog s) /\
  (store_positive (dialog s) -> cache_positive (dialog s) ->
   cache_positive (dialog s')) /\
  event_queue s' = event_queue s.
Proof.
  unfold set_directory. destruct (dir_ok fs directory).
  - intros Hp. apply populate_kept in Hp as (Hk & Hcm & Hpos & Hq).
    repeat split; assumption.
  - intros [= <-]. repeat split; [left; split; reflexivity | auto].
Qed.

(** Each step keeps every running worker owned by the dialog. *)
Lemma step_owned ev s s' : step ev s = Ok s' -> owned s -> owned s'.
Proof.
  destruct ev as [fs directory|fs| |file bpm| |i]; cbn [step]; intros Hstep Ho.
  - apply set_directory_kept in Hstep as [Hk _].
    exact (workers_kept_owned s s' Ho Hk).
  - apply populate_kept in Hstep as [Hk _].
    exact (workers_kept_owned s s' Ho Hk).
  - injection Hstep as <-. apply closeEvent_owned, Ho.
  - destruct (update_track_bpm (dialog s) file bpm) as [d|] eqn:Hu;
      [|discriminate].
    cbn in Hstep. injection Hstep as <-.
    apply update_track_bpm_wiring in Hu as (_ & _ & _ & Ha).
    intros j th Hj Hrun. cbn. rewrite Ha. exact (Ho j th Hj Hrun).
  - unfold deliver in Hstep.
    destruct (event_queue s) as [|[file bpm|] rest].
    + injection Hstep as <-. exact Ho.
    + destruct (update_track_bpm (dialog s) file bpm) as [d|] eqn:Hu;
        [|discriminate].
      cbn in Hstep. injection Hstep as <-.
      apply update_track_bpm_wiring in Hu as (_ & _ & _ & Ha).
      intros j th Hj Hrun. cbn. rewrite Ha. exact (Ho j th Hj Hrun).
    + injection Hstep as <-. exact Ho.
  - destruct (threads s !! i) as [th|] eqn:Hth; injection Hstep as <-;
      [|exact Ho].
    apply (commit_owned s i th _ Ho Hth).
    rewrite !isRunning_spec. intros Hrun Hfin. apply Hrun.
    apply run_step_finished, Hfin.
Qed.

(** Each step keeps the cache positive, as long as the store answers
    positive values only. *)
Lemma step_positive ev s s' :
  step ev s = Ok s' ->
  store_positive (dialog s) /\ cache_positive (dialog s) ->
  store_positive (dialog s') /\ cache_positive (dialog s').
Proof.
  assert (Hstore : forall d d', cache_manager d' = cache_manager d ->
            store_positive d -> store_positive d').
  { intros d d' Hcm Hs cm path bpm beats Hc. apply Hs. congruence. }
  destruct ev as [fs directory|fs| |file bpm| |i]; cbn [step];
    intros Hstep [Hs Hc].
  - apply set_directory_kept in Hstep as (_ & Hcm & Hpos & _).
    split; [exact (Hstore _ _ Hcm Hs) | auto].
  - apply populate_kept in Hstep as (_ & Hcm & Hpos & _).
    split; [exact (Hstore _ _ Hcm Hs) | auto].
  - injection Hstep as <-. unfold closeEvent.
    destruct (running_thread s) as [[j th]|]; auto.
  - destruct (update_track_bpm (dialog s) file bpm) as [d|] eqn:Hu;
      [|discriminate].
    cbn in Hstep. injection Hstep as <-. cbn [with_dialog dialog].
    split; [|exact (update_track_bpm_positive _ _ _ _ Hu Hc)].
    apply update_track_bpm_wiring in Hu as (_ & _ & Hcm & _).
    exact (Hstore _ _ Hcm Hs).
  - unfold deliver in Hstep.
    destruct (event_queue s) as [|[file bpm|] rest].
    + injection Hstep as <-. auto.
    + destruct (update_track_bpm (dialog s) file bpm) as [d|] eqn:Hu;
        [|discriminate].
      cbn in Hstep. injection Hstep as <-. cbn [dialog].
      split; [|exact (update_track_bpm_positive _ _ _ _ Hu Hc)].
      apply update_track_bpm_wiring in Hu as (_ & _ & Hcm & _).
      exact (Hstore _ _ Hcm Hs).
    + injection Hstep as <-. auto.
  - destruct (threads s !! i) as [th|]; injection Hstep as <-; auto.
Qed.

Lemma run_invariant (P : system -> Prop) :
  (forall ev s s', step ev s = Ok s' -> P s -> P s') ->
  forall evs s s', run_events evs s = Ok s' -> P s -> P s'.
Proof.
  intros Hstep evs. induction evs as [|ev evs IH]; intros s s'; cbn [run_events].
  - intros [= <-]. auto.
  - destruct (step ev s) as [s1|] eqn:Hs; [|discriminate].
    cbn. intros Hrun HP. apply (IH s1 s' Hrun). exact (Hstep ev s s1 Hs HP).
Qed.

Lemma init_owned fs directory a cm s :
  init fs directory a cm = Ok s -> owned s.
Proof.
  unfold init. set (s0 := with_dialog _ _).
  assert (Ho : owned s0) by (intros i th Hi; discriminate).
  destruct (dir_ok fs directory).
  - intros Hp. apply populate_kept in Hp as [Hk _].
    exact (workers_kept_owned s0 s Ho Hk).
  - intros [= <-]. intros i th Hi. discriminate.
Qed.

(** In every reachable state, every running worker is the dialog's. *)
Lemma reachable_owned fs directory a cm evs s0 s :
  init fs directory a cm = Ok s0 -> run_events evs s0 = Ok s -> owned s.
Proof.
  intros Hi Hr. apply (run_invariant owned step_owned evs s0 s Hr).
  exact (init_owned _ _ _ _ _ Hi).
Qed.

(** A worker is started only by a dialog that has an analyzer, and the
    dialog keeps its analyzer. *)
Lemma dispatch_staffed s dir files :
  audio_analyzer (dialog (dispatch s dir files)) = audio_analyzer (dialog s) /\
  (threads (dispatch s dir files) = threads s \/
   is_Some (audio_analyzer (dialog s))).
Proof.
  unfold dispatch. destruct files as [|file files]; [split; auto|].
  destruct (audio_analyzer (dialog s)) as [a|] eqn:Ha; [|split; auto].
  destruct (running_thread s) as [[i th]|]; cbn [dialog threads];
    (split; [first [exact Ha | reflexivity] | right; eauto]).
Qed.

Lemma populate_staffed fs s s' :
  populate_file_list fs s = Ok s' ->
  audio_analyzer (dialog s') = audio_analyzer (dialog s) /\
  (threads s' = threads s \/ is_Some (audio_analyzer (dialog s))).
Proof.
  unfold populate_file_list.
  set (d0 := with_track_items ∅ (with_list_widget [] (dialog s))).
  destruct (directory d0) as [dir|] eqn:Hdir; [|intros [= <-]; auto].
  destruct (truthy dir && isdir fs dir); [|intros [= <-]; auto].
  destruct (listdir fs dir) as [names|e].
  - destruct (List.filter is_audio names) as [|file files];
      [intros [= <-]; auto|].
    destruct (scan_files dir (d0, mk_scan [] 0 0) (file :: files))
      as [[d1 loc1]|] eqn:Hscan; [|discriminate].
    cbn [mbind outcome_bind]. intros [= <-].
    apply scan_files_inv in Hscan as [(_ & Haa & _) _].
    destruct (dispatch_staffed (with_dialog (setText (scan_status loc1) d1) s)
                dir (files_to_analyze loc1)) as [Hd Ht].
    cbn [dialog with_dialog audio_analyzer setText threads] in Hd, Ht.
    rewrite Hd. split; [exact Haa|].
    destruct Ht as [Ht|Ht]; [left; exact Ht | right].
    change (audio_analyzer d0) with (audio_analyzer (dialog s)) in Haa.
    rewrite <- Haa. exact Ht.
  - destruct e; try discriminate. intros [= <-]. auto.
Qed.

Lemma step_staffed ev s s' :
  step ev s = Ok s' ->
  threads s = [] \/ is_Some (audio_analyzer (dialog s)) ->
  threads s' = [] \/ is_Some (audio_analyzer (dialog s')).
Proof.
  assert (Hpop : forall fs s1 s2, populate_file_list fs s1 = Ok s2 ->
            threads s1 = [] \/ is_Some (audio_analyzer (dialog s1)) ->
            threads s2 = [] \/ is_Some (audio_analyzer (dialog s2))).
  { intros fs s1 s2 Hp Hs. apply populate_staffed in Hp as [Ha Ht].
    rewrite Ha. destruct Ht as [->|Ht]; [exact Hs | right; exact Ht]. }
  assert (Hins : forall i x, threads s = [] -> <[i := x]> (threads s) = [])
    by (intros i x ->; reflexivity).
  destruct ev as [fs directory|fs|n|file bpm| |i]; cbn [step]; intros Hstep Hs.
  - revert Hstep. unfold set_directory. destruct (dir_ok fs directory).
    + intros Hp. exact (Hpop _ _ _ Hp Hs).
    + intros [= <-]. exact Hs.
  - exact (Hpop _ _ _ Hstep Hs).
  - injection Hstep as <-. unfold closeEvent.
    destruct (running_thread s) as [[j th]|]; [|exact Hs].
    cbn [commit threads dialog].
    destruct Hs as [Hs|Hs]; [left; apply Hins, Hs | right; exact Hs].
  - destruct (update_track_bpm (dialog s) file bpm) as [d|] eqn:Hu;
      [|discriminate].
    cbn in Hstep. injection Hstep as <-.
    apply update_track_bpm_wiring in Hu as (_ & Ha & _).
    cbn [with_dialog threads dialog]. rewrite Ha. exact Hs.
  - unfold deliver in Hstep.
    destruct (event_queue s) as [|[file bpm|] rest].
    + injection Hstep as <-. exact Hs.
    + destruct (update_track_bpm (dialog s) file bpm) as [d|] eqn:Hu;
        [|discriminate].
      cbn in Hstep. injection Hstep as <-.
      apply update_track_bpm_wiring in Hu as (_ & Ha & _).
      cbn [threads dialog]. rewrite Ha. exact Hs.
    + injection Hstep as <-. exact Hs.
  - destruct (threads s !! i) as [th|]; injection Hstep as <-; [|exact Hs].
    cbn [commit threads dialog].
    destruct Hs as [Hs|Hs]; [left; apply Hins, Hs | right; exact Hs].
Qed.

(** In every reachable state that has a worker, the dialog has an
    analyzer. *)
Lemma reachable_staffed fs directory a cm evs s0 s :
  init fs directory a cm = Ok s0 -> run_events evs s0 = Ok s ->
  threads s = [] \/ is_Some (audio_analyzer (dialog s)).
Proof.
  intros Hi Hr.
  apply (run_invariant
           (fun s => threads s = [] \/ is_Some (audio_analyzer (dialog s)))
           step_staffed evs s0 s Hr).
  revert Hi. unfold init. set (s1 := with_dialog _ _).
  destruct (dir_ok fs directory).
  - intros Hp. apply populate_staffed in Hp as [Ha [Ht|Ht]];
      [left; exact Ht | right; rewrite Ha; exact Ht].
  - intros [= <-]. left. reflexivity.
Qed.

(** What [set_directory] with a directory that can be listed does to the
    running worker: the audio files of the listing for which the dialog
    knows no BPM greater than 0 are appended to its queue, in the order
    of the listing. *)
Lemma set_directory_queue fs dir names s s' i th :
  running_thread s = Some (i, th) ->
  is_Some (audio_analyzer (dialog s)) ->
  dir_ok fs (Some dir) = true -> listdir fs dir = Ok names ->
  set_directory fs (Some dir) s = Ok s' ->
  threads s'
  = <[i := BPMAnalyzerThread.add_files th
             (List.filter (needs_analysis (dialog s) dir)
                (List.filter is_audio names))]> (threads s).
Proof.
  intros Hr [a Ha] Hok Hls. unfold set_directory. rewrite Hok.
  set (s1 := with_dialog _ s).
  pose proof Hr as Hr'. apply running_thread_Some in Hr' as (Hat & Hth & _).
  assert (Hid : threads s = <[i := BPMAnalyzerThread.add_files th []]> (threads s)).
  { rewrite add_no_files. symmetry.
    apply list_insert_id. exact Hth. }
  unfold dir_ok in Hok. apply andb_true_iff in Hok as [Ht Hd].
  destruct (List.filter is_audio names) as [|file files] eqn:Hf.
  - unfold populate_file_list.
    cbn [directory with_track_items with_list_widget dialog s1 with_dialog
         with_directory setWindowTitle].
    rewrite Ht, Hd, Hls, Hf. cbn [andb]. intros [= <-]. exact Hid.
  - intros Hp.
    apply (populate_scanned fs s1 s' dir names) in Hp
      as (d1 & loc1 & Hscan & ->);
      [| reflexivity | exact Ht | exact Hd | exact Hls | congruence].
    rewrite Hf in Hscan.
    pose proof (scan_files_queue dir (dialog s) (file :: files)
                  (with_track_items ∅ (with_list_widget [] (dialog s1)))
                  _ _ _ eq_refl (fun p _ => eq_refl) Hscan) as Hq.
    cbn [files_to_analyze app] in Hq. rewrite <- Hq.
    apply scan_files_inv in Hscan as [(_ & Haa & _ & Hat1) _].
    set (s2 := with_dialog (setText (scan_status loc1) d1) s1).
    assert (Hr2 : running_thread s2 = Some (i, th)).
    { rewrite <- Hr. apply running_thread_ext; [reflexivity | exact Hat1]. }
    assert (Ha2 : audio_analyzer (dialog s2) = Some a)
      by (rewrite <- Ha; exact Haa).
    unfold dispatch. rewrite Ha2, Hr2.
    destruct (files_to_analyze loc1) as [|f fs1]; [exact Hid | reflexivity].
Qed.

(** X23. In every reachable state the in-memory cache holds positive
    values only, provided the persistent store never answers anything
    else. *)
Lemma reachable_cache_positive fs directory a cm evs s0 s :
  (forall c path bpm beats,
     cm = Some c -> get_bpm_data c path = Ok (Some (Some bpm, beats)) ->
     (0 < bpm)%Q) ->
  init fs directory a cm = Ok s0 -> run_events evs s0 = Ok s ->
  cache_positive (dialog s).
Proof.
  intros Hstore Hi Hr.
  apply (run_invariant
           (fun s => store_positive (dialog s) /\ cache_positive (dialog s))
           step_positive evs s0 s Hr).
  revert Hi. unfold init. set (d0 := mk directory a cm _ _ _ _ _ _ _ _).
  assert (Hd0 : store_positive d0 /\ cache_positive d0).
  { split.
    - intros c path bpm beats Hc. apply Hstore. exact Hc.
    - intros path bpm Hl. cbn in Hl. rewrite lookup_empty in Hl. discriminate. }
  destruct (dir_ok fs directory).
  - intros Hp. apply populate_kept in Hp as (_ & Hcm & Hpos & _).
    destruct Hd0 as [Hs Hc]. split; [|apply Hpos; assumption].
    intros c path bpm beats Hc'. apply Hstore. rewrite Hcm in Hc'. exact Hc'.
  - intros [= <-]. exact Hd0.
Qed.

End System.

(** * The claims *)

Section WorkerClaims.
Import BPMAnalyzerThread.

(** C1 (the code departs from the claim). A worker asked to stop while it
    is in its loop leaves the loop at its next step, so that no
    [bpm_analyzed] is emitted for what is left of the queue; but it does
    emit [analysis_completed]: whatever else the schedule holds, the
    signals from [stop()] on are exactly that one. *)
Theorem cancelled_worker_emits_completed (th : t) (acts : list action) :
  at_phase th = Looping -> In Tick acts ->
  signals (snd (exec (Stop :: acts) th)) = [AnalysisCompleted] /\
  at_phase (fst (exec (Stop :: acts) th)) <> Looping.
Proof.
  intros Hph Hin.
  destruct (exec_stopped acts (stop th) Hph eq_refl Hin) as [Heffs Hend].
  cbn [exec act]. destruct (exec acts (stop th)) as [th' effs].
  cbn [fst snd app] in *. subst effs. split; [reflexivity | exact Hend].
Qed.

(** The scenario of the claim: [stop()] after the first file, with three
    more queued. *)
Lemma cancelled_worker_emits_completed_witness :
  signals (snd (exec [Stop; Tick; Tick] (Demo.worker_after 1)))
  = [AnalysisCompleted].
Proof.
  apply (cancelled_worker_emits_completed (Demo.worker_after 1) [Tick; Tick]).
  - reflexivity.
  - left. reflexivity.
Defined.

(** C2 (the claim as stated fails). The dialog opened on [/m] lists its
    directory again while its worker is running: the three files, still
    pending, are queued a second time, and the worker, left alone,
    notifies [a.mp3] and [C.WAV] twice each before it completes, not
    once per file. And a file appended to a worker that is running, in
    the sense of [isRunning()], but has left its loop is never
    processed: the worker finishes without a signal. *)
Lemma requeued_file_is_notified_twice :
  match run_events (PopulateFileList Demo.fs :: repeat (WorkerStep 0) 7)
                   Demo.started with
  | Ok s =>
      file_list <$> threads s
      = [["a.mp3"; "broken.mp3"; "C.WAV"; "a.mp3"; "broken.mp3"; "C.WAV"]] /\
      event_queue s
      = [BpmAnalyzed "a.mp3" 120; BpmAnalyzed "C.WAV" 120;
         BpmAnalyzed "a.mp3" 120; BpmAnalyzed "C.WAV" 120; AnalysisCompleted]
  | Raise _ => False
  end /\
  (let th := fst (exec [Tick] (init (Some Demo.analyzer) "/m" [])) in
   isRunning th = true /\
   signals (snd (exec [AddFiles ["a.mp3"]; Tick; Tick] th)) = [] /\
   isRunning (fst (exec [AddFiles ["a.mp3"]; Tick; Tick] th)) = false).
Proof. vm_compute. repeat split. Qed.

(** C2, amended. A worker that is never asked to stop and leaves its
    loop: its schedule splits at the step that leaves the loop, and the
    queue it has drained is the initial files followed by the files
    appended before that step, in order. It has emitted the
    notification due to each entry of that queue, in order, an entry
    queued twice being notified twice, and then [analysis_completed],
    once: the completion signal is not among the notifications. The
    notification due to an entry is one [bpm_analyzed] with its BPM when
    the analysis succeeds with a BPM greater than 0, nothing otherwise.
    Files appended while the worker is in its loop are in that queue,
    after the initial files. *)
Theorem uncancelled_worker_trace (a : option Analyzer) (dir : string)
    (files : list string) (acts : list action) :
  let th0 := init a dir files in
  Forall (fun x => x <> Stop) acts ->
  at_phase (fst (exec acts th0)) <> Looping ->
  exists pre post,
    let queue := files ++ flat_map appended pre in
    acts = pre ++ Tick :: post /\
    at_phase (fst (exec pre th0)) = Looping /\
    at_phase (fst (exec (pre ++ [Tick]) th0)) <> Looping /\
    signals (snd (exec acts th0))
    = flat_map (notified a dir) queue ++ [AnalysisCompleted] /\
    ~ In AnalysisCompleted (flat_map (notified a dir) queue) /\
    (forall file,
       notified a dir file = [] \/
       exists bpm, (0 < bpm)%Q /\ notified a dir file = [BpmAnalyzed file bpm]) /\
    (forall pre1 new_files post1,
       acts = pre1 ++ AddFiles new_files :: post1 ->
       at_phase (fst (exec pre1 th0)) = Looping ->
       exists before after,
         queue = (files ++ before) ++ new_files ++ after).
Proof.
  intros th0 Hns Hend.
  destruct (submitted_split acts th0 eq_refl Hns Hend)
    as (pre & post & Hacts & Hpre & Hleave & Hsub).
  change (file_list th0) with files in Hsub.
  assert (Hnot : forall fs0,
    flat_map (notification th0) fs0 = flat_map (notified a dir) fs0)
    by (intros fs0; apply flat_map_ext; intros f; apply notification_notified).
  exists pre, post. cbv zeta. rewrite <- Hsub, <- Hnot.
  split; [exact Hacts|]. split; [exact Hpre|].
  split; [rewrite exec_app; cbn [fst exec act]; destruct (run_step _);
          exact Hleave|].
  split; [rewrite (exec_uncancelled acts th0 eq_refl eq_refl Hns Hend);
          reflexivity|].
  split; [apply completed_not_notified|].
  split.
  - intros file. pose proof (notification_shape th0 file) as Hshape.
    rewrite (notification_notified th0 file) in Hshape. exact Hshape.
  - intros pre1 new_files post1 Hacts1 Hpre1.
    rewrite Hacts1, (submitted_app pre1 _ th0 Hpre1).
    cbn [submitted]. rewrite Hpre1.
    destruct (submitted_extends post1
                (fst (act (AddFiles new_files) (fst (exec pre1 th0)))))
      as [more ->].
    destruct (exec_file_list pre1 th0) as [before Hb].
    exists before, more. cbn [act fst add_files file_list].
    rewrite Hb, <- !app_assoc. reflexivity.
Qed.

Lemma uncancelled_worker_trace_witness :
  exists pre post,
    [Tick; AddFiles ["late.mp3"]; Tick; Tick; Tick; Tick; Tick;
     AddFiles ["lost.mp3"]; Tick] = pre ++ Tick :: post /\
    [BpmAnalyzed "a.mp3" 120; BpmAnalyzed "c.wav" (953 # 10);
     BpmAnalyzed "late.mp3" 120; AnalysisCompleted]
    = flat_map (notified (Some Demo.analyzer) "/m")
        (["a.mp3"; "broken.mp3"; "x.mp3"; "c.wav"] ++ flat_map appended pre)
      ++ [AnalysisCompleted].
Proof.
  destruct (uncancelled_worker_trace (Some Demo.analyzer) "/m"
              ["a.mp3"; "broken.mp3"; "x.mp3"; "c.wav"]
              [Tick; AddFiles ["late.mp3"]; Tick; Tick; Tick; Tick; Tick;
               AddFiles ["lost.mp3"]; Tick])
    as (pre & post & Hacts & _ & _ & Hsig & _).
  - repeat constructor; discriminate.
  - vm_compute. discriminate.
  - exists pre, post. split; [exact Hacts | exact Hsig].
Defined.

(** The loop terminates: a worker left alone leaves its loop, and its
    trace is the one above for its own queue. *)
Lemma worker_drains (a : option Analyzer) (dir : string) (files : list string) :
  let th0 := init a dir files in
  at_phase (fst (run th0)) <> Looping /\
  signals (snd (run th0))
  = flat_map (notified a dir) files ++ [AnalysisCompleted].
Proof.
  intros th0. split; [apply run_leaves_loop|].
  rewrite (run_signals th0 eq_refl eq_refl).
  rewrite (flat_map_ext _ _ (notification_notified th0)). reflexivity.
Qed.

(** C7. When the analyzer raises on a file, the exception is caught in
    the iteration: the step prints the error, emits nothing, and the
    worker goes on with the next file; left alone it emits the
    notifications of the files that follow and completes. *)
Theorem analyzer_failure_is_skipped (th : t) (a : Analyzer) (file : string)
    (e : exn) :
  at_phase th = Looping -> running th = true ->
  file_list th !! cursor th = Some file ->
  audio_analyzer th = Some a ->
  analyze_file a (path_join (directory th) file) = Raise e ->
  run_step th = (advance th, [Print (AnalysisError file e)]) /\
  at_phase (advance th) = Looping /\
  signals (snd (run th))
  = flat_map (notification th) (drop (S (cursor th)) (file_list th))
    ++ [AnalysisCompleted].
Proof.
  intros Hph Hrun Hfile Ha He.
  assert (Hp : process th file = [Print (AnalysisError file e)]).
  { unfold process, analyze. rewrite Ha, He. reflexivity. }
  split; [|split].
  - rewrite (run_step_file th file Hph Hrun Hfile), Hp. reflexivity.
  - exact Hph.
  - rewrite (run_signals_from th file Hph Hrun Hfile).
    unfold notification at 1. rewrite Hp. reflexivity.
Qed.

Lemma analyzer_failure_is_skipped_witness :
  run_step (Demo.worker_after 2)
  = (advance (Demo.worker_after 2),
     [Print (AnalysisError "x.mp3" (ValueError "decode"))]).
Proof.
  refine (proj1 (analyzer_failure_is_skipped (Demo.worker_after 2)
                   Demo.analyzer "x.mp3" (ValueError "decode") _ _ _ _ _));
    reflexivity.
Defined.

(** C8. When the analyzer gives a positive BPM and the beat pre-warm
    raises, that exception is caught on its own: the step prints it and
    still emits [bpm_analyzed] with the BPM, and the worker goes on;
    left alone it emits this notification, those of the files that
    follow, and completes. *)
Theorem prewarm_failure_keeps_bpm (th : t) (a : Analyzer) (file : string)
    (bpm : Q) (aux : list Z) (e : exn) :
  at_phase th = Looping -> running th = true ->
  file_list th !! cursor th = Some file ->
  audio_analyzer th = Some a ->
  analyze_file a (path_join (directory th) file) = Ok (bpm, aux) ->
  (0 < bpm)%Q ->
  get_full_track_beat_positions_ms a (path_join (directory th) file)
  = Raise e ->
  run_step th
  = (advance th, [Print (BeatsFailed file e); Emit (BpmAnalyzed file bpm)]) /\
  at_phase (advance th) = Looping /\
  signals (snd (run th))
  = BpmAnalyzed file bpm
    :: flat_map (notification th) (drop (S (cursor th)) (file_list th))
    ++ [AnalysisCompleted].
Proof.
  intros Hph Hrun Hfile Ha Hbpm Hpos Hbeats.
  apply bpm_gt0_spec in Hpos.
  assert (Hp : process th file
               = [Print (BeatsFailed file e); Emit (BpmAnalyzed file bpm)]).
  { unfold process, analyze, prewarm. rewrite Ha, Hbpm. cbn.
    rewrite Hpos, Hbeats. reflexivity. }
  split; [|split].
  - rewrite (run_step_file th file Hph Hrun Hfile), Hp. reflexivity.
  - exact Hph.
  - rewrite (run_signals_from th file Hph Hrun Hfile).
    unfold notification at 1. rewrite Hp. reflexivity.
Qed.

Lemma prewarm_failure_keeps_bpm_witness :
  run_step (Demo.worker_after 3)
  = (advance (Demo.worker_after 3),
     [Print (BeatsFailed "c.wav" (RuntimeError "beats"));
      Emit (BpmAnalyzed "c.wav" (953 # 10))]).
Proof.
  refine (proj1 (prewarm_failure_keeps_bpm (Demo.worker_after 3)
                   Demo.analyzer "c.wav" (953 # 10) [] (RuntimeError "beats")
                   _ _ _ _ _ _ _));
    reflexivity.
Defined.

End WorkerClaims.

Section DialogClaims.
Import FileBrowserDialog.

Local Abbreviation isRunning := BPMAnalyzerThread.isRunning.

Lemma active_spec (s : system) (i : nat) :
  In i (active s) <->
  exists th, threads s !! i = Some th /\ isRunning th = true.
Proof.
  unfold active. rewrite filter_In, in_seq. split.
  - intros [_ H]. destruct (threads s !! i) as [th|]; [eauto | discriminate].
  - intros (th & Hth & Hrun). rewrite Hth. split; [|exact Hrun].
    apply lookup_lt_Some in Hth. lia.
Qed.

(** C3 (the claim as stated fails). With a worker running on [/m], a
    change of directory to [/n] neither stops nor joins it: it is still
    running afterwards, with the file of [/n] appended to its queue, and
    no other worker exists. *)
Lemma directory_change_keeps_worker :
  match set_directory Demo.fs (Some "/n") Demo.started with
  | Ok s' =>
      torn_down Demo.started s' = false /\ active s' = [0] /\
      BPMAnalyzerThread.file_list <$> threads s'
      = [["a.mp3"; "broken.mp3"; "C.WAV"; "x.mp3"]]
  | Raise _ => False
  end.
Proof. vm_compute. repeat split. Qed.

(** C3, amended. In every state the dialog can reach, a worker that has
    not finished is the one the dialog refers to: at most one is active
    and none is detached. [closeEvent] stops the running worker and
    waits for it: whatever the worker had begun, afterwards its flag is
    down, it has finished, and no worker is active. [set_directory] does
    not stop or join a running worker and starts no other: the worker is
    kept. When the new directory can be listed, the files appended to
    its queue are the audio files of the listing for which the dialog
    knows no BPM greater than 0, in the order of the listing, and the
    worker is still running, its flag untouched; when the directory is
    not valid or its listing fails with [OSError], the workers are left
    as they are. *)
Theorem one_worker_at_a_time (fs : FileSystem) (directory : option string)
    (a : option Analyzer) (cm : option CacheManager) (evs : list event)
    (s0 s : system) :
  init fs directory a cm = Ok s0 -> run_events evs s0 = Ok s ->
  (forall i, In i (active s) -> analyzer_thread (dialog s) = Some i) /\
  (forall n, active (closeEvent n s) = []) /\
  (forall n i th, running_thread s = Some (i, th) ->
     exists th', threads (closeEvent n s) !! i = Some th' /\
       BPMAnalyzerThread.running th' = false /\
       BPMAnalyzerThread.at_phase th' = BPMAnalyzerThread.Finished) /\
  (forall fs' directory' s' i th,
     running_thread s = Some (i, th) ->
     set_directory fs' directory' s = Ok s' ->
     length (threads s') = length (threads s) /\
     exists new_files,
       threads s' !! i = Some (BPMAnalyzerThread.add_files th new_files)) /\
  (forall fs' dir names s' i th,
     running_thread s = Some (i, th) ->
     dir_ok fs' (Some dir) = true -> listdir fs' dir = Ok names ->
     set_directory fs' (Some dir) s = Ok s' ->
     running_thread s'
     = Some (i, BPMAnalyzerThread.add_files th
                  (List.filter (needs_analysis (dialog s) dir)
                     (List.filter is_audio names))) /\
     forall j, j <> i -> threads s' !! j = threads s !! j) /\
  (forall fs' directory' s',
     dir_ok fs' directory' = false \/
     (exists dir msg, directory' = Some dir /\
                      listdir fs' dir = Raise (OSError msg)) ->
     set_directory fs' directory' s = Ok s' ->
     threads s' = threads s /\ running_thread s' = running_thread s).
Proof.
  intros Hinit Hrun.
  pose proof (reachable_owned _ _ _ _ _ _ _ Hinit Hrun) as Ho.
  pose proof (reachable_staffed _ _ _ _ _ _ _ Hinit Hrun) as Hst.
  split; [|split; [|split; [|split; [|split]]]].
  - intros i Hi. apply active_spec in Hi as (th & Hth & Hr).
    exact (Ho i th Hth Hr).
  - intros n.
    destruct (active (closeEvent n s)) as [|i rest] eqn:Hact; [reflexivity|].
    assert (Hi : In i (active (closeEvent n s)))
      by (rewrite Hact; left; reflexivity).
    apply active_spec in Hi as (th & Hth & Hr).
    rewrite (closeEvent_quiet n s i th Ho Hth) in Hr. discriminate.
  - intros n i th Hr. unfold closeEvent. rewrite Hr.
    apply running_thread_Some in Hr as (_ & Hth & _).
    eexists. cbn [commit threads].
    rewrite list_lookup_insert_eq by (eapply lookup_lt_Some; exact Hth).
    split; [reflexivity|].
    destruct (stop_and_wait_finished n th) as [Hf Hfl]. auto.
  - intros fs' directory' s' i th Hr Hset.
    apply set_directory_kept in Hset as [Hk _].
    pose proof Hr as Hr'. apply running_thread_Some in Hr' as (_ & Hth & _).
    destruct Hk as [[Ht _] | [(j & th' & nf & Hr2 & Ht & _) | (th' & Hr2 & _)]].
    + rewrite Ht. split; [reflexivity|]. exists [].
      rewrite add_no_files. exact Hth.
    + rewrite Hr in Hr2. injection Hr2 as <- <-. rewrite Ht.
      split; [apply length_insert|]. exists nf.
      apply list_lookup_insert_eq. eapply lookup_lt_Some. exact Hth.
    + congruence.
  - intros fs' dir names s' i th Hr Hok Hls Hset.
    pose proof Hr as Hr'. apply running_thread_Some in Hr' as (Hat & Hth & Hri).
    assert (Han : is_Some (audio_analyzer (dialog s))).
    { destruct Hst as [Hnil|Han]; [|exact Han].
      rewrite Hnil in Hth. discriminate. }
    pose proof (set_directory_queue _ _ _ _ _ _ _ Hr Han Hok Hls Hset) as Ht.
    apply set_directory_kept in Hset as [Hk _].
    assert (Hat' : analyzer_thread (dialog s') = Some i).
    { destruct Hk as [[_ Ha] | [(j & th' & nf & _ & _ & Ha) | (th' & Hr2 & _)]];
        congruence. }
    split.
    + unfold running_thread. rewrite Hat', Ht.
      rewrite list_lookup_insert_eq by (eapply lookup_lt_Some; exact Hth).
      change (isRunning (BPMAnalyzerThread.add_files th _)) with (isRunning th).
      rewrite Hri. reflexivity.
    + intros j Hne. rewrite Ht. apply list_lookup_insert_ne. congruence.
  - intros fs' directory' s' Hcase. unfold set_directory.
    destruct Hcase as [-> | (dir & msg & -> & Hls)];
      [intros [= <-]; split; reflexivity|].
    destruct (dir_ok fs' (Some dir)) eqn:Hok;
      [|intros [= <-]; split; reflexivity].
    unfold dir_ok in Hok. unfold populate_file_list.
    cbn [FileBrowserDialog.directory with_track_items with_list_widget dialog
         with_dialog with_directory setWindowTitle].
    rewrite Hok, Hls. intros [= <-]. split; reflexivity.
Qed.

Lemma one_worker_at_a_time_witness :
  active (closeEvent 1 Demo.started) = [] /\
  match set_directory Demo.fs (Some "/n") Demo.started with
  | Ok s' =>
      running_thread s'
      = Some (0, BPMAnalyzerThread.add_files
                   (BPMAnalyzerThread.init (Some Demo.analyzer) "/m"
                      ["a.mp3"; "broken.mp3"; "C.WAV"]) ["x.mp3"])
  | Raise _ => False
  end.
Proof.
  pose proof (one_worker_at_a_time Demo.fs (Some "/m") (Some Demo.analyzer)
                None [] Demo.started Demo.started) as H.
  destruct H as (_ & Hclose & _ & _ & Hqueue & _);
    [vm_compute; reflexivity | reflexivity |].
  split; [exact (Hclose 1)|].
  destruct (set_directory Demo.fs (Some "/n") Demo.started) as [s'|e] eqn:Hs.
  - exact (proj1 (Hqueue Demo.fs "/n" ["x.mp3"] s' 0
                    (BPMAnalyzerThread.init (Some Demo.analyzer) "/m"
                       ["a.mp3"; "broken.mp3"; "C.WAV"])
                    ltac:(vm_compute; reflexivity)
                    ltac:(vm_compute; reflexivity)
                    ltac:(vm_compute; reflexivity) Hs)).
  - revert Hs. vm_compute. discriminate.
Defined.

(** C4 (the code departs from the claim). A persistent store holding 0
    for a listed file has that 0 promoted to the in-memory cache: the hit
    is written unchecked, where [update_track_bpm] tests [bpm > 0]. *)
Theorem promotion_caches_sentinel :
  match init Demo.fs (Some "/m") (Some Demo.analyzer) (Some Demo.zero_store) with
  | Ok s =>
      bpm_cache (dialog s) !! "/m/a.mp3" = Some 0%Q /\
      ~ cache_positive (dialog s)
  | Raise _ => False
  end.
Proof.
  vm_compute. split; [reflexivity|].
  intros H. specialize (H "/m/a.mp3" 0%Q eq_refl). discriminate.
Qed.

(** C5 (the claim as stated fails). A positive BPM stored for a file that
    is not in the track list is not written: the lookup of its path
    answers 0. *)
Lemma unlisted_store_is_not_looked_up :
  update_track_bpm Demo.empty_dialog "ghost.mp3" 120 = Ok Demo.empty_dialog /\
  get_cached_bpm Demo.empty_dialog (path_join "/m" "ghost.mp3") <> 120%Q.
Proof. vm_compute. split; [reflexivity | discriminate]. Qed.

(** C5, amended. For a file of the current track list and a BPM greater
    than 0, [update_track_bpm] writes the BPM to the in-memory cache under
    the file's path, and [get_cached_bpm] of that path then answers
    exactly it; the persistent store, present or not, is not consulted. *)
Theorem stored_bpm_is_looked_up (d : t) (file : string) (bpm : Q)
    (dir : string) :
  is_Some (track_items d !! file) -> (0 < bpm)%Q ->
  directory d = Some dir ->
  exists d',
    update_track_bpm d file bpm = Ok d' /\
    bpm_cache d' = <[path_join dir file := bpm]> (bpm_cache d) /\
    get_cached_bpm d' (path_join dir file) = bpm.
Proof.
  intros Hin Hpos Hdir.
  destruct (update_track_bpm_stored d file bpm dir Hin Hpos Hdir)
    as (d' & Hu & Hc & _).
  exists d'. split; [exact Hu|]. split; [exact Hc|].
  unfold get_cached_bpm. rewrite Hc, lookup_insert_eq. reflexivity.
Qed.

Lemma stored_bpm_is_looked_up_witness :
  exists d',
    update_track_bpm Demo.listing_dialog "a.mp3" (1279 # 10) = Ok d' /\
    bpm_cache d' = <["/m/a.mp3" := (1279 # 10)%Q]> (bpm_cache Demo.listing_dialog) /\
    get_cached_bpm d' "/m/a.mp3" = (1279 # 10)%Q.
Proof.
  apply (stored_bpm_is_looked_up Demo.listing_dialog "a.mp3" (1279 # 10) "/m").
  - exists "a". vm_compute. reflexivity.
  - reflexivity.
  - reflexivity.
Defined.

(** C6. When the analyzer answers a BPM that is not greater than 0 for a
    file, the step emits nothing for it and the worker goes on; left
    alone it emits the notifications of the files that follow and
    completes. The step leaves the dialog, hence its cache, and the queue
    of signals as they were; and [update_track_bpm] itself would not
    cache such a BPM. The persistent store is only ever read. *)
Theorem sentinel_result_is_skipped (th : BPMAnalyzerThread.t) (a : Analyzer)
    (file : string) (bpm : Q) (aux : list Z) :
  BPMAnalyzerThread.at_phase th = BPMAnalyzerThread.Looping ->
  BPMAnalyzerThread.running th = true ->
  BPMAnalyzerThread.file_list th !! BPMAnalyzerThread.cursor th = Some file ->
  BPMAnalyzerThread.audio_analyzer th = Some a ->
  analyze_file a (path_join (BPMAnalyzerThread.directory th) file)
  = Ok (bpm, aux) ->
  (bpm <= 0)%Q ->
  BPMAnalyzerThread.run_step th = (BPMAnalyzerThread.advance th, []) /\
  BPMAnalyzerThread.at_phase (BPMAnalyzerThread.advance th)
  = BPMAnalyzerThread.Looping /\
  signals (snd (BPMAnalyzerThread.run th))
  = flat_map (BPMAnalyzerThread.notification th)
      (drop (S (BPMAnalyzerThread.cursor th)) (BPMAnalyzerThread.file_list th))
    ++ [AnalysisCompleted] /\
  (forall s i, threads s !! i = Some th ->
     exists s', step (WorkerStep i) s = Ok s' /\
       dialog s' = dialog s /\ event_queue s' = event_queue s) /\
  (forall d, update_track_bpm d file bpm = Ok d).
Proof.
  intros Hph Hrun Hfile Ha Hbpm Hle.
  pose proof Hle as Hneg. apply bpm_gt0_false in Hneg.
  assert (Hp : BPMAnalyzerThread.process th file = []).
  { unfold BPMAnalyzerThread.process, BPMAnalyzerThread.analyze.
    rewrite Ha, Hbpm. cbn. rewrite Hneg. reflexivity. }
  assert (Hstep : BPMAnalyzerThread.run_step th
                  = (BPMAnalyzerThread.advance th, [])).
  { rewrite (run_step_file th file Hph Hrun Hfile), Hp. reflexivity. }
  repeat split.
  - exact Hstep.
  - exact Hph.
  - rewrite (run_signals_from th file Hph Hrun Hfile).
    unfold BPMAnalyzerThread.notification at 1. rewrite Hp. reflexivity.
  - intros s i Hth. cbn [step]. rewrite Hth, Hstep. eexists.
    split; [reflexivity|]. cbn. rewrite app_nil_r. split; reflexivity.
  - intros d. apply update_track_bpm_dropped. right. exact Hle.
Qed.

Lemma sentinel_result_is_skipped_witness :
  BPMAnalyzerThread.run_step (Demo.worker_after 1)
  = (BPMAnalyzerThread.advance (Demo.worker_after 1), []).
Proof.
  refine (proj1 (sentinel_result_is_skipped (Demo.worker_after 1)
                   Demo.analyzer "broken.mp3" 0%Q [] _ _ _ _ _ _));
    try reflexivity.
  discriminate.
Defined.

(** C9. When listing the dialog's directory raises [OSError],
    [populate_file_list] returns normally: the status label reports the
    error, the list and the track items are empty, and the workers, the
    dialog's reference to one, the queue of signals and the cache are as
    before: no worker is started. *)
Theorem unreadable_directory_is_reported (fs : FileSystem) (s : system)
    (dir msg : string) :
  directory (dialog s) = Some dir ->
  truthy dir = true -> isdir fs dir = true ->
  listdir fs dir = Raise (OSError msg) ->
  exists s',
    populate_file_list fs s = Ok s' /\
    status_label (dialog s') = ErrorAccessing (OSError msg) /\
    list_widget (dialog s') = [] /\
    track_items (dialog s') = ∅ /\
    threads s' = threads s /\
    analyzer_thread (dialog s') = analyzer_thread (dialog s) /\
    event_queue s' = event_queue s /\
    bpm_cache (dialog s') = bpm_cache (dialog s).
Proof.
  intros Hdir Ht Hd Hls. unfold populate_file_list.
  cbn [directory with_track_items with_list_widget].
  rewrite Hdir, Ht, Hd, Hls. cbn [andb].
  eexists. split; [reflexivity|]. repeat split.
Qed.

Lemma unreadable_directory_is_reported_witness :
  exists s',
    populate_file_list Demo.fs Demo.locked = Ok s' /\
    status_label (dialog s') = ErrorAccessing (OSError "Permission denied") /\
    list_widget (dialog s') = [] /\
    track_items (dialog s') = ∅ /\
    threads s' = threads Demo.locked /\
    analyzer_thread (dialog s') = analyzer_thread (dialog Demo.locked) /\
    event_queue s' = event_queue Demo.locked /\
    bpm_cache (dialog s') = bpm_cache (dialog Demo.locked).
Proof.
  apply (unreadable_directory_is_reported Demo.fs Demo.locked "/locked"
           "Permission denied");
    vm_compute; reflexivity.
Defined.

(** C10. A call of [update_track_bpm] for a file that is not a key of the
    track items, or with a BPM that is not greater than 0, returns the
    dialog unchanged: cache, labels, status and emitted signals are as
    before. Delivered from the queue, such a result is only removed from
    it. *)
Theorem unlisted_or_invalid_result_is_dropped (d : t) (file : string)
    (bpm : Q) :
  track_items d !! file = None \/ (bpm <= 0)%Q ->
  update_track_bpm d file bpm = Ok d /\
  (forall s rest,
     dialog s = d -> event_queue s = BpmAnalyzed file bpm :: rest ->
     deliver s = Ok (mk_system d (threads s) rest (stdout s))) /\
  (forall s, dialog s = d -> step (UpdateTrackBpm file bpm) s = Ok s).
Proof.
  intros H. pose proof (update_track_bpm_dropped d file bpm H) as Hu.
  split; [exact Hu|]. split.
  - intros s rest Hd Hq. unfold deliver. rewrite Hq, Hd, Hu. reflexivity.
  - intros s Hd. cbn [step]. rewrite Hd, Hu. cbn. subst d.
    destruct s. reflexivity.
Qed.

Lemma unlisted_or_invalid_result_is_dropped_witness :
  update_track_bpm Demo.listing_dialog "old.mp3" 120 = Ok Demo.listing_dialog.
Proof.
  refine (proj1 (unlisted_or_invalid_result_is_dropped Demo.listing_dialog
                   "old.mp3" 120 _)).
  left. vm_compute. reflexivity.
Defined.

End DialogClaims.

(** * Further properties of the worker *)

Section WorkerExtras.
Import BPMAnalyzerThread.

Implicit Types (th : t) (acts : list action).

Lemma completions_app (xs ys : list signal) :
  completions (xs ++ ys) = completions xs + completions ys.
Proof. unfold completions. rewrite List.filter_app, length_app. reflexivity. Qed.

Lemma completions_process th file : completions (signals (process th file)) = 0.
Proof.
  change (signals (process th file)) with (notification th file).
  destruct (notification_shape th file) as [-> | (bpm & _ & ->)]; reflexivity.
Qed.

Lemma act_signal a th file bpm :
  In (BpmAnalyzed file bpm) (signals (snd (act a th))) ->
  (0 < bpm)%Q /\ In file (file_list th).
Proof.
  destruct a; cbn [act snd]; try (intros []).
  unfold run_step. destruct (at_phase th); try (intros []).
  destruct (file_list th !! cursor th) as [f|] eqn:Hf.
  - destruct (negb (running th)); cbn [snd].
    + intros [H|[]]. discriminate.
    + change (signals (process th f)) with (notification th f).
      destruct (notification_shape th f) as [-> | (b & Hb & ->)]; [intros []|].
      intros [[= <- <-]|[]]. split; [exact Hb|].
      apply list_elem_of_In, list_elem_of_lookup. eauto.
  - cbn [snd]. intros [H|[]]. discriminate.
Qed.

(** X1. Whatever the schedule, a [bpm_analyzed] signal of the worker
    carries a BPM greater than 0 and the name of a file of its queue. *)
Theorem emitted_bpm_is_positive_and_queued acts : forall th file bpm,
  In (BpmAnalyzed file bpm) (signals (snd (exec acts th))) ->
  (0 < bpm)%Q /\ In file (file_list (fst (exec acts th))).
Proof.
  induction acts as [|a acts IH]; intros th file bpm; cbn [exec].
  - intros [].
  - pose proof (act_signal a th file bpm) as Hact.
    destruct (act_file_list a th) as [m0 H0].
    destruct (act a th) as [th1 effs1]. cbn [fst snd] in *.
    specialize (IH th1 file bpm).
    destruct (exec_file_list acts th1) as [m1 H1].
    destruct (exec acts th1) as [th2 effs2]. cbn [fst snd] in *.
    rewrite signals_app, in_app_iff. intros [Hin|Hin].
    + destruct (Hact Hin) as [Hpos Hq]. split; [exact Hpos|].
      rewrite H1, H0, !in_app_iff. auto.
    + exact (IH Hin).
Qed.

Lemma emitted_bpm_is_positive_and_queued_witness :
  (0 < 953 # 10)%Q /\
  In "c.wav" (file_list (fst (exec (repeat Tick 5) Demo.worker))).
Proof.
  apply (emitted_bpm_is_positive_and_queued (repeat Tick 5) Demo.worker
           "c.wav" (953 # 10)).
  vm_compute. right. left. reflexivity.
Defined.

(** X2. From a worker in its loop, whatever the schedule (steps, [stop()],
    [add_files]), [analysis_completed] is emitted exactly once if the
    loop has been left and not at all before that: never twice. *)
Theorem completed_once_when_loop_left acts : forall th,
  at_phase th = Looping ->
  completions (signals (snd (exec acts th)))
  = if decide (at_phase (fst (exec acts th)) = Looping) then 0 else 1.
Proof.
  induction acts as [|a acts IH]; intros th Hph; cbn [exec].
  - cbn [fst snd]. rewrite decide_True by exact Hph. reflexivity.
  - assert (Hact :
      (at_phase (fst (act a th)) = Looping /\
       completions (signals (snd (act a th))) = 0) \/
      (at_phase (fst (act a th)) <> Looping /\
       completions (signals (snd (act a th))) = 1)).
    { destruct a; cbn [act fst snd]; try (left; split; [exact Hph | reflexivity]).
      unfold run_step. rewrite Hph.
      destruct (file_list th !! cursor th) as [f|].
      - destruct (negb (running th)); cbn [fst snd].
        + right. split; [simpl; congruence | reflexivity].
        + left. split; [exact Hph | apply completions_process].
      - right. split; [simpl; congruence | reflexivity]. }
    destruct (act a th) as [th1 effs1]. cbn [fst snd] in Hact.
    destruct Hact as [[Hph1 Hc1] | [Hph1 Hc1]].
    + specialize (IH th1 Hph1).
      destruct (exec acts th1) as [th2 effs2]. cbn [fst snd] in *.
      rewrite signals_app, completions_app, Hc1, IH. reflexivity.
    + destruct (exec_after_loop acts th1 Hph1) as [Hnil Hend].
      destruct (exec acts th1) as [th2 effs2]. cbn [fst snd] in *. subst effs2.
      rewrite app_nil_r, Hc1, decide_False by exact Hend. reflexivity.
Qed.

Lemma completed_once_when_loop_left_witness :
  completions
    (signals (snd (exec [Tick; Stop; Tick; Tick; AddFiles ["z.mp3"]; Tick]
                     Demo.worker)))
  = 1.
Proof.
  exact (completed_once_when_loop_left
           [Tick; Stop; Tick; Tick; AddFiles ["z.mp3"]; Tick] Demo.worker
           eq_refl).
Defined.

Lemma exec_after_loop_cursor acts : forall th,
  at_phase th <> Looping -> cursor (fst (exec acts th)) = cursor th.
Proof.
  induction acts as [|a acts IH]; intros th Hph; cbn [exec]; [reflexivity|].
  assert (Hact : at_phase (fst (act a th)) <> Looping /\
                 cursor (fst (act a th)) = cursor th).
  { destruct a; cbn [act fst]; auto.
    unfold run_step. destruct (at_phase th) eqn:E; simpl; split; congruence. }
  destruct (act a th) as [th1 effs1]. cbn [fst] in Hact.
  destruct Hact as [Hph1 Hc1]. specialize (IH th1 Hph1).
  destruct (exec acts th1) as [th2 effs2]. cbn [fst] in *. congruence.
Qed.

(** X3. Files given to [add_files] once the worker has left its loop are
    never analysed, even while [isRunning()] still holds: whatever
    follows, the worker emits nothing more and its cursor does not
    move, though the files are in its list. *)
Theorem files_added_after_loop_are_lost th new_files acts :
  at_phase th <> Looping ->
  snd (exec (AddFiles new_files :: acts) th) = [] /\
  cursor (fst (exec (AddFiles new_files :: acts) th)) = cursor th /\
  exists more,
    file_list (fst (exec (AddFiles new_files :: acts) th))
    = file_list th ++ new_files ++ more.
Proof.
  intros Hph.
  destruct (exec_after_loop (AddFiles new_files :: acts) th Hph) as [Hnil _].
  split; [exact Hnil|]. split; [apply exec_after_loop_cursor; exact Hph|].
  cbn [exec act].
  destruct (exec_file_list acts (add_files th new_files)) as [more Hm].
  destruct (exec acts (add_files th new_files)) as [th2 effs2].
  cbn [fst] in *. exists more. rewrite Hm. cbn [add_files file_list].
  rewrite <- app_assoc. reflexivity.
Qed.

Lemma files_added_after_loop_are_lost_witness :
  isRunning (Demo.worker_after 5) = true /\
  snd (exec [AddFiles ["late.mp3"]; Tick; Tick; Tick] (Demo.worker_after 5))
  = [].
Proof.
  split; [reflexivity|].
  refine (proj1 (files_added_after_loop_are_lost (Demo.worker_after 5)
                   ["late.mp3"] [Tick; Tick; Tick] _)).
  vm_compute. discriminate.
Defined.

(** X4. A worker built without an analyzer analyses nothing: left alone
    it emits [analysis_completed] and no [bpm_analyzed] at all. *)
Theorem worker_without_analyzer_only_completes th :
  audio_analyzer th = None -> at_phase th = Looping -> running th = true ->
  snd (run th) = [Emit AnalysisCompleted].
Proof.
  intros Ha Hph Hrun. unfold run.
  assert (H : forall n th', audio_analyzer th' = None ->
            at_phase th' = Looping -> running th' = true ->
            length (file_list th') - cursor th' < n ->
            snd (exec (repeat Tick n) th') = [Emit AnalysisCompleted]).
  { clear. induction n as [|n IH]; intros th Ha Hph Hrun Hn; [lia|].
    cbn [repeat exec act].
    destruct (file_list th !! cursor th) as [file|] eqn:Hfile.
    - rewrite (run_step_file th file Hph Hrun Hfile).
      apply lookup_lt_Some in Hfile.
      assert (Hp : process th file = []).
      { unfold process, analyze. rewrite Ha. reflexivity. }
      rewrite Hp. specialize (IH (advance th) Ha Hph Hrun).
      destruct (exec (repeat Tick n) (advance th)) as [th2 effs2].
      cbn [snd app] in *. apply IH. simpl. lia.
    - rewrite (run_step_exhausted th Hph Hfile).
      destruct (exec_after_loop (repeat Tick n) (set_phase Returning th))
        as [Hnil _]; [simpl; congruence|].
      destruct (exec (repeat Tick n) _) as [th2 effs2].
      cbn [snd] in *. subst effs2. reflexivity. }
  apply H; [exact Ha | exact Hph | exact Hrun | lia].
Qed.

Lemma worker_without_analyzer_only_completes_witness :
  snd (run (init None "/m" ["a.mp3"; "c.wav"])) = [Emit AnalysisCompleted].
Proof.
  apply (worker_without_analyzer_only_completes
           (init None "/m" ["a.mp3"; "c.wav"])); reflexivity.
Defined.

Lemma act_keeps_stopped a th :
  running th = false -> running (fst (act a th)) = false.
Proof.
  intros Hr. destruct a; cbn [act fst].
  - rewrite run_step_running. exact Hr.
  - reflexivity.
  - exact Hr.
Qed.

(** X5. Cancellation is one-way: after [stop()] no step of the worker
    and no call of [stop] or [add_files] raises the flag again. *)
Theorem stop_is_final acts : forall th,
  running (fst (exec (Stop :: acts) th)) = false.
Proof.
  assert (H : forall acts th, running th = false ->
            running (fst (exec acts th)) = false).
  { clear. induction acts as [|a acts IH]; intros th Hr; cbn [exec];
      [exact Hr|].
    pose proof (act_keeps_stopped a th Hr) as H1.
    destruct (act a th) as [th1 effs1]. cbn [fst] in H1.
    specialize (IH th1 H1). destruct (exec acts th1). exact IH. }
  intros th. cbn [exec act]. specialize (H acts (stop th) eq_refl).
  destruct (exec acts (stop th)). exact H.
Qed.

End WorkerExtras.

(** * Further properties of the dialog *)

Section DialogExtras.
Import FileBrowserDialog.

Implicit Types (d : t) (file : string) (bpm : Q).

Lemma contains_append_r (needle a b : string) :
  contains needle b = true -> contains needle (a +:+ b) = true.
Proof.
  intros Hb. induction a as [|c a IH]; [exact Hb|].
  change (contains needle (String c (a +:+ b)) = true).
  cbn [contains]. rewrite IH. apply orb_true_r.
Qed.

Lemma label_contains_bpm (base : string) bpm :
  contains "BPM" (base +:+ bpm_suffix bpm) = true.
Proof.
  unfold bpm_suffix. do 3 apply contains_append_r. reflexivity.
Qed.

(** What a result that passes the guard of line 353 does, field by field. *)
Lemma update_track_bpm_fields d file bpm dir :
  is_Some (track_items d !! file) -> (0 < bpm)%Q ->
  directory d = Some dir ->
  exists d',
    update_track_bpm d file bpm = Ok d' /\
    track_items d'
    = <[file := splitext_root file +:+ bpm_suffix bpm]> (track_items d) /\
    bpm_cache d' = <[path_join dir file := bpm]> (bpm_cache d) /\
    list_widget d' = list_widget d /\
    bpm_analyzed d' = bpm_analyzed d ++ [(path_join dir file, bpm)] /\
    directory d' = Some dir /\
    status_label d'
    = (let items :=
         <[file := splitext_root file +:+ bpm_suffix bpm]> (track_items d) in
       let total := size items in
       let analyzed :=
         size (filter (fun kv => contains "BPM" (snd kv) = true) items) in
       if 0 <? total - analyzed
       then AnalyzingProgress analyzed (total - analyzed)
       else AllTracksAnalyzed total).
Proof.
  intros Hin Hpos Hdir. unfold update_track_bpm.
  rewrite bool_decide_eq_true_2 by exact Hin.
  apply bpm_gt0_spec in Hpos. rewrite Hpos, Hdir. cbn [andb].
  eexists. split; [reflexivity|].
  cbv zeta.
  cbn [track_items bpm_cache with_track_items with_bpm_cache].
  destruct (0 <? _); repeat split; assumption.
Qed.

(** X6. A result that is stored touches nothing but its own file: the
    keys of the track items and their number, the other labels, the
    cache entries of other paths and the rows are as before; the file's
    label becomes its name without extension followed by the BPM. *)
Theorem update_track_bpm_frame d file bpm dir :
  is_Some (track_items d !! file) -> (0 < bpm)%Q ->
  directory d = Some dir ->
  exists d',
    update_track_bpm d file bpm = Ok d' /\
    track_items d' !! file = Some (splitext_root file +:+ bpm_suffix bpm) /\
    (forall other, other <> file ->
       track_items d' !! other = track_items d !! other) /\
    size (track_items d') = size (track_items d) /\
    (forall path, path <> path_join dir file ->
       get_cached_bpm d' path = get_cached_bpm d path) /\
    list_widget d' = list_widget d.
Proof.
  intros Hin Hpos Hdir.
  destruct (update_track_bpm_fields d file bpm dir Hin Hpos Hdir)
    as (d' & Hu & Ht & Hc & Hl & _).
  exists d'. split; [exact Hu|]. rewrite Ht. repeat split.
  - apply lookup_insert_eq.
  - intros other Hne. apply lookup_insert_ne. congruence.
  - apply map_size_insert_Some. exact Hin.
  - intros path Hne. unfold get_cached_bpm. rewrite Hc.
    rewrite lookup_insert_ne by congruence. reflexivity.
  - exact Hl.
Qed.

Lemma update_track_bpm_frame_witness :
  exists d',
    update_track_bpm Demo.listing_dialog "a.mp3" 120 = Ok d' /\
    track_items d' !! "a.mp3" = Some "a (120 BPM)".
Proof.
  destruct (update_track_bpm_frame Demo.listing_dialog "a.mp3" 120 "/m")
    as (d' & Hu & Hl & _).
  - exists "a". vm_compute. reflexivity.
  - reflexivity.
  - reflexivity.
  - exists d'. split; [exact Hu | exact Hl].
Defined.

(** X7. Two results for the same listed file: both are stored and sent
    on, in order, and the lookup answers the later one. *)
Theorem update_track_bpm_last_wins d file (bpm1 bpm2 : Q) dir :
  is_Some (track_items d !! file) -> (0 < bpm1)%Q -> (0 < bpm2)%Q ->
  directory d = Some dir ->
  exists d1 d2,
    update_track_bpm d file bpm1 = Ok d1 /\
    update_track_bpm d1 file bpm2 = Ok d2 /\
    get_cached_bpm d2 (path_join dir file) = bpm2 /\
    bpm_cache d2 = <[path_join dir file := bpm2]> (bpm_cache d) /\
    bpm_analyzed d2
    = bpm_analyzed d ++ [(path_join dir file, bpm1); (path_join dir file, bpm2)].
Proof.
  intros Hin H1 H2 Hdir.
  destruct (update_track_bpm_fields d file bpm1 dir Hin H1 Hdir)
    as (d1 & Hu1 & Ht1 & Hc1 & _ & Ha1 & Hd1 & _).
  assert (Hin1 : is_Some (track_items d1 !! file)).
  { rewrite Ht1, lookup_insert_eq. eauto. }
  destruct (update_track_bpm_fields d1 file bpm2 dir Hin1 H2 Hd1)
    as (d2 & Hu2 & _ & Hc2 & _ & Ha2 & _).
  exists d1, d2. split; [exact Hu1|]. split; [exact Hu2|].
  assert (Hc : bpm_cache d2 = <[path_join dir file := bpm2]> (bpm_cache d)).
  { rewrite Hc2, Hc1. apply insert_insert_eq. }
  split; [|split; [exact Hc|]].
  - unfold get_cached_bpm. rewrite Hc, lookup_insert_eq. reflexivity.
  - rewrite Ha2, Ha1, <- app_assoc. reflexivity.
Qed.

Lemma update_track_bpm_last_wins_witness :
  exists d1 d2,
    update_track_bpm Demo.listing_dialog "a.mp3" 120 = Ok d1 /\
    update_track_bpm d1 "a.mp3" (1279 # 10) = Ok d2 /\
    get_cached_bpm d2 "/m/a.mp3" = (1279 # 10)%Q.
Proof.
  destruct (update_track_bpm_last_wins Demo.listing_dialog "a.mp3" 120
              (1279 # 10) "/m")
    as (d1 & d2 & H1 & H2 & H3 & _).
  - exists "a". vm_compute. reflexivity.
  - reflexivity.
  - reflexivity.
  - reflexivity.
  - exists d1, d2. auto.
Defined.

(** X8. The status written by a stored result: the tracks counted as
    done (those whose label holds "BPM") and those remaining add up to
    the number of track items, the file just analysed is among the
    done, and "all analyzed" is shown exactly when none remains. *)
Theorem update_track_bpm_progress d file bpm dir :
  is_Some (track_items d !! file) -> (0 < bpm)%Q ->
  directory d = Some dir ->
  exists d',
    update_track_bpm d file bpm = Ok d' /\
    ((exists done remaining,
        status_label d' = AnalyzingProgress done remaining /\
        1 <= done /\ 1 <= remaining /\
        done + remaining = size (track_items d)) \/
     (status_label d' = AllTracksAnalyzed (size (track_items d)) /\
      forall f label, track_items d' !! f = Some label ->
        contains "BPM" label = true)).
Proof.
  intros Hin Hpos Hdir.
  destruct (update_track_bpm_fields d file bpm dir Hin Hpos Hdir)
    as (d' & Hu & Ht & _ & _ & _ & _ & Hs).
  exists d'. split; [exact Hu|].
  assert (Hsize : size (track_items d') = size (track_items d)).
  { rewrite Ht. apply map_size_insert_Some. exact Hin. }
  set (P := fun kv : string * string => contains "BPM" (snd kv) = true) in *.
  assert (Hle : size (filter P (track_items d')) <= size (track_items d')).
  { apply map_subseteq_size, map_filter_subseteq. }
  assert (Hone : 1 <= size (filter P (track_items d'))).
  { assert (Hne : size (filter P (track_items d')) <> 0).
    { apply (map_size_ne_0_lookup_2 _ file).
      exists (splitext_root file +:+ bpm_suffix bpm).
      apply map_lookup_filter_Some. split.
      - rewrite Ht. apply lookup_insert_eq.
      - apply label_contains_bpm. }
    lia. }
  cbv zeta in Hs. rewrite <- Ht in Hs. rewrite Hs.
  destruct (0 <? _) eqn:Hrem.
  - left. apply Nat.ltb_lt in Hrem. eexists _, _. split; [reflexivity|]. lia.
  - right. apply Nat.ltb_ge in Hrem. rewrite Hsize. split; [reflexivity|].
    intros f label Hf.
    assert (Heq : filter P (track_items d') = track_items d').
    { apply map_subseteq_size_eq; [apply map_filter_subseteq | lia]. }
    rewrite <- Heq in Hf. apply map_lookup_filter_Some in Hf as [_ Hp].
    exact Hp.
Qed.

Lemma update_track_bpm_progress_witness :
  exists d',
    update_track_bpm Demo.listing_dialog "a.mp3" 120 = Ok d' /\
    status_label d' = AllTracksAnalyzed 1.
Proof.
  destruct (update_track_bpm_progress Demo.listing_dialog "a.mp3" 120 "/m")
    as (d' & Hu & Hs).
  - exists "a". vm_compute. reflexivity.
  - reflexivity.
  - reflexivity.
  - exists d'. split; [exact Hu|].
    revert Hu Hs. vm_compute. intros [= <-]. reflexivity.
Defined.

End DialogExtras.

(** * Further properties of the listing and of the system *)

Section SystemExtras.
Import FileBrowserDialog.

Implicit Types (s : system) (fs : FileSystem) (d : t) (file : string).

Local Abbreviation isRunning := BPMAnalyzerThread.isRunning.

(** One iteration of the scan loop, field by field: [hit] is what the
    persistent store answers, [v] the BPM the iteration settles on. *)
Lemma scan_file_fields dir dir0 d loc file d' loc' :
  directory d = Some dir0 ->
  scan_file dir (d, loc) file = Ok (d', loc') ->
  let path := path_join dir file in
  exists hit, check_persistent d path = Ok hit /\
  let cache1 :=
    match hit with
    | Some q => <[path := q]> (bpm_cache d)
    | None => bpm_cache d
    end in
  let v0 := default 0%Q hit in
  let v := if bpm_eq0 v0 then default 0%Q (cache1 !! path) else v0 in
  let base_name := splitext_root (basename file) in
  bpm_cache d' = cache1 /\
  list_widget d' = list_widget d ++ [path_join dir0 file] /\
  track_items d'
  = <[file := if bpm_gt0 v then base_name +:+ bpm_suffix v else base_name]>
      (track_items d) /\
  bpm_analyzed d' = bpm_analyzed d /\
  status_label d' = status_label d /\
  files_to_analyze loc'
  = files_to_analyze loc ++ (if bpm_gt0 v then [] else [file]) /\
  cached_from_persistent loc'
  = cached_from_persistent loc + (match hit with Some _ => 1 | None => 0 end) /\
  cached_from_memory loc'
  = cached_from_memory loc + (if bpm_eq0 v0 && bpm_gt0 v then 1 else 0).
Proof.
  intros Hdir. unfold scan_file. cbv zeta.
  destruct (check_persistent d (path_join dir file)) as [[q|]|e];
    cbn [mbind outcome_bind]; [| |discriminate].
  - intros Hscan. exists (Some q). split; [reflexivity|]. revert Hscan.
    change (default 0%Q (Some q)) with q.
    destruct (bpm_eq0 q) eqn:He.
    + destruct (bpm_gt0 (default 0%Q (_ !! path_join dir file))) eqn:Hg;
        unfold add_track_to_list; cbn [directory with_bpm_cache bpm_cache] in *;
        rewrite Hdir; cbn [mbind outcome_bind]; intros [= <- <-];
        cbn [bpm_cache list_widget track_items bpm_analyzed status_label
             with_track_items with_list_widget with_bpm_cache
             files_to_analyze cached_from_persistent cached_from_memory
             andb];
        rewrite ?He; cbn [andb]; rewrite ?Hg, ?app_nil_r; repeat split;
        first [reflexivity | lia].
    + destruct (bpm_gt0 q) eqn:Hg;
        unfold add_track_to_list; cbn [directory with_bpm_cache bpm_cache] in *;
        rewrite Hdir; cbn [mbind outcome_bind]; intros [= <- <-];
        cbn [bpm_cache list_widget track_items bpm_analyzed status_label
             with_track_items with_list_widget with_bpm_cache
             files_to_analyze cached_from_persistent cached_from_memory
             andb];
        rewrite ?He; cbn [andb]; rewrite ?Hg, ?app_nil_r; repeat split;
        first [reflexivity | lia].
  - intros Hscan. exists None. split; [reflexivity|]. revert Hscan.
    change (default 0%Q (@None Q)) with 0%Q.
    change (bpm_eq0 0%Q) with true. cbn iota.
    destruct (bpm_gt0 (default 0%Q (_ !! path_join dir file))) eqn:Hg;
      unfold add_track_to_list; rewrite Hdir; cbn [mbind outcome_bind];
      intros [= <- <-];
      cbn [bpm_cache list_widget track_items bpm_analyzed status_label
           with_track_items with_list_widget with_bpm_cache
           files_to_analyze cached_from_persistent cached_from_memory
           andb];
      rewrite ?He; cbn [andb]; rewrite ?Hg, ?app_nil_r; repeat split;
        first [reflexivity | lia].
Qed.

Lemma bpm_gt0_not_eq0 (q : Q) : bpm_gt0 q = true -> bpm_eq0 q = false.
Proof.
  unfold bpm_gt0, bpm_eq0. rewrite Z.ltb_lt, Z.eqb_neq. lia.
Qed.

Lemma check_persistent_positive d path q :
  store_positive d -> check_persistent d path = Ok (Some q) -> (0 < q)%Q.
Proof.
  intros Hs. unfold check_persistent.
  destruct (cache_manager d) as [cm|] eqn:Hcm; [|discriminate].
  destruct (get_bpm_data cm path) as [[[[q'|] beats]|]|e] eqn:Hg;
    try discriminate.
  cbn. intros [= <-]. exact (Hs cm path q' beats Hcm Hg).
Qed.

Lemma check_persistent_wiring d d' path :
  same_wiring d d' -> check_persistent d' path = check_persistent d path.
Proof.
  intros (_ & _ & Hcm & _). unfold check_persistent. rewrite Hcm. reflexivity.
Qed.

(** The rows and the keys of the track items after the scan loop. *)
Lemma scan_files_rows dir dir0 files : forall d loc d' loc',
  directory d = Some dir0 ->
  scan_files dir (d, loc) files = Ok (d', loc') ->
  list_widget d' = list_widget d ++ map (path_join dir0) files /\
  (forall f, is_Some (track_items d' !! f) <->
             is_Some (track_items d !! f) \/ In f files) /\
  bpm_analyzed d' = bpm_analyzed d /\
  status_label d' = status_label d.
Proof.
  induction files as [|file files IH]; intros d loc d' loc' Hdir;
    cbn [scan_files].
  - intros [= <- <-]. rewrite app_nil_r. repeat split; try tauto.
    intros [H|[]]. exact H.
  - destruct (scan_file dir (d, loc) file) as [[d1 loc1]|] eqn:Hs;
      [|discriminate].
    cbn [mbind outcome_bind]. intros Hrest.
    pose proof (scan_file_inv _ _ _ _ _ _ Hs) as [(Hd1 & _) _].
    pose proof (scan_file_fields _ _ _ _ _ _ _ Hdir Hs)
      as (hit & _ & _ & Hl & Ht & Ha & Hst & _).
    rewrite Hdir in Hd1.
    destruct (IH d1 loc1 d' loc' Hd1 Hrest) as (Hl' & Ht' & Ha' & Hst').
    split; [|split; [|split]].
    + rewrite Hl', Hl, <- app_assoc. reflexivity.
    + intros f. rewrite Ht', Ht. cbn [In].
      destruct (decide (file = f)) as [->|Hne].
      * rewrite lookup_insert_eq. split; [auto | eauto].
      * rewrite lookup_insert_ne by exact Hne. split.
        -- intros [H|H]; auto.
        -- intros [H|[H|H]]; auto. congruence.
    + congruence.
    + congruence.
Qed.

(** The counters of the scan loop: each file adds at least one to
    "cached" plus "to analyse", and exactly one when the persistent store
    only answers positive BPMs. *)
Lemma scan_files_counts dir dir0 files : forall d loc d' loc',
  directory d = Some dir0 ->
  scan_files dir (d, loc) files = Ok (d', loc') ->
  let total l :=
    cached_from_persistent l + cached_from_memory l
    + length (files_to_analyze l) in
  total loc + length files <= total loc' /\
  (store_positive d -> total loc' = total loc + length files).
Proof.
  induction files as [|file files IH]; intros d loc d' loc' Hdir;
    cbn [scan_files].
  - intros [= <- <-]. cbn. split; intros; lia.
  - destruct (scan_file dir (d, loc) file) as [[d1 loc1]|] eqn:Hs;
      [|discriminate].
    cbn [mbind outcome_bind]. intros Hrest.
    pose proof (scan_file_inv _ _ _ _ _ _ Hs) as [Hw _].
    pose proof Hw as (Hd1 & _ & Hcm & _).
    pose proof (scan_file_fields _ _ _ _ _ _ _ Hdir Hs)
      as (hit & Hhit & _ & _ & _ & _ & _ & Hq & Hp & Hm).
    rewrite Hdir in Hd1.
    destruct (IH d1 loc1 d' loc' Hd1 Hrest) as [Hge Heq].
    cbv zeta in *. cbn [length].
    rewrite Hq, Hp, Hm, length_app in *.
    destruct hit as [q|].
    + change (default 0%Q (Some q)) with q in *. split.
      * destruct (bpm_eq0 q), (bpm_gt0 _); cbn [andb length] in *; lia.
      * intros Hstore.
        pose proof (check_persistent_positive d _ q Hstore Hhit) as Hpos.
        apply bpm_gt0_spec in Hpos.
        rewrite (bpm_gt0_not_eq0 q Hpos), Hpos in *. cbn [andb length] in *.
        rewrite Heq; [lia|].
        intros cm path bpm beats Hc. apply Hstore. congruence.
    + change (default 0%Q (@None Q)) with 0%Q in *.
      change (bpm_eq0 0%Q) with true in *. cbn [andb] in *. split.
      * destruct (bpm_gt0 _); cbn [length] in *; lia.
      * intros Hstore.
        rewrite Heq by (intros cm path bpm beats Hc; apply Hstore; congruence).
        destruct (bpm_gt0 _); cbn [length] in *; lia.
Qed.

Lemma dispatch_fields s dir files :
  let d' := dialog (dispatch s dir files) in
  track_items d' = track_items (dialog s) /\
  bpm_cache d' = bpm_cache (dialog s) /\
  list_widget d' = list_widget (dialog s) /\
  bpm_analyzed d' = bpm_analyzed (dialog s) /\
  message_boxes d' = message_boxes (dialog s) /\
  status_label d'
  = match files, audio_analyzer (dialog s) with
    | _ :: _, Some _ => status_label (dialog s)
    | _, _ => AnalysisComplete
    end.
Proof.
  unfold dispatch. destruct files as [|file files]; [repeat split|].
  destruct (audio_analyzer (dialog s)); [|repeat split].
  destruct (running_thread s) as [[i th]|]; repeat split.
Qed.

Lemma populate_listing fs s dir names :
  directory (dialog s) = Some dir ->
  truthy dir = true -> isdir fs dir = true ->
  listdir fs dir = Ok names ->
  List.filter is_audio names <> [] ->
  store_answers (dialog s) dir (List.filter is_audio names) ->
  exists d1 loc1,
    scan_files dir
      (with_track_items ∅ (with_list_widget [] (dialog s)), mk_scan [] 0 0)
      (List.filter is_audio names) = Ok (d1, loc1) /\
    populate_file_list fs s
    = Ok (dispatch (with_dialog (setText (scan_status loc1) d1) s) dir
            (files_to_analyze loc1)).
Proof.
  intros Hdir Ht Hd Hls Hne Hans.
  rewrite (populate_unfold fs s dir names Hdir Ht Hd Hls Hne).
  destruct (scan_files_ok dir (List.filter is_audio names)
              (with_track_items ∅ (with_list_widget [] (dialog s)))
              (mk_scan [] 0 0) dir Hdir Hans) as [[d1 loc1] Hscan].
  exists d1, loc1. rewrite Hscan. split; reflexivity.
Qed.

(** X9. When the directory can be listed and the persistent store, if
    there is one, answers without raising for the audio files of the
    listing, [populate_file_list] returns and the list shows one row per
    audio file of the listing, in listing order, wired to the file's
    path under the directory, and the track items have exactly these
    files as keys: the extension decides, letter case apart. *)
Theorem populate_lists_audio_files fs s dir names :
  directory (dialog s) = Some dir ->
  truthy dir = true -> isdir fs dir = true ->
  listdir fs dir = Ok names ->
  store_answers (dialog s) dir (List.filter is_audio names) ->
  exists s',
    populate_file_list fs s = Ok s' /\
    list_widget (dialog s')
    = map (path_join dir) (List.filter is_audio names) /\
    (forall f, is_Some (track_items (dialog s') !! f) <->
               In f names /\ is_audio f = true).
Proof.
  intros Hdir Ht Hd Hls Hans.
  destruct (List.filter is_audio names) as [|file files] eqn:Hf.
  - unfold populate_file_list.
    cbn [directory with_track_items with_list_widget].
    rewrite Hdir, Ht, Hd, Hls, Hf. cbn [andb].
    eexists. split; [reflexivity|]. split; [reflexivity|].
    intros f. cbn. rewrite lookup_empty. split.
    + intros [x Hx]. discriminate.
    + intros Hin. apply filter_In in Hin. rewrite Hf in Hin. destruct Hin.
  - destruct (populate_listing fs s dir names Hdir Ht Hd Hls)
      as (d1 & loc1 & Hscan & ->);
      [rewrite Hf; discriminate | rewrite Hf; exact Hans |].
    rewrite Hf in *. eexists. split; [reflexivity|].
    destruct (dispatch_fields (with_dialog (setText (scan_status loc1) d1) s)
                dir (files_to_analyze loc1)) as (Hti & _ & Hlw & _).
    cbv zeta in Hti, Hlw. rewrite Hti, Hlw.
    destruct (scan_files_rows dir dir (file :: files)
                (with_track_items ∅ (with_list_widget [] (dialog s)))
                _ _ _ Hdir Hscan) as (Hl & Hk & _).
    cbn [dialog with_dialog list_widget track_items setText]. split.
    + rewrite Hl. reflexivity.
    + intros f. rewrite Hk. cbn [track_items with_track_items].
      rewrite lookup_empty, <- Hf, filter_In. split.
      * intros [[x Hx]|H]; [discriminate | exact H].
      * auto.
Qed.

Lemma populate_lists_audio_files_witness :
  exists s',
    populate_file_list Demo.fs Demo.store_system = Ok s' /\
    list_widget (dialog s') = ["/m/a.mp3"; "/m/broken.mp3"; "/m/C.WAV"].
Proof.
  destruct (populate_lists_audio_files Demo.fs Demo.store_system "/m"
              ["a.mp3"; "notes.txt"; "broken.mp3"; "C.WAV"])
    as (s' & Hp & Hl & _); try reflexivity.
  - intros file _. unfold check_persistent.
    cbn [cache_manager dialog Demo.store_system Demo.store_dialog
         get_bpm_data Demo.store].
    destruct (String.eqb _ _); eexists; reflexivity.
  - exists s'. split; [exact Hp | exact Hl].
Defined.

(** X10. With a persistent store that only answers positive BPMs, the
    numbers of the status add up: "c tracks ready, analyzing n more" has
    c + n equal to the number of audio files listed, and "Analyzing n
    tracks" has n equal to it. *)
Theorem populate_status_adds_up fs s dir names s' :
  directory (dialog s) = Some dir ->
  truthy dir = true -> isdir fs dir = true ->
  listdir fs dir = Ok names ->
  store_positive (dialog s) ->
  populate_file_list fs s = Ok s' ->
  (forall c n, status_label (dialog s') = TracksReadyAnalyzing c n ->
     1 <= c /\ 1 <= n /\ c + n = length (List.filter is_audio names)) /\
  (forall n, status_label (dialog s') = AnalyzingTracks n ->
     1 <= n /\ n = length (List.filter is_audio names)).
Proof.
  intros Hdir Ht Hd Hls Hstore Hpop.
  destruct (List.filter is_audio names) as [|file files] eqn:Hf.
  - revert Hpop. unfold populate_file_list.
    cbn [directory with_track_items with_list_widget].
    rewrite Hdir, Ht, Hd, Hls, Hf. cbn [andb]. intros [= <-].
    split; intros; discriminate.
  - destruct (populate_scanned fs s s' dir names Hdir Ht Hd Hls)
      as (d1 & loc1 & Hscan & ->); [rewrite Hf; discriminate | exact Hpop |].
    rewrite Hf in Hscan.
    destruct (dispatch_fields (with_dialog (setText (scan_status loc1) d1) s)
                dir (files_to_analyze loc1)) as (_ & _ & _ & _ & _ & Hst).
    cbv zeta in Hst. rewrite Hst. clear Hst.
    destruct (scan_files_counts dir dir (file :: files)
                (with_track_items ∅ (with_list_widget [] (dialog s)))
                _ _ _ Hdir Hscan) as [_ Heq].
    specialize (Heq Hstore). cbn in Heq.
    cbn [dialog with_dialog status_label setText audio_analyzer].
    assert (Hstatus : forall st,
      match files_to_analyze loc1, audio_analyzer d1 with
      | _ :: _, Some _ => scan_status loc1
      | _, _ => AnalysisComplete
      end = st ->
      files_to_analyze loc1 <> [] /\ scan_status loc1 = st \/
      st = AnalysisComplete).
    { intros st. destruct (files_to_analyze loc1); [auto|].
      destruct (audio_analyzer d1); [|auto]. left. split; [discriminate|auto]. }
    split.
    + intros c n Hs. apply Hstatus in Hs as [[Hne Hs]|]; [|discriminate].
      unfold scan_status in Hs.
      destruct (0 <? _) eqn:Hc; [|discriminate].
      destruct (files_to_analyze loc1) as [|f q] eqn:Hq; [congruence|].
      injection Hs as <- <-. apply Nat.ltb_lt in Hc. cbn [length] in *. lia.
    + intros n Hs. apply Hstatus in Hs as [[Hne Hs]|]; [|discriminate].
      unfold scan_status in Hs.
      destruct (0 <? _) eqn:Hc.
      * destruct (files_to_analyze loc1); discriminate.
      * injection Hs as <-. apply Nat.ltb_ge in Hc.
        destruct (files_to_analyze loc1) as [|f q] eqn:Hq; [congruence|].
        cbn [length] in *. lia.
Qed.

Lemma populate_status_adds_up_witness :
  1 <= 1 /\ 1 <= 2 /\
  1 + 2 = length (List.filter is_audio
                    ["a.mp3"; "notes.txt"; "broken.mp3"; "C.WAV"]).
Proof.
  destruct (populate_file_list Demo.fs Demo.store_system) as [s'|e] eqn:Hp.
  - refine (proj1 (populate_status_adds_up Demo.fs Demo.store_system "/m"
                     ["a.mp3"; "notes.txt"; "broken.mp3"; "C.WAV"] s'
                     eq_refl eq_refl eq_refl eq_refl _ Hp) 1 2 _).
    + intros cm path bpm beats [= <-]. cbn [get_bpm_data Demo.store].
      destruct (String.eqb path "/m/a.mp3"); [|discriminate].
      intros [= <- _]. reflexivity.
    + revert Hp. vm_compute. intros [= <-]. reflexivity.
  - exfalso. revert Hp. vm_compute. discriminate.
Defined.

(** X11. Whatever the listing and the cache, [populate_file_list] leaves
    one of six statuses; "All n tracks ready!" is not among them: when
    nothing is to be analysed, or no analyzer is there, the status set
    from the counters is replaced at once by "Analysis complete!". *)
Theorem populate_status_is_one_of_six fs s s' :
  populate_file_list fs s = Ok s' ->
  match status_label (dialog s') with
  | NoValidDirectory | ErrorAccessing _ | NoCompatibleTracks
  | TracksReadyAnalyzing _ _ | AnalyzingTracks _ | AnalysisComplete => True
  | _ => False
  end.
Proof.
  unfold populate_file_list.
  set (d0 := with_track_items ∅ (with_list_widget [] (dialog s))).
  destruct (directory d0) as [dir|] eqn:Hdir; [|intros [= <-]; exact I].
  destruct (truthy dir && isdir fs dir); [|intros [= <-]; exact I].
  destruct (listdir fs dir) as [names|e].
  - destruct (List.filter is_audio names) as [|file files];
      [intros [= <-]; exact I|].
    destruct (scan_files dir (d0, mk_scan [] 0 0) (file :: files))
      as [[d1 loc1]|]; [|discriminate].
    cbn [mbind outcome_bind]. intros [= <-].
    destruct (dispatch_fields (with_dialog (setText (scan_status loc1) d1) s)
                dir (files_to_analyze loc1)) as (_ & _ & _ & _ & _ & Hst).
    cbv zeta in Hst. rewrite Hst.
    destruct (files_to_analyze loc1) as [|f q] eqn:Hq; [exact I|].
    destruct (audio_analyzer _); [|exact I].
    cbn [dialog with_dialog status_label setText].
    unfold scan_status. rewrite Hq. destruct (0 <? _); exact I.
  - destruct e; try discriminate. intros [= <-]. exact I.
Qed.

Lemma populate_status_is_one_of_six_witness :
  match populate_file_list Demo.fs Demo.started with
  | Ok s' => status_label (dialog s') = AnalyzingTracks 3
  | Raise _ => False
  end.
Proof.
  pose proof (populate_status_is_one_of_six Demo.fs Demo.started) as H.
  destruct (populate_file_list Demo.fs Demo.started) as [s'|e] eqn:Hp.
  - specialize (H s' eq_refl). revert Hp H. vm_compute. intros [= <-] _.
    reflexivity.
  - revert Hp. vm_compute. discriminate.
Defined.

(** X12. [populate_file_list] starts a worker, or extends the queue of
    the running one, only if the directory could be listed, holds an
    audio file, and an analyzer is there: in every other case the workers
    are left exactly as they were. *)
Theorem populate_touches_workers_only_when_needed fs s s' :
  populate_file_list fs s = Ok s' ->
  threads s' <> threads s ->
  exists dir names a,
    directory (dialog s) = Some dir /\
    truthy dir = true /\ isdir fs dir = true /\
    listdir fs dir = Ok names /\
    List.filter is_audio names <> [] /\
    audio_analyzer (dialog s) = Some a.
Proof.
  unfold populate_file_list.
  set (d0 := with_track_items ∅ (with_list_widget [] (dialog s))).
  destruct (directory d0) as [dir|] eqn:Hdir;
    [|intros [= <-] Hne; exfalso; apply Hne; reflexivity].
  destruct (truthy dir) eqn:Ht;
    [|intros [= <-] Hne; exfalso; apply Hne; reflexivity].
  destruct (isdir fs dir) eqn:Hd;
    [|intros [= <-] Hne; exfalso; apply Hne; reflexivity].
  cbn [andb].
  destruct (listdir fs dir) as [names|e] eqn:Hls.
  - destruct (List.filter is_audio names) as [|file files] eqn:Hf;
      [intros [= <-] Hne; exfalso; apply Hne; reflexivity|].
    destruct (scan_files dir (d0, mk_scan [] 0 0) (file :: files))
      as [[d1 loc1]|] eqn:Hscan; [|discriminate].
    cbn [mbind outcome_bind]. intros [= <-] Hne.
    apply scan_files_inv in Hscan as [(_ & Ha & _) _].
    destruct (audio_analyzer (dialog s)) as [a|] eqn:Haa.
    + exists dir, names, a. rewrite Hf.
      repeat split; first [assumption | exact Hdir | discriminate].
    + exfalso. apply Hne. unfold dispatch.
      cbn [dialog with_dialog audio_analyzer setText].
      change (audio_analyzer d0) with (audio_analyzer (dialog s)) in Ha.
      rewrite Ha, Haa. destruct (files_to_analyze loc1); reflexivity.
  - destruct e; try discriminate.
    intros [= <-] Hne. exfalso. apply Hne. reflexivity.
Qed.

Lemma populate_touches_workers_only_when_needed_witness :
  exists dir names a,
    directory (dialog Demo.started) = Some dir /\
    truthy dir = true /\ isdir Demo.fs dir = true /\
    listdir Demo.fs dir = Ok names /\
    List.filter is_audio names <> [] /\
    audio_analyzer (dialog Demo.started) = Some a.
Proof.
  destruct (populate_file_list Demo.fs Demo.started) as [s'|e] eqn:Hp.
  - apply (populate_touches_workers_only_when_needed Demo.fs Demo.started s' Hp).
    revert Hp. vm_compute. intros [= <-]. discriminate.
  - exfalso. revert Hp. vm_compute. discriminate.
Defined.







(** Without a persistent store, and with no positive BPM in the cache
    for any of the files, the scan queues every file and leaves the cache
    and the counters alone. *)
Lemma scan_files_all_queued dir dir0 files : forall d loc d' loc',
  directory d = Some dir0 -> cache_manager d = None ->
  (forall f, In f files ->
     bpm_gt0 (default 0%Q (bpm_cache d !! path_join dir f)) = false) ->
  scan_files dir (d, loc) files = Ok (d', loc') ->
  files_to_analyze loc' = files_to_analyze loc ++ files /\
  bpm_cache d' = bpm_cache d /\
  cached_from_persistent loc' = cached_from_persistent loc /\
  cached_from_memory loc' = cached_from_memory loc.
Proof.
  induction files as [|file files IH]; intros d loc d' loc' Hdir Hcm Hcold;
    cbn [scan_files].
  - intros [= <- <-]. rewrite app_nil_r. auto.
  - destruct (scan_file dir (d, loc) file) as [[d1 loc1]|] eqn:Hs;
      [|discriminate].
    cbn [mbind outcome_bind]. intros Hrest.
    pose proof (scan_file_inv _ _ _ _ _ _ Hs) as [(Hd1 & _ & Hcm1 & _) _].
    pose proof (scan_file_fields _ _ _ _ _ _ _ Hdir Hs)
      as (hit & Hhit & Hc & _ & _ & _ & _ & Hq & Hp & Hm).
    cbv zeta in *.
    assert (Hnone : hit = None).
    { revert Hhit. unfold check_persistent. rewrite Hcm. congruence. }
    subst hit. change (default 0%Q (@None Q)) with 0%Q in *.
    change (bpm_eq0 0%Q) with true in *. cbn [andb] in *.
    rewrite (Hcold file (or_introl eq_refl)) in *.
    rewrite Hdir in Hd1. rewrite Hcm in Hcm1.
    destruct (IH d1 loc1 d' loc' Hd1 Hcm1) as (Hq' & Hc' & Hp' & Hm').
    + intros f Hf. rewrite Hc. apply Hcold. right. exact Hf.
    + exact Hrest.
    + rewrite Hq', Hc', Hp', Hm', Hq, Hc, Hp, Hm, <- app_assoc.
      repeat split; lia.
Qed.

(** X14. Opening the dialog on a directory with audio files, with an
    analyzer and no persistent store: every audio file of the listing is
    queued, in listing order, on one new worker bound to that directory;
    nothing is cached yet and no signal is pending. *)
Theorem opening_queues_every_audio_file fs dir a names :
  truthy dir = true -> isdir fs dir = true ->
  listdir fs dir = Ok names ->
  List.filter is_audio names <> [] ->
  exists s,
    init fs (Some dir) (Some a) None = Ok s /\
    threads s
    = [BPMAnalyzerThread.init (Some a) dir (List.filter is_audio names)] /\
    analyzer_thread (dialog s) = Some 0 /\
    status_label (dialog s)
    = AnalyzingTracks (length (List.filter is_audio names)) /\
    bpm_cache (dialog s) = ∅ /\
    event_queue s = [].
Proof.
  intros Ht Hd Hls Hne. unfold init. cbn [dir_ok]. rewrite Ht, Hd. cbn [andb].
  set (s0 := with_dialog _ _).
  destruct (populate_listing fs s0 dir names eq_refl Ht Hd Hls Hne)
    as (d1 & loc1 & Hscan & Hp);
    [intros f _; exists None; reflexivity|].
  rewrite Hp. eexists. split; [reflexivity|].
  assert (Hcold : forall f, In f (List.filter is_audio names) ->
            bpm_gt0 (default 0%Q
                       (bpm_cache
                          (with_track_items ∅
                             (with_list_widget [] (dialog s0)))
                        !! path_join dir f)) = false).
  { intros f _. cbn. rewrite lookup_empty. reflexivity. }
  destruct (scan_files_all_queued dir dir (List.filter is_audio names)
              (with_track_items ∅ (with_list_widget [] (dialog s0)))
              (mk_scan [] 0 0) d1 loc1 eq_refl eq_refl Hcold Hscan)
    as (Hq & Hc & Hcp & Hcm).
  pose proof (scan_files_inv _ _ _ _ _ _ Hscan) as [(_ & Ha & _ & Hat) _].
  cbn in Hq, Hc, Hcp, Hcm, Ha, Hat.
  unfold dispatch. cbn [dialog with_dialog audio_analyzer setText].
  rewrite Hq, Ha.
  destruct (List.filter is_audio names) as [|file files] eqn:Hf;
    [congruence|].
  unfold running_thread. cbn [dialog with_dialog analyzer_thread setText].
  rewrite Hat. cbn. repeat split.
  - unfold scan_status. rewrite Hcp, Hcm, Hq. reflexivity.
  - exact Hc.
Qed.

Lemma opening_queues_every_audio_file_witness :
  exists s,
    init Demo.fs (Some "/m") (Some Demo.analyzer) None = Ok s /\
    threads s
    = [BPMAnalyzerThread.init (Some Demo.analyzer) "/m"
         ["a.mp3"; "broken.mp3"; "C.WAV"]].
Proof.
  destruct (opening_queues_every_audio_file Demo.fs "/m" Demo.analyzer
              ["a.mp3"; "notes.txt"; "broken.mp3"; "C.WAV"])
    as (s & Hi & Hth & _); try reflexivity.
  - discriminate.
  - exists s. split; [exact Hi | exact Hth].
Defined.

(** A file the persistent store knows at a positive BPM: once the scan
    has met it, the cache holds that BPM under its path, its label shows
    it, and the file is not queued. *)
Lemma scan_files_hit dir dir0 file q files : forall d loc d' loc',
  directory d = Some dir0 ->
  check_persistent d (path_join dir file) = Ok (Some q) -> (0 < q)%Q ->
  In file files \/
  (bpm_cache d !! path_join dir file = Some q /\
   track_items d !! file
   = Some (splitext_root (basename file) +:+ bpm_suffix q)) ->
  scan_files dir (d, loc) files = Ok (d', loc') ->
  bpm_cache d' !! path_join dir file = Some q /\
  track_items d' !! file
  = Some (splitext_root (basename file) +:+ bpm_suffix q) /\
  (~ In file (files_to_analyze loc) -> ~ In file (files_to_analyze loc')).
Proof.
  induction files as [|f files IH]; intros d loc d' loc' Hdir Hhit Hpos Hpre;
    cbn [scan_files].
  - intros [= <- <-]. destruct Hpre as [[]|[Hc Ht]]. auto.
  - destruct (scan_file dir (d, loc) f) as [[d1 loc1]|] eqn:Hs;
      [|discriminate].
    cbn [mbind outcome_bind]. intros Hrest.
    pose proof (scan_file_inv _ _ _ _ _ _ Hs) as [Hw _].
    pose proof Hw as (Hd1 & _).
    pose proof (scan_file_fields _ _ _ _ _ _ _ Hdir Hs)
      as (hit & Hh & Hc & _ & Ht & _ & _ & Hq & _).
    cbv zeta in *. rewrite Hdir in Hd1.
    pose proof Hpos as Hgt. apply bpm_gt0_spec in Hgt.
    assert (Hhit1 : check_persistent d1 (path_join dir file) = Ok (Some q)).
    { rewrite (check_persistent_wiring d d1 _ Hw). exact Hhit. }
    destruct (decide (f = file)) as [->|Hne].
    + rewrite Hhit in Hh. injection Hh as <-.
      change (default 0%Q (Some q)) with q in *.
      rewrite (bpm_gt0_not_eq0 q Hgt), Hgt in *. rewrite app_nil_r in Hq.
      destruct (IH d1 loc1 d' loc' Hd1 Hhit1 Hpos) as (Hc' & Ht' & Hq');
        [right; rewrite Hc, Ht, !lookup_insert_eq; auto | exact Hrest |].
      repeat split; try assumption. rewrite Hq in Hq'. exact Hq'.
    + assert (Hqueue : ~ In file (files_to_analyze loc) ->
                       ~ In file (files_to_analyze loc1)).
      { rewrite Hq, in_app_iff. intros Hno [H|H]; [auto|].
        destruct (bpm_gt0 _); cbn in H; [tauto|]. destruct H as [H|[]].
        congruence. }
      assert (Hkeep :
        bpm_cache d !! path_join dir file = Some q ->
        bpm_cache d1 !! path_join dir file = Some q).
      { intros Hold. rewrite Hc.
        destruct hit as [q1|]; [|exact Hold].
        destruct (decide (path_join dir f = path_join dir file)) as [Hp|Hp].
        - rewrite Hp in *. rewrite lookup_insert_eq. congruence.
        - rewrite lookup_insert_ne by exact Hp. exact Hold. }
      destruct (IH d1 loc1 d' loc' Hd1 Hhit1 Hpos) as (Hc' & Ht' & Hq');
        [|exact Hrest|auto].
      destruct Hpre as [[H|H]|[Hco Hto]]; [congruence | left; exact H |].
      right. split; [apply Hkeep, Hco|].
      rewrite Ht, lookup_insert_ne by exact Hne. exact Hto.
Qed.

Lemma dispatch_threads s dir files i th' :
  threads (dispatch s dir files) !! i = Some th' ->
  threads s !! i = Some th' \/
  (exists th, threads s !! i = Some th /\
              th' = BPMAnalyzerThread.add_files th files) \/
  (exists a, th' = BPMAnalyzerThread.init (Some a) dir files).
Proof.
  unfold dispatch. destruct files as [|file files]; [auto|].
  destruct (audio_analyzer (dialog s)) as [a|]; [|auto].
  destruct (running_thread s) as [[j th]|] eqn:Hr; cbn [threads].
  - apply running_thread_Some in Hr as (_ & Hth & _).
    destruct (decide (j = i)) as [->|Hne].
    + rewrite list_lookup_insert_eq by (eapply lookup_lt_Some; exact Hth).
      intros [= <-]. right. left. eauto.
    + rewrite list_lookup_insert_ne by exact Hne. auto.
  - intros Hl. destruct (decide (i < length (threads s))) as [Hlt|Hge].
    + rewrite lookup_app_l in Hl by exact Hlt. auto.
    + rewrite lookup_app_r in Hl by lia.
      destruct (i - length (threads s)); [|discriminate].
      injection Hl as <-. right. right. eauto.
Qed.

(** X15. A listed audio file that the persistent store knows at a
    positive BPM is promoted by [populate_file_list], provided the store
    answers without raising for the other audio files too: afterwards
    [get_cached_bpm] of its path answers that BPM, its label shows it,
    and the call has not queued the file on any worker. *)
Theorem persistent_hit_is_promoted fs s dir names file cm bpm beats :
  directory (dialog s) = Some dir ->
  truthy dir = true -> isdir fs dir = true ->
  listdir fs dir = Ok names ->
  In file names -> is_audio file = true ->
  cache_manager (dialog s) = Some cm ->
  get_bpm_data cm (path_join dir file) = Ok (Some (Some bpm, beats)) ->
  (0 < bpm)%Q ->
  store_answers (dialog s) dir (List.filter is_audio names) ->
  exists s',
    populate_file_list fs s = Ok s' /\
    get_cached_bpm (dialog s') (path_join dir file) = bpm /\
    track_items (dialog s') !! file
    = Some (splitext_root (basename file) +:+ bpm_suffix bpm) /\
    (forall i th', threads s' !! i = Some th' ->
       In file (BPMAnalyzerThread.file_list th') ->
       exists th, threads s !! i = Some th /\
                  In file (BPMAnalyzerThread.file_list th)).
Proof.
  intros Hdir Ht Hd Hls Hin Haudio Hcm Hget Hpos Hans.
  assert (Hf : In file (List.filter is_audio names))
    by (apply filter_In; auto).
  destruct (populate_listing fs s dir names Hdir Ht Hd Hls)
    as (d1 & loc1 & Hscan & Hp);
    [intros Hnil; rewrite Hnil in Hf; destruct Hf | exact Hans |].
  rewrite Hp. eexists. split; [reflexivity|].
  destruct (scan_files_hit dir dir file bpm (List.filter is_audio names)
              (with_track_items ∅ (with_list_widget [] (dialog s)))
              (mk_scan [] 0 0) d1 loc1 Hdir) as (Hc & Hl & Hq);
    [|exact Hpos|left; exact Hf|exact Hscan|].
  { unfold check_persistent. cbn [cache_manager with_track_items with_list_widget].
    rewrite Hcm, Hget. reflexivity. }
  destruct (dispatch_fields (with_dialog (setText (scan_status loc1) d1) s)
              dir (files_to_analyze loc1)) as (Hti & Hbc & _).
  cbv zeta in Hti, Hbc. unfold get_cached_bpm. rewrite Hti, Hbc.
  cbn [dialog with_dialog bpm_cache track_items setText].
  rewrite Hc, Hl. repeat split.
  intros i th' Hth Hfile.
  apply dispatch_threads in Hth as [Hth|[(th & Hth & ->)|(a & ->)]].
  - eauto.
  - exists th. split; [exact Hth|]. cbn in Hfile. apply in_app_iff in Hfile.
    destruct Hfile as [H|H]; [exact H|]. exfalso. exact (Hq (fun x => x) H).
  - exfalso. exact (Hq (fun x => x) Hfile).
Qed.

Lemma persistent_hit_is_promoted_witness :
  exists s',
    populate_file_list Demo.fs Demo.store_system = Ok s' /\
    get_cached_bpm (dialog s') "/m/a.mp3" = 128%Q /\
    track_items (dialog s') !! "a.mp3" = Some "a (128 BPM)".
Proof.
  destruct (persistent_hit_is_promoted Demo.fs Demo.store_system "/m"
              ["a.mp3"; "notes.txt"; "broken.mp3"; "C.WAV"] "a.mp3"
              Demo.store 128 [0%Z])
    as (s' & Hp & Hc & Hl & _); try reflexivity.
  - left. reflexivity.
  - intros file _. unfold check_persistent.
    cbn [cache_manager dialog Demo.store_system Demo.store_dialog
         get_bpm_data Demo.store].
    destruct (String.eqb _ _); eexists; reflexivity.
  - exists s'. auto.
Defined.

Lemma dispatch_directory s dir files :
  directory (dialog (dispatch s dir files)) = directory (dialog s).
Proof.
  unfold dispatch. destruct files as [|file files]; [reflexivity|].
  destruct (audio_analyzer (dialog s)); [|reflexivity].
  destruct (running_thread s) as [[i th]|]; reflexivity.
Qed.

(** [populate_file_list] changes neither the directory of the dialog nor
    what the dialog has sent on. *)
Lemma populate_dialog_frame fs s s' :
  populate_file_list fs s = Ok s' ->
  directory (dialog s') = directory (dialog s) /\
  bpm_analyzed (dialog s') = bpm_analyzed (dialog s).
Proof.
  unfold populate_file_list.
  set (d0 := with_track_items ∅ (with_list_widget [] (dialog s))).
  destruct (directory d0) as [dir|] eqn:Hdir; [|intros [= <-]; auto].
  destruct (truthy dir && isdir fs dir); [|intros [= <-]; auto].
  destruct (listdir fs dir) as [names|e].
  - destruct (List.filter is_audio names) as [|file files];
      [intros [= <-]; auto|].
    destruct (scan_files dir (d0, mk_scan [] 0 0) (file :: files))
      as [[d1 loc1]|] eqn:Hscan; [|discriminate].
    cbn [mbind outcome_bind]. intros [= <-].
    rewrite dispatch_directory.
    destruct (dispatch_fields (with_dialog (setText (scan_status loc1) d1) s)
                dir (files_to_analyze loc1)) as (_ & _ & _ & Ha & _).
    cbv zeta in Ha. rewrite Ha.
    cbn [dialog with_dialog directory bpm_analyzed setText].
    pose proof (scan_files_inv _ _ _ _ _ _ Hscan) as [(Hd & _) _].
    destruct (scan_files_rows dir dir (file :: files) d0 _ _ _ Hdir Hscan)
      as (_ & _ & Hb & _).
    split; [exact Hd | exact Hb].
  - destruct e; try discriminate. intros [= <-]. auto.
Qed.

(** X16. A change of directory does not redirect the running worker: the
    dialog is on the new directory, but the worker keeps the directory it
    was created with. The files appended to its queue are the audio files
    of the new listing for which the dialog knows no BPM greater than 0,
    in the order of the listing, and the worker looks for each of them, as
    for any file, under its old directory. *)
Theorem directory_change_does_not_redirect_worker fs dir names s s' i th :
  running_thread s = Some (i, th) ->
  is_Some (audio_analyzer (dialog s)) ->
  dir_ok fs (Some dir) = true ->
  listdir fs dir = Ok names ->
  set_directory fs (Some dir) s = Ok s' ->
  directory (dialog s') = Some dir /\
  exists th',
    threads s' !! i = Some th' /\
    BPMAnalyzerThread.directory th' = BPMAnalyzerThread.directory th /\
    BPMAnalyzerThread.file_list th'
    = BPMAnalyzerThread.file_list th
      ++ List.filter (needs_analysis (dialog s) dir)
           (List.filter is_audio names) /\
    (forall file,
       BPMAnalyzerThread.process th' file = BPMAnalyzerThread.process th file) /\
    (forall file,
       BPMAnalyzerThread.notification th' file
       = BPMAnalyzerThread.notified (BPMAnalyzerThread.audio_analyzer th)
           (BPMAnalyzerThread.directory th) file).
Proof.
  intros Hr Han Hok Hls Hset.
  pose proof (set_directory_queue _ _ _ _ _ _ _ Hr Han Hok Hls Hset) as Ht.
  revert Hset. unfold set_directory. rewrite Hok. intros Hpop.
  apply populate_dialog_frame in Hpop as [Hd _]. split; [exact Hd|].
  apply running_thread_Some in Hr as (_ & Hth & _).
  eexists. rewrite Ht.
  split; [apply list_lookup_insert_eq; eapply lookup_lt_Some; exact Hth|].
  split; [reflexivity|]. split; [reflexivity|]. split; [reflexivity|].
  intros file. apply (notification_notified (BPMAnalyzerThread.add_files th _)).
Qed.

Lemma directory_change_does_not_redirect_worker_witness :
  exists s' th',
    set_directory Demo.fs (Some "/n") Demo.started = Ok s' /\
    directory (dialog s') = Some "/n" /\
    threads s' !! 0 = Some th' /\
    BPMAnalyzerThread.directory th' = "/m" /\
    BPMAnalyzerThread.file_list th'
    = ["a.mp3"; "broken.mp3"; "C.WAV"; "x.mp3"].
Proof.
  destruct (set_directory Demo.fs (Some "/n") Demo.started) as [s'|e] eqn:Hs.
  - destruct (directory_change_does_not_redirect_worker Demo.fs "/n"
                ["x.mp3"] Demo.started s' 0
                (BPMAnalyzerThread.init (Some Demo.analyzer) "/m"
                   ["a.mp3"; "broken.mp3"; "C.WAV"]))
      as (Hd & th' & Hth & Hdir & Hfl & _).
    + vm_compute. reflexivity.
    + vm_compute. eexists. reflexivity.
    + reflexivity.
    + reflexivity.
    + exact Hs.
    + exists s', th'. auto.
  - exfalso. revert Hs. vm_compute. discriminate.
Defined.

(** X17. After [set_directory] with a directory that is not valid, the
    dialog has no directory and an empty list, but keeps its track items;
    the workers are untouched. A positive result that arrives then for
    one of these files makes [update_track_bpm] raise [TypeError] (the
    path is joined on [None]) instead of being dropped. *)
Theorem result_after_invalid_directory_raises fs directory' s :
  dir_ok fs directory' = false ->
  exists s',
    set_directory fs directory' s = Ok s' /\
    directory (dialog s') = None /\
    list_widget (dialog s') = [] /\
    status_label (dialog s') = InvalidDirectory /\
    track_items (dialog s') = track_items (dialog s) /\
    threads s' = threads s /\
    forall file bpm,
      is_Some (track_items (dialog s) !! file) -> (0 < bpm)%Q ->
      exists msg,
        update_track_bpm (dialog s') file bpm = Raise (TypeError msg) /\
        step (UpdateTrackBpm file bpm) s' = Raise (TypeError msg).
Proof.
  intros Hbad. unfold set_directory. rewrite Hbad.
  eexists. split; [reflexivity|]. repeat split.
  intros file bpm Hin Hpos. apply bpm_gt0_spec in Hpos.
  eexists. cbn [step dialog with_dialog]. unfold update_track_bpm.
  cbn [track_items directory with_directory setText with_list_widget
       setWindowTitle].
  rewrite bool_decide_eq_true_2 by exact Hin. rewrite Hpos. cbn.
  split; reflexivity.
Qed.

Lemma result_after_invalid_directory_raises_witness :
  exists s' msg,
    set_directory Demo.fs (Some "/gone") Demo.started = Ok s' /\
    step (UpdateTrackBpm "a.mp3" 120) s' = Raise (TypeError msg).
Proof.
  destruct (result_after_invalid_directory_raises Demo.fs (Some "/gone")
              Demo.started eq_refl)
    as (s' & Hs & _ & _ & _ & _ & _ & Hraise).
  destruct (Hraise "a.mp3" 120%Q) as (msg & _ & Hstep).
  - exists "a". vm_compute. reflexivity.
  - reflexivity.
  - exists s', msg. auto.
Defined.

Lemma join_done fuel th :
  isRunning th = false -> BPMAnalyzerThread.join fuel th = (th, []).
Proof. intros Hr. destruct fuel; cbn; [|rewrite Hr]; reflexivity. Qed.

(** What [wait()] sees of a worker stopped in its loop: one step that
    leaves the loop with the completion signal, one that finishes. *)
Lemma wait_stopped th :
  BPMAnalyzerThread.at_phase th = BPMAnalyzerThread.Looping ->
  snd (BPMAnalyzerThread.wait (BPMAnalyzerThread.stop th))
  = [Emit AnalysisCompleted].
Proof.
  intros Hph. unfold BPMAnalyzerThread.wait.
  set (k := length _ - _). clearbody k.
  change (2 + k) with (S (S k)). cbn [BPMAnalyzerThread.join].
  unfold BPMAnalyzerThread.isRunning at 1.
  cbn [BPMAnalyzerThread.stop BPMAnalyzerThread.at_phase]. rewrite Hph.
  rewrite bool_decide_eq_true_2 by discriminate.
  unfold BPMAnalyzerThread.run_step at 1.
  cbn [BPMAnalyzerThread.stop BPMAnalyzerThread.at_phase
       BPMAnalyzerThread.running BPMAnalyzerThread.file_list
       BPMAnalyzerThread.cursor negb]. rewrite Hph.
  assert (Hrest : forall th1,
    snd (let '(th2, effs2) :=
           if isRunning (BPMAnalyzerThread.set_phase BPMAnalyzerThread.Returning th1)
           then
             let '(th1', effs1) :=
               BPMAnalyzerThread.run_step
                 (BPMAnalyzerThread.set_phase BPMAnalyzerThread.Returning th1) in
             let '(th2, effs2) := BPMAnalyzerThread.join k th1' in
             (th2, effs1 ++ effs2)
           else (BPMAnalyzerThread.set_phase BPMAnalyzerThread.Returning th1, [])
         in (th2, [Emit AnalysisCompleted] ++ effs2))
    = [Emit AnalysisCompleted]).
  { intros th1.
    change (isRunning (BPMAnalyzerThread.set_phase BPMAnalyzerThread.Returning th1))
      with true.
    cbn [BPMAnalyzerThread.run_step BPMAnalyzerThread.set_phase
         BPMAnalyzerThread.at_phase].
    rewrite join_done by reflexivity. reflexivity. }
  destruct (BPMAnalyzerThread.file_list th !! BPMAnalyzerThread.cursor th);
    apply Hrest.
Qed.

(** Past its loop a worker emits and prints nothing more, however long
    it is waited for. *)
Lemma join_after_loop fuel : forall th,
  BPMAnalyzerThread.at_phase th <> BPMAnalyzerThread.Looping ->
  snd (BPMAnalyzerThread.join fuel th) = [].
Proof.
  induction fuel as [|fuel IH]; intros th Hph; cbn [BPMAnalyzerThread.join];
    [reflexivity|].
  destruct (isRunning th); [|reflexivity].
  assert (Hstep : snd (BPMAnalyzerThread.run_step th) = [] /\
                  BPMAnalyzerThread.at_phase (fst (BPMAnalyzerThread.run_step th))
                  <> BPMAnalyzerThread.Looping).
  { unfold BPMAnalyzerThread.run_step.
    destruct (BPMAnalyzerThread.at_phase th) eqn:E; cbn; split; congruence. }
  destruct (BPMAnalyzerThread.run_step th) as [th1 effs1].
  cbn [fst snd] in Hstep. destruct Hstep as [-> Hph1].
  specialize (IH th1 Hph1).
  destruct (BPMAnalyzerThread.join fuel th1) as [th2 effs2].
  cbn [snd] in *. subst effs2. reflexivity.
Qed.

(** What a worker in its loop does from the test of line 182 to the
    return of [wait()]: it processes the [n] files it had begun, then
    emits the completion signal. *)
Lemma stop_and_wait_effects n : forall th,
  BPMAnalyzerThread.at_phase th = BPMAnalyzerThread.Looping ->
  BPMAnalyzerThread.running th = true ->
  snd (BPMAnalyzerThread.stop_and_wait n th)
  = flat_map (BPMAnalyzerThread.process th)
      (take n (drop (BPMAnalyzerThread.cursor th)
                 (BPMAnalyzerThread.file_list th)))
    ++ [Emit AnalysisCompleted].
Proof.
  unfold BPMAnalyzerThread.stop_and_wait.
  induction n as [|n IH]; intros th Hph Hrun.
  - cbn [repeat BPMAnalyzerThread.exec].
    pose proof (wait_stopped th Hph) as Hw.
    destruct (BPMAnalyzerThread.wait (BPMAnalyzerThread.stop th)) as [th2 effs2].
    cbn [snd] in *. subst effs2. rewrite take_0. reflexivity.
  - cbn [repeat BPMAnalyzerThread.exec BPMAnalyzerThread.act].
    destruct (BPMAnalyzerThread.file_list th !! BPMAnalyzerThread.cursor th)
      as [file|] eqn:Hfile.
    + rewrite (run_step_file th file Hph Hrun Hfile).
      specialize (IH (BPMAnalyzerThread.advance th) Hph Hrun).
      destruct (BPMAnalyzerThread.exec (repeat BPMAnalyzerThread.Tick n)
                  (BPMAnalyzerThread.advance th)) as [th1 effs1].
      destruct (BPMAnalyzerThread.wait (BPMAnalyzerThread.stop th1))
        as [th2 effs2].
      cbn [snd] in *. rewrite <- app_assoc, IH.
      rewrite (drop_S _ _ _ Hfile), firstn_cons. cbn [flat_map].
      cbn [BPMAnalyzerThread.advance BPMAnalyzerThread.cursor
           BPMAnalyzerThread.file_list].
      rewrite (flat_map_ext (BPMAnalyzerThread.process (BPMAnalyzerThread.advance th))
                 (BPMAnalyzerThread.process th))
        by (intros f; apply process_same_job; split; reflexivity).
      rewrite <- app_assoc. reflexivity.
    + rewrite (run_step_exhausted th Hph Hfile).
      assert (Hph1 : BPMAnalyzerThread.at_phase
                       (BPMAnalyzerThread.set_phase BPMAnalyzerThread.Returning th)
                     <> BPMAnalyzerThread.Looping) by (cbn; congruence).
      destruct (exec_after_loop (repeat BPMAnalyzerThread.Tick n) _ Hph1)
        as [Hnil Hend].
      destruct (BPMAnalyzerThread.exec (repeat BPMAnalyzerThread.Tick n) _)
        as [th1 effs1].
      cbn [fst snd] in Hnil, Hend. subst effs1.
      pose proof (join_after_loop
                    (2 + (length (BPMAnalyzerThread.file_list
                                    (BPMAnalyzerThread.stop th1))
                          - BPMAnalyzerThread.cursor (BPMAnalyzerThread.stop th1)))
                    (BPMAnalyzerThread.stop th1) Hend) as Hw.
      fold (BPMAnalyzerThread.wait (BPMAnalyzerThread.stop th1)) in Hw.
      destruct (BPMAnalyzerThread.wait (BPMAnalyzerThread.stop th1))
        as [th2 effs2].
      cbn [snd] in *. subst effs2.
      rewrite drop_ge by (apply lookup_ge_None; exact Hfile).
      rewrite take_nil. reflexivity.
Qed.

Lemma signals_flat_map th files :
  signals (flat_map (BPMAnalyzerThread.process th) files)
  = flat_map (BPMAnalyzerThread.notification th) files.
Proof.
  induction files as [|f files IH]; [reflexivity|].
  cbn [flat_map]. rewrite signals_app, IH. reflexivity.
Qed.

Lemma prints_flat_map th files :
  prints (flat_map (BPMAnalyzerThread.process th) files)
  = flat_map (fun file => prints (BPMAnalyzerThread.process th file)) files.
Proof.
  induction files as [|f files IH]; [reflexivity|].
  cbn [flat_map]. rewrite prints_app, IH. reflexivity.
Qed.

(** X18. [closeEvent] twice is [closeEvent] once, whatever the worker
    had begun at either call: after the first the dialog has no running
    worker left to stop. *)
Theorem closeEvent_idempotent n m s :
  closeEvent m (closeEvent n s) = closeEvent n s.
Proof.
  destruct (running_thread s) as [[i th]|] eqn:Hr.
  - assert (Hc : closeEvent n s
                 = commit i (BPMAnalyzerThread.stop_and_wait n th) s)
      by (unfold closeEvent; rewrite Hr; reflexivity).
    rewrite Hc. apply running_thread_Some in Hr as (Ha & Hth & _).
    unfold closeEvent at 1. unfold running_thread.
    cbn [commit dialog threads]. rewrite Ha.
    rewrite list_lookup_insert_eq by (eapply lookup_lt_Some; exact Hth).
    unfold isRunning. rewrite (proj1 (stop_and_wait_finished n th)).
    rewrite bool_decide_eq_false_2; [reflexivity|]. intros H. apply H.
    reflexivity.
  - assert (Hc : forall k, closeEvent k s = s)
      by (intros k; unfold closeEvent; rewrite Hr; reflexivity).
    rewrite (Hc n). apply Hc.
Qed.

(** X19. Closing the dialog while its worker is in its loop, the flag
    up: the worker finishes the [n] iterations it had begun, so that the
    files of these iterations that analyse to a BPM greater than 0 are
    still notified, in order, and no other file is; then it emits
    [analysis_completed], once, and these signals are queued after those
    already waiting. What is printed is what processing these [n] files
    prints. The dialog itself is unchanged by the close. When the call
    falls between two iterations, the one signal queued is
    [analysis_completed] and nothing is printed. *)
Theorem closeEvent_queues_completion n s i th :
  running_thread s = Some (i, th) ->
  BPMAnalyzerThread.at_phase th = BPMAnalyzerThread.Looping ->
  BPMAnalyzerThread.running th = true ->
  let begun :=
    take n (drop (BPMAnalyzerThread.cursor th)
              (BPMAnalyzerThread.file_list th)) in
  event_queue (closeEvent n s)
  = event_queue s
    ++ flat_map (BPMAnalyzerThread.notified
                   (BPMAnalyzerThread.audio_analyzer th)
                   (BPMAnalyzerThread.directory th)) begun
    ++ [AnalysisCompleted] /\
  stdout (closeEvent n s)
  = stdout s
    ++ flat_map (fun file => prints (BPMAnalyzerThread.process th file)) begun /\
  dialog (closeEvent n s) = dialog s /\
  (n = 0 ->
   event_queue (closeEvent n s) = event_queue s ++ [AnalysisCompleted] /\
   stdout (closeEvent n s) = stdout s).
Proof.
  intros Hr Hph Hrun begun. unfold closeEvent. rewrite Hr.
  cbn [commit event_queue stdout dialog].
  rewrite (stop_and_wait_effects n th Hph Hrun). fold begun.
  rewrite signals_app, prints_app, signals_flat_map, prints_flat_map.
  rewrite (flat_map_ext _ _ (notification_notified th)).
  cbn [signals prints omap]. rewrite !app_nil_r.
  change (mbind _ [Emit AnalysisCompleted]) with [AnalysisCompleted].
  split; [reflexivity|]. split; [reflexivity|]. split; [reflexivity|].
  intros ->. subst begun. rewrite take_0. cbn [flat_map app].
  rewrite app_nil_r. split; reflexivity.
Qed.

Lemma closeEvent_queues_completion_witness :
  event_queue (closeEvent 1 Demo.started)
  = [BpmAnalyzed "a.mp3" 120%Q; AnalysisCompleted] /\
  stdout (closeEvent 1 Demo.started) = [PreCached "a.mp3" 3] /\
  event_queue (closeEvent 0 Demo.started) = [AnalysisCompleted].
Proof.
  pose proof (closeEvent_queues_completion 1 Demo.started 0
                (BPMAnalyzerThread.init (Some Demo.analyzer) "/m"
                   ["a.mp3"; "broken.mp3"; "C.WAV"])
                ltac:(vm_compute; reflexivity) eq_refl eq_refl)
    as (Hq1 & Hp1 & _).
  pose proof (closeEvent_queues_completion 0 Demo.started 0
                (BPMAnalyzerThread.init (Some Demo.analyzer) "/m"
                   ["a.mp3"; "broken.mp3"; "C.WAV"])
                ltac:(vm_compute; reflexivity) eq_refl eq_refl)
    as (_ & _ & _ & H0).
  split; [exact Hq1|]. split; [exact Hp1|]. exact (proj1 (H0 eq_refl)).
Defined.

Lemma lower_char_idempotent (c : ascii) :
  lower_char (lower_char c) = lower_char c.
Proof.
  destruct c as [[] [] [] [] [] [] [] []]; reflexivity.
Qed.

Lemma lower_idempotent (name : string) : lower (lower name) = lower name.
Proof.
  induction name as [|c name IH]; cbn [lower]; [reflexivity|].
  rewrite lower_char_idempotent, IH. reflexivity.
Qed.

(** X20. The test that selects audio files does not look at letter case:
    a name passes exactly when its lower-case form passes. *)
Theorem is_audio_ignores_case (file : string) :
  is_audio (lower file) = is_audio file.
Proof. unfold is_audio. rewrite lower_idempotent. reflexivity. Qed.

Lemma append_inj_r (a x y : string) : a +:+ x = a +:+ y -> x = y.
Proof.
  induction a as [|c a IH]; cbn [String.append]; [auto|].
  intros [= H]. apply IH, H.
Qed.

(** X21. Within one directory, two different file names that are not
    absolute paths get different paths, hence different cache keys. *)
Theorem path_join_distinct (dir file1 file2 : string) :
  starts_with_slash file1 = false -> starts_with_slash file2 = false ->
  file1 <> file2 ->
  path_join dir file1 <> path_join dir file2.
Proof.
  intros H1 H2 Hne Heq. apply Hne. revert Heq.
  unfold path_join. rewrite H1, H2.
  destruct (last_char dir) as [c|]; [|auto].
  destruct (Ascii.eqb c slash); intros Heq.
  - exact (append_inj_r _ _ _ Heq).
  - apply append_inj_r in Heq. exact (append_inj_r _ _ _ Heq).
Qed.

Lemma path_join_distinct_witness :
  path_join "/m" "a.mp3" <> path_join "/m" "A.mp3".
Proof.
  apply (path_join_distinct "/m" "a.mp3" "A.mp3");
    [reflexivity | reflexivity | discriminate].
Defined.

Lemma join_signal fuel : forall th file bpm,
  In (BpmAnalyzed file bpm) (signals (snd (BPMAnalyzerThread.join fuel th))) ->
  (0 < bpm)%Q.
Proof.
  induction fuel as [|fuel IH]; intros th file bpm;
    cbn [BPMAnalyzerThread.join]; [intros []|].
  destruct (isRunning th); [|intros []].
  pose proof (act_signal BPMAnalyzerThread.Tick th file bpm) as Hact.
  cbn [BPMAnalyzerThread.act] in Hact.
  destruct (BPMAnalyzerThread.run_step th) as [th1 effs1].
  specialize (IH th1 file bpm).
  destruct (BPMAnalyzerThread.join fuel th1) as [th2 effs2].
  cbn [snd] in *. rewrite signals_app, in_app_iff.
  intros [H|H]; [exact (proj1 (Hact H)) | exact (IH H)].
Qed.

Lemma exec_signal acts : forall th file bpm,
  In (BpmAnalyzed file bpm) (signals (snd (BPMAnalyzerThread.exec acts th))) ->
  (0 < bpm)%Q.
Proof.
  induction acts as [|a acts IH]; intros th file bpm;
    cbn [BPMAnalyzerThread.exec]; [intros []|].
  pose proof (act_signal a th file bpm) as Hact.
  destruct (BPMAnalyzerThread.act a th) as [th1 effs1].
  specialize (IH th1 file bpm).
  destruct (BPMAnalyzerThread.exec acts th1) as [th2 effs2].
  cbn [snd] in *. rewrite signals_app, in_app_iff.
  intros [H|H]; [exact (proj1 (Hact H)) | exact (IH H)].
Qed.

Lemma stop_and_wait_signal n th file bpm :
  In (BpmAnalyzed file bpm)
     (signals (snd (BPMAnalyzerThread.stop_and_wait n th))) ->
  (0 < bpm)%Q.
Proof.
  unfold BPMAnalyzerThread.stop_and_wait.
  pose proof (exec_signal (repeat BPMAnalyzerThread.Tick n) th file bpm) as He.
  destruct (BPMAnalyzerThread.exec (repeat BPMAnalyzerThread.Tick n) th)
    as [th1 effs1].
  pose proof (join_signal
                (2 + (length (BPMAnalyzerThread.file_list
                                (BPMAnalyzerThread.stop th1))
                      - BPMAnalyzerThread.cursor (BPMAnalyzerThread.stop th1)))
                (BPMAnalyzerThread.stop th1) file bpm) as Hj.
  fold (BPMAnalyzerThread.wait (BPMAnalyzerThread.stop th1)) in Hj.
  destruct (BPMAnalyzerThread.wait (BPMAnalyzerThread.stop th1)) as [th2 effs2].
  cbn [snd] in *. rewrite signals_app, in_app_iff.
  intros [H|H]; [exact (He H) | exact (Hj H)].
Qed.

Lemma update_track_bpm_outgoing d file bpm d' :
  update_track_bpm d file bpm = Ok d' ->
  bpm_analyzed d' = bpm_analyzed d \/
  (exists path, (0 < bpm)%Q /\
                bpm_analyzed d' = bpm_analyzed d ++ [(path, bpm)]).
Proof.
  unfold update_track_bpm.
  destruct (bool_decide _ && bpm_gt0 bpm) eqn:Hg; [|intros [= <-]; auto].
  apply andb_true_iff in Hg as [_ Hpos]. apply bpm_gt0_spec in Hpos.
  destruct (directory d) as [dir|]; [|discriminate].
  intros [= <-]. right. exists (path_join dir file).
  split; [exact Hpos|]. destruct (0 <? _); reflexivity.
Qed.

(** X22. In every state the dialog can reach, every [bpm_analyzed] signal
    waiting in the queue of the control thread carries a BPM greater than
    0, and so does every [bpm_analyzed] the dialog has sent on: the
    sentinel never travels. *)
Theorem only_positive_bpm_travels fs directory a cm evs s0 s :
  init fs directory a cm = Ok s0 -> run_events evs s0 = Ok s ->
  (forall file bpm, In (BpmAnalyzed file bpm) (event_queue s) -> (0 < bpm)%Q) /\
  (forall path bpm, In (path, bpm) (bpm_analyzed (dialog s)) -> (0 < bpm)%Q).
Proof.
  set (P := fun s : system =>
    (forall file bpm, In (BpmAnalyzed file bpm) (event_queue s) -> (0 < bpm)%Q) /\
    (forall path bpm, In (path, bpm) (bpm_analyzed (dialog s)) -> (0 < bpm)%Q)).
  assert (Hupd : forall d file bpm d',
    update_track_bpm d file bpm = Ok d' ->
    (forall path v, In (path, v) (bpm_analyzed d) -> (0 < v)%Q) ->
    forall path v, In (path, v) (bpm_analyzed d') -> (0 < v)%Q).
  { intros d file bpm d' Hu Hd path v.
    destruct (update_track_bpm_outgoing d file bpm d' Hu)
      as [-> | (p & Hpos & ->)]; [apply Hd|].
    rewrite in_app_iff. intros [H|[[= <- <-]|[]]]; [exact (Hd _ _ H) | exact Hpos]. }
  assert (Hpop : forall fs0 s1 s2, populate_file_list fs0 s1 = Ok s2 ->
            P s1 -> P s2).
  { intros fs0 s1 s2 Hp [Hq Hb].
    pose proof (populate_kept _ _ _ Hp) as (_ & _ & _ & Heq).
    pose proof (populate_dialog_frame _ _ _ Hp) as [_ Hba].
    split; [rewrite Heq; exact Hq | rewrite Hba; exact Hb]. }
  assert (Hstep : forall ev s1 s2, step ev s1 = Ok s2 -> P s1 -> P s2).
  { intros ev s1 s2. destruct ev as [fs0 dir0|fs0| |file bpm| |i];
      cbn [step]; intros Hs [Hq Hb].
    - revert Hs. unfold set_directory. destruct (dir_ok fs0 dir0).
      + intros Hp. apply (Hpop _ _ _ Hp). split; assumption.
      + intros [= <-]. split; assumption.
    - apply (Hpop _ _ _ Hs). split; assumption.
    - injection Hs as <-. unfold closeEvent.
      destruct (running_thread s1) as [[j th]|]; [|split; assumption].
      split; [|exact Hb]. cbn [commit event_queue]. intros f b.
      rewrite in_app_iff. intros [H|H]; [exact (Hq _ _ H)|].
      exact (stop_and_wait_signal _ _ _ _ H).
    - destruct (update_track_bpm (dialog s1) file bpm) as [d'|] eqn:Hu;
        [|discriminate].
      cbn in Hs. injection Hs as <-. split; [exact Hq|].
      exact (Hupd _ _ _ _ Hu Hb).
    - revert Hs. unfold deliver.
      destruct (event_queue s1) as [|[file bpm|] rest] eqn:Heq.
      + intros [= <-]. split; [rewrite Heq; intros ? ? []|exact Hb].
      + destruct (update_track_bpm (dialog s1) file bpm) as [d'|] eqn:Hu;
          [|discriminate].
        cbn. intros [= <-]. split.
        * intros f b H. apply (Hq f b). right. exact H.
        * exact (Hupd _ _ _ _ Hu Hb).
      + intros [= <-]. split; [|exact Hb].
        intros f b H. apply (Hq f b). right. exact H.
    - destruct (threads s1 !! i) as [th|]; injection Hs as <-;
        [|split; assumption].
      split; [|exact Hb]. cbn [commit event_queue]. intros f b.
      rewrite in_app_iff. intros [H|H]; [exact (Hq _ _ H)|].
      exact (proj1 (act_signal BPMAnalyzerThread.Tick th f b H)). }
  intros Hi Hr. apply (run_invariant P Hstep evs s0 s Hr).
  revert Hi. unfold init. set (s1 := with_dialog _ _).
  assert (P1 : P s1) by (split; intros ? ? []).
  destruct (dir_ok fs directory).
  - intros Hp. exact (Hpop _ _ _ Hp P1).
  - intros [= <-]. split; intros ? ? [].
Qed.

Lemma only_positive_bpm_travels_witness :
  In ("/m/C.WAV", 120%Q) (bpm_analyzed (dialog Demo.analysed)) /\
  (0 < 120)%Q.
Proof.
  assert (Hin : In ("/m/C.WAV", 120%Q) (bpm_analyzed (dialog Demo.analysed)))
    by (vm_compute; left; reflexivity).
  split; [exact Hin|].
  refine (proj2 (only_positive_bpm_travels Demo.fs (Some "/m")
                   (Some Demo.analyzer) (Some Demo.store)
                   [WorkerStep 0; WorkerStep 0; Deliver; WorkerStep 0; Deliver]
                   Demo.opened Demo.analysed _ _) "/m/C.WAV" 120%Q Hin);
    vm_compute; reflexivity.
Defined.

(** The cache of the state reached once the worker of the dialog opened
    with the store has analysed its files and the results are delivered. *)
Lemma reachable_cache_positive_witness :
  bpm_cache (dialog Demo.analysed) !! "/m/a.mp3" = Some 128%Q /\
  (0 < 128)%Q.
Proof.
  assert (Hl : bpm_cache (dialog Demo.analysed) !! "/m/a.mp3" = Some 128%Q)
    by (vm_compute; reflexivity).
  split; [exact Hl|].
  refine (reachable_cache_positive Demo.fs (Some "/m") (Some Demo.analyzer)
            (Some Demo.store)
            [WorkerStep 0; WorkerStep 0; Deliver; WorkerStep 0; Deliver]
            Demo.opened Demo.analysed _ _ _ "/m/a.mp3" 128%Q Hl).
  - intros c path bpm beats [= <-]. cbn [get_bpm_data Demo.store].
    destruct (String.eqb path "/m/a.mp3"); [|discriminate].
    intros [= <- _]. reflexivity.
  - vm_compute. reflexivity.
  - vm_compute. reflexivity.
Defined.

End SystemExtras.
